(** * CAN channel adapters of pykiso: [cc_pcan_can] and [cc_vector_can]

    A shallow embedding of the two connectors
    [src/pykiso/lib/connectors/cc_pcan_can.py] and
    [src/pykiso/lib/connectors/cc_vector_can.py], followed by the
    properties of construction, close, send, receive and of the trace
    merger that the specification states about them, and by further
    properties of the code: open and the configuration of the trace, the
    life of a channel, the log filter, the Vector channel and the
    teardown.

    Conventions of the embedding.
    - A Python call that may raise is a computation in the monad [M]:
      it maps a state to an [outcome] and the state it leaves behind, so
      that the mutations made before an exception survive it, as in Python.
    - Answers of the vendor SDK (python-can, PCANBasic) are not computed:
      every method takes the answers of the calls it makes as arguments.
    - Files hold bytes. A file opened in text mode is read and written
      through the codec of the locale, which is compatible with ASCII;
      what the codec makes of other bytes is an answer of the environment,
      an error included. Reading applies Python's universal newline
      translation. The platform is a POSIX one ([os.linesep] is a line
      feed, [rename] replaces its destination).
    - Strings hold characters below code point 256.
    - A log call evaluates its f-string before it logs, so that what the
      formatting of a frame raises is raised by the method. *)

From Stdlib Require Import ZArith NArith QArith Ascii String.
From stdpp Require Import gmap strings list fin_maps sorting.

Local Open Scope string_scope.
Local Open Scope list_scope.

(** ** The Python runtime the connectors rely on *)

Module Py.

(** Exception classes that the two modules raise, catch or let through.
    [KeyboardInterrupt] stands for the classes that derive from
    [BaseException] but not from [Exception]. *)
Inductive exception : Type :=
  | CanError
  | ValueError (message : string)
  | IndexError
  | AttributeError
  | RuntimeError
  | OSError
  | FileNotFoundError
  | KeyError
  | TypeError
  | UnicodeDecodeError
  | OtherException
  | KeyboardInterrupt.

(** [isinstance(e, Exception)] *)
Definition is_Exception (e : exception) : bool :=
  match e with
  | KeyboardInterrupt => false
  | _ => true
  end.

(** [isinstance(e, can.CanError)] *)
Definition is_CanError (e : exception) : bool :=
  match e with
  | CanError => true
  | _ => false
  end.

(** [isinstance(e, IndexError)] *)
Definition is_IndexError (e : exception) : bool :=
  match e with
  | IndexError => true
  | _ => false
  end.

Inductive outcome (A : Type) : Type :=
  | Returned (a : A)
  | Raised (e : exception).
Arguments Returned {A} a.
Arguments Raised {A} e.

Definition returns {A} (o : outcome A) : bool :=
  match o with
  | Returned _ => true
  | Raised _ => false
  end.

(** State and exceptions: the state is threaded through a raise. *)
Definition M (St A : Type) : Type := St → outcome A * St.

Definition ret {St A} (a : A) : M St A := λ s, (Returned a, s).

Definition raise {St A} (e : exception) : M St A := λ s, (Raised e, s).

Definition bind {St A B} (m : M St A) (k : A → M St B) : M St B :=
  λ s, match m s with
       | (Returned a, s') => k a s'
       | (Raised e, s') => (Raised e, s')
       end.

Declare Scope py_scope.
Delimit Scope py_scope with py.
Notation "x <- m ;; k" := (bind m (λ x, k))
  (at level 100, m at next level, right associativity) : py_scope.
Notation "m ;; k" := (bind m (λ _, k))
  (at level 100, right associativity) : py_scope.

Definition get {St} : M St St := λ s, (Returned s, s).

Definition modify {St} (f : St → St) : M St unit := λ s, (Returned tt, f s).

(** The answer of an external call, replayed in the monad. *)
Definition replay {St A} (o : outcome A) : M St A := λ s, (o, s).

(** [try: body / except <handles>: handler] *)
Definition try_except {St A} (body : M St A) (handles : exception → bool)
    (handler : exception → M St A) : M St A :=
  λ s, match body s with
       | (Returned a, s') => (Returned a, s')
       | (Raised e, s') => if handles e then handler e s' else (Raised e, s')
       end.

(** [try: body / except <handles>: handler / else: orelse]: the [else]
    suite runs after a body that returned and is not guarded by the
    [except] clause. *)
Definition try_except_else {St A B} (body : M St A)
    (handles : exception → bool) (handler : exception → M St B)
    (orelse : A → M St B) : M St B :=
  λ s, match body s with
       | (Returned a, s') => orelse a s'
       | (Raised e, s') => if handles e then handler e s' else (Raised e, s')
       end.

(** [try: body / finally: final]: the [finally] suite runs on every exit,
    and an exception of its own replaces the pending outcome. *)
Definition try_finally {St A} (body : M St A) (final : M St unit) : M St A :=
  λ s, match body s with
       | (o, s') =>
           match final s' with
           | (Returned _, s'') => (o, s'')
           | (Raised e, s'') => (Raised e, s'')
           end
       end.

(** [for x in xs: body x] *)
Fixpoint for_each {St A} (xs : list A) (body : A → M St unit) : M St unit :=
  match xs with
  | [] => ret tt
  | x :: xs' => bind (body x) (λ _, for_each xs' body)
  end.

(** Text as Python's [str] over one-byte characters. *)
Abbreviation text := (list ascii).

Definition LF : ascii := "010"%char.
Definition CR : ascii := "013"%char.
Definition SPACE : ascii := " "%char.

(** A character of the ASCII range. *)
Definition is_ascii (c : ascii) : bool := (N_of_ascii c <? 128)%N.

(** The line boundaries of [str.splitlines] below code point 256. *)
Definition is_linebreak (c : ascii) : bool :=
  match N_of_ascii c with
  | 10 | 11 | 12 | 13 | 28 | 29 | 30 | 133 => true
  | _ => false
  end%N.

Definition starts_with_LF (s : text) : bool :=
  match s with
  | c :: _ => bool_decide (c = LF)
  | [] => false
  end.

(** Does the character [c], followed by [rest], end a line? A carriage
    return directly before a line feed does not: the pair is one boundary. *)
Definition ends_line (c : ascii) (rest : text) : bool :=
  is_linebreak c && negb (bool_decide (c = CR) && starts_with_LF rest).

(** [s.splitlines(True)]: the lines of [s], line boundaries kept. *)
Fixpoint splitlines (s : text) : list text :=
  match s with
  | [] => []
  | c :: rest =>
      if ends_line c rest then [c] :: splitlines rest
      else match splitlines rest with
           | [] => [[c]]
           | line :: lines => (c :: line) :: lines
           end
  end.

(** Universal newline translation of text-mode reading ([newline=None]):
    a carriage return, alone or before a line feed, is read as one line
    feed. *)
Fixpoint universal_newlines (raw : text) : text :=
  match raw with
  | [] => []
  | c :: rest =>
      if bool_decide (c = CR)
      then (if starts_with_LF rest then universal_newlines rest
            else LF :: universal_newlines rest)
      else c :: universal_newlines rest
  end.

Definition digit (d : N) : ascii := ascii_of_N (48 + d).

Fixpoint str_digits (fuel : nat) (n : N) (acc : text) : text :=
  match fuel with
  | O => acc
  | S fuel' =>
      let acc' := digit (n mod 10) :: acc in
      if (n / 10 =? 0)%N then acc' else str_digits fuel' (n / 10)%N acc'
  end.

(** [str(n)] for a non-negative integer: its decimal digits. A number has
    no more decimal digits than binary ones, which bounds the recursion. *)
Definition str (n : N) : text := str_digits (S (N.to_nat (N.log2 n))) n [].

(** [s.rjust(width)]: padded with spaces on the left, never truncated. *)
Definition rjust (width : nat) (s : text) : text :=
  replicate (width - length s) SPACE ++ s.

(** [l[-k:]] for [k >= 0]. Python reads [-0] as [0], so that [l[-0:]] is
    the whole list. *)
Definition slice_last {A} (k : nat) (l : list A) : list A :=
  match k with
  | O => l
  | S _ => drop (length l - k) l
  end.

(** [sorted(l, key=key)]: a stable sort, here by insertion. *)
Fixpoint insert_by {A} (key : A → Z) (x : A) (l : list A) : list A :=
  match l with
  | [] => [x]
  | y :: l' => if (key x <=? key y)%Z then x :: y :: l'
               else y :: insert_by key x l'
  end.

Fixpoint sorted {A} (key : A → Z) (l : list A) : list A :=
  match l with
  | [] => []
  | x :: l' => insert_by key x (sorted key l')
  end.

(** [x or y] on optional integers: [None] and [0] are falsy. *)
Definition or_int (x y : option Z) : option Z :=
  match x with
  | Some v => if (v =? 0)%Z then y else Some v
  | None => y
  end.

End Py.

(** ** [pathlib] paths, POSIX flavour *)

Module PurePath.

(** A parsed path: the root (empty, one slash or two) and the components
    after it. *)
Record Path : Type := mkPath { root : string; parts : list string }.

#[global] Instance Path_eq_dec : EqDecision Path.
Proof. solve_decision. Defined.

Definition SLASH : ascii := "/"%char.
Definition DOT : ascii := "."%char.

(** [s.split("/")] *)
Fixpoint split_slash (s : string) : list string :=
  match s with
  | EmptyString => [EmptyString]
  | String c rest =>
      if bool_decide (c = SLASH) then EmptyString :: split_slash rest
      else match split_slash rest with
           | [] => [String c EmptyString]
           | x :: xs => String c x :: xs
           end
  end.

(** [s.lstrip("/")] *)
Fixpoint lstrip_slash (s : string) : string :=
  match s with
  | String c rest => if bool_decide (c = SLASH) then lstrip_slash rest else s
  | EmptyString => s
  end.

(** [_PosixFlavour.splitroot]: exactly two leading slashes are kept as a
    root of their own, any other number collapses to one. *)
Definition splitroot (part : string) : string * string :=
  match part with
  | String c _ =>
      if bool_decide (c = SLASH) then
        let stripped := lstrip_slash part in
        if (String.length part - String.length stripped =? 2)%nat
        then ("//", stripped) else ("/", stripped)
      else ("", part)
  | EmptyString => ("", part)
  end.

Definition keeps_component (x : string) : bool :=
  negb (bool_decide (x = "")) && negb (bool_decide (x = ".")).

(** [Path(s)]: empty components and [.] components are dropped. *)
Definition parse (s : string) : Path :=
  let '(r, rel) := splitroot s in
  mkPath r (List.filter keeps_component (split_slash rel)).

(** [p.name]: the final component, empty when there is none. *)
Definition name (p : Path) : string := List.last (parts p) "".

(** [p.parent]: the path without its final component; a path without
    components is its own parent. *)
Definition parent (p : Path) : Path :=
  match parts p with
  | [] => p
  | _ :: _ => mkPath (root p) (removelast (parts p))
  end.

(** [s.rfind(".")], as the index of the last dot if there is one. *)
Fixpoint rfind_dot (s : string) : option nat :=
  match s with
  | EmptyString => None
  | String c rest =>
      match rfind_dot rest with
      | Some i => Some (S i)
      | None => if bool_decide (c = DOT) then Some O else None
      end
  end.

(** [s[i:]] *)
Fixpoint string_drop (i : nat) (s : string) : string :=
  match i, s with
  | S i', String _ rest => string_drop i' rest
  | _, _ => s
  end.

(** [p.suffix]: the final component from its last dot on, provided that
    dot is neither the first nor the last character of the component. *)
Definition suffix (p : Path) : string :=
  let n := name p in
  match rfind_dot n with
  | Some i => if bool_decide (0 < i ∧ i + 1 < String.length n)%nat
              then string_drop i n else ""
  | None => ""
  end.

(** [bool(p)]: [PurePath] defines neither [__bool__] nor [__len__], so
    every path object is truthy, the path of the empty string too. *)
Definition truthy (p : Path) : bool := true.

End PurePath.

(** ** The trace directory *)

Module FS.
Import Py.

(** A regular file: its modification time and its bytes. *)
Record file : Type := mkFile { mtime : Z; content : text }.

(** The codec of the locale, with which files are read and written in
    text mode. It is compatible with ASCII, as UTF-8 and ISO 8859-1 are:
    bytes of the ASCII range are the characters they stand for. What the
    codec makes of other bytes is an answer of the environment: the text
    they decode to, or the error it raises ([UnicodeDecodeError] for bytes
    that are no valid UTF-8). [encode_answer] gives the bytes of a text
    that the codec has decoded. Characters beyond code point 255 are
    outside the model. *)
Record codec : Type := mkCodec {
  decode_answer : text → outcome text;
  encode_answer : text → text
}.

(** What [read()] makes of the bytes of a file opened in text mode,
    before the translation of newlines. *)
Definition decode (k : codec) (raw : text) : outcome text :=
  if forallb is_ascii raw then Returned raw else decode_answer k raw.

(** The bytes that [write(s)] hands to a file opened in text mode. *)
Definition encode (k : codec) (s : text) : text :=
  if forallb is_ascii s then s else encode_answer k s.

(** [s.endswith(suf)] *)
Definition ends_with (suf s : string) : bool :=
  bool_decide (String.length suf ≤ String.length s)%nat &&
  bool_decide (PurePath.string_drop (String.length s - String.length suf) s = suf).

(** The names that the pattern ["*.trc"] matches. *)
Definition is_trc (name : string) : bool := ends_with ".trc" name.

(** [path.glob("*.trc")] over a directory of regular files. The order of
    enumeration is the operating system's; the model takes the order in
    which the map lists its entries. *)
Definition glob_trc (d : gmap string file) : list string :=
  List.filter is_trc (map_to_list d).*1.

(** [os.path.getmtime] of an entry of the directory. *)
Definition getmtime (d : gmap string file) (name : string) : Z :=
  match d !! name with
  | Some f => mtime f
  | None => 0%Z
  end.

End FS.

(** ** [cc_pcan_can.CCPCanCan] *)

Module CCPCanCan.
Import Py PurePath FS.

Inductive BusState : Type := ACTIVE | PASSIVE | ERROR.

(** An attribute of the object that an assignment may not have reached. *)
Inductive attr (A : Type) : Type :=
  | Unset
  | Assigned (a : A).
Arguments Unset {A}.
Arguments Assigned {A} a.

(** A [can.Message]. *)
Record Message : Type := mkMessage {
  arbitration_id : option Z;
  data : list Byte.byte;
  is_extended_id : bool;
  is_fd : bool;
  bitrate_switch : bool;
  timestamp : Q
}.

(** Opaque handles of the SDK. *)
Inductive Bus : Type := BusObject (id : nat).
Inductive PCANBasic : Type := PCANBasicObject (id : nat).

Inductive level : Type := DEBUG | INFO | WARNING | ERROR_ | EXCEPTION.

Record CCPCanCan : Type := mkCCPCanCan {
  interface : string;
  channel : string;
  state : BusState;
  trace_path : Path;
  trace_name : attr (option string);
  trace_size : Z;
  bitrate : Z;
  self_is_fd : bool;
  enable_brs : bool;
  timing : list Z;
  self_is_extended_id : bool;
  remote_id : option Z;
  can_filters : list (Z * Z);
  bus : option Bus;
  logging_activated : bool;
  raw_pcan_interface : option PCANBasic;
  timeout : Q;
  trc_count : nat
}.

(** What a method of the channel can read and change: the object, the
    trace directory, the log, and the frames handed to [bus.send]. [clock]
    is the time stamped on the files that are written, [encoding] the
    codec of the locale. *)
Record world : Type := mkWorld {
  self : CCPCanCan;
  disk : gmap string file;
  log : list (level * string);
  submitted : list Message;
  clock : Z;
  encoding : codec
}.

Definition set_self (f : CCPCanCan → CCPCanCan) : M world unit :=
  modify (λ w, mkWorld (f (self w)) (disk w) (log w) (submitted w) (clock w)
                 (encoding w)).

Definition set_disk (f : gmap string file → gmap string file) : M world unit :=
  modify (λ w, mkWorld (self w) (f (disk w)) (log w) (submitted w) (clock w)
                 (encoding w)).

Definition log_record (l : level) (message : string) : M world unit :=
  modify (λ w, mkWorld (self w) (disk w) (log w ++ [(l, message)])
                       (submitted w) (clock w) (encoding w)).

Definition submit (m : Message) : M world unit :=
  modify (λ w, mkWorld (self w) (disk w) (log w) (submitted w ++ [m]) (clock w)
                 (encoding w)).

Definition set_trace_path (p : Path) (o : CCPCanCan) : CCPCanCan :=
  mkCCPCanCan (interface o) (channel o) (state o) p (trace_name o)
    (trace_size o) (bitrate o) (self_is_fd o) (enable_brs o) (timing o)
    (self_is_extended_id o) (remote_id o) (can_filters o) (bus o)
    (logging_activated o) (raw_pcan_interface o) (timeout o) (trc_count o).

Definition set_trace_name (n : option string) (o : CCPCanCan) : CCPCanCan :=
  mkCCPCanCan (interface o) (channel o) (state o) (trace_path o) (Assigned n)
    (trace_size o) (bitrate o) (self_is_fd o) (enable_brs o) (timing o)
    (self_is_extended_id o) (remote_id o) (can_filters o) (bus o)
    (logging_activated o) (raw_pcan_interface o) (timeout o) (trc_count o).

Definition set_trace_size (z : Z) (o : CCPCanCan) : CCPCanCan :=
  mkCCPCanCan (interface o) (channel o) (state o) (trace_path o) (trace_name o)
    z (bitrate o) (self_is_fd o) (enable_brs o) (timing o)
    (self_is_extended_id o) (remote_id o) (can_filters o) (bus o)
    (logging_activated o) (raw_pcan_interface o) (timeout o) (trc_count o).

Definition set_bus (b : option Bus) (o : CCPCanCan) : CCPCanCan :=
  mkCCPCanCan (interface o) (channel o) (state o) (trace_path o) (trace_name o)
    (trace_size o) (bitrate o) (self_is_fd o) (enable_brs o) (timing o)
    (self_is_extended_id o) (remote_id o) (can_filters o) b
    (logging_activated o) (raw_pcan_interface o) (timeout o) (trc_count o).

Definition set_raw_pcan_interface (h : option PCANBasic) (o : CCPCanCan)
    : CCPCanCan :=
  mkCCPCanCan (interface o) (channel o) (state o) (trace_path o) (trace_name o)
    (trace_size o) (bitrate o) (self_is_fd o) (enable_brs o) (timing o)
    (self_is_extended_id o) (remote_id o) (can_filters o) (bus o)
    (logging_activated o) h (timeout o) (trc_count o).

Local Open Scope py_scope.

(** *** Construction *)

(** [c.upper()] for a character below code point 256: the letters [a] to
    [z] and the lower-case letters of ISO 8859-1 give their capitals, and
    the sharp s gives [SS]. The capitals of the micro sign and of the y
    with diaeresis lie beyond code point 255; these two characters are
    kept. Neither they nor their capitals are ASCII characters, so that
    the comparison of an upper-cased string with an ASCII word, the one
    use the connectors make of [upper], comes out as in Python. *)
Definition upper_char (c : ascii) : string :=
  let n := N_of_ascii c in
  if ((97 <=? n) && (n <=? 122))%N then String (ascii_of_N (n - 32)) ""
  else if (n =? 223)%N then "SS"
  else if ((224 <=? n) && (n <=? 254) && negb (n =? 247))%N
       then String (ascii_of_N (n - 32)) ""
  else String c "".

(** [s.upper()] *)
Fixpoint upper (s : string) : string :=
  match s with
  | EmptyString => EmptyString
  | String c rest => upper_char c +:+ upper rest
  end.

(** [can.bus.BusState[name]] *)
Definition BusState_item (name : string) : outcome BusState :=
  if bool_decide (name = "ACTIVE") then Returned ACTIVE
  else if bool_decide (name = "PASSIVE") then Returned PASSIVE
  else if bool_decide (name = "ERROR") then Returned ERROR
  else Raised KeyError.

(** [CCPCanCan._initialize_trace]; [cwd] is the answer of [Path.cwd()]. *)
Definition _initialize_trace (cwd : Path) : M world unit :=
  w <- get ;;
  let p := trace_path (self w) in
  (if bool_decide (suffix p = ".trc") then
     set_self (set_trace_name (Some (name p))) ;;
     set_self (set_trace_path (parent p))
   else if truthy p && bool_decide (suffix p = "") then
     set_self (set_trace_name None)
   else if negb (truthy p) then
     set_self (set_trace_path cwd) ;;
     set_self (set_trace_name None)
   else if negb (bool_decide (suffix p ∈ [".trc"; ""])) then
     raise (ValueError ("Trace name " +:+ name p +:+
                        " is incorrect, it should be a trc file"))
   else ret tt) ;;
  w <- get ;;
  if negb (bool_decide (0 < trace_size (self w) ∧ trace_size (self w) ≤ 100)%Z)
  then
    set_self (set_trace_size 10) ;;
    log_record WARNING "Make sure trace size is between 1 and 100 Mb. Setting trace size to default value"
  else ret tt.

(** The arguments of the constructor that the object keeps. *)
Record arguments : Type := mkArguments {
  arg_interface : string;
  arg_channel : string;
  arg_state : string;
  arg_trace_path : string;
  arg_trace_size : Z;
  arg_bitrate : Z;
  arg_is_fd : bool;
  arg_enable_brs : bool;
  arg_timing : list Z;
  arg_is_extended_id : bool;
  arg_remote_id : option Z;
  arg_can_filters : list (Z * Z);
  arg_logging_activated : bool
}.

(** The defaults of the signature of [__init__]. *)
Definition default_arguments : arguments :=
  mkArguments "pcan" "PCAN_USBBUS1" "ACTIVE" "" 10 500000 true false
    [80; 2; 63; 16; 16; 4; 7; 2; 2]%Z false None [] true.

(** [CCPCanCan.__init__]. The process-wide logging filter that
    [bus_error_warning_filter] installs is outside the model. *)
Definition __init__ (a : arguments) (cwd : Path) : M world unit :=
  st <- replay (BusState_item (upper (arg_state a))) ;;
  set_self (λ _,
    mkCCPCanCan (arg_interface a) (arg_channel a) st (parse (arg_trace_path a))
      Unset (arg_trace_size a) (arg_bitrate a) (arg_is_fd a) (arg_enable_brs a)
      (arg_timing a) (arg_is_extended_id a) (arg_remote_id a)
      (arg_can_filters a) None (arg_logging_activated a) None
      (1 # 1000000)%Q 0) ;;
  _initialize_trace cwd ;;
  if arg_enable_brs a && negb (arg_is_fd a) then
    log_record WARNING "Bitrate switch will have no effect because option is_fd is set to false."
  else ret tt.

(** *** Close *)

(** [PCANBasic.PCAN_ERROR_OK] *)
Definition PCAN_ERROR_OK : Z := 0.

(** The answers of the SDK to the calls that [_cc_close] makes. *)
Record close_answers : Type := mkCloseAnswers {
  shutdown_answer : outcome unit;
  Uninitialize_answer : outcome Z;
  GetErrorText_answer : outcome (Z * string)
}.

(** A method call on an attribute that may hold [None]: on [None] the
    attribute lookup raises [AttributeError], else the SDK answers. *)
Definition call_on {H A} (target : option H) (answer : outcome A)
    : M world A :=
  match target with
  | None => raise AttributeError
  | Some _ => replay answer
  end.

(** [CCPCanCan._cc_close] *)
Definition _cc_close (sdk : close_answers) : M world unit :=
  w <- get ;;
  call_on (bus (self w)) (shutdown_answer sdk) ;;
  set_self (set_bus None) ;;
  if logging_activated (self w) then
    try_finally
      (try_except_else
         (w <- get ;;
          call_on (raw_pcan_interface (self w)) (Uninitialize_answer sdk))
         is_Exception
         (λ e, log_record EXCEPTION "Error in call to Uninitialize")
         (λ result,
            if negb (bool_decide (result = PCAN_ERROR_OK)) then
              w <- get ;;
              answer <- call_on (raw_pcan_interface (self w))
                                (GetErrorText_answer sdk) ;;
              log_record ERROR_ (snd answer)
            else ret tt))
      (set_self (set_raw_pcan_interface None))
  else ret tt.

(** *** Send and receive *)

(** [str(can_msg)], which the f-string of the log call evaluates:
    python-can prints the arbitration identifier in hexadecimal, and that
    raises [TypeError] when the identifier is [None]. *)
Definition format_message (m : Message) : outcome unit :=
  match arbitration_id m with
  | None => Raised TypeError
  | Some _ => Returned tt
  end.

(** [CCPCanCan._cc_send]; [send_answer] is the answer of [bus.send]. *)
Definition _cc_send (msg : list Byte.byte) (remote_id_arg : option Z)
    (send_answer : outcome unit) : M world unit :=
  w <- get ;;
  let remote_id := or_int remote_id_arg (remote_id (self w)) in
  let can_msg :=
    mkMessage remote_id msg (self_is_extended_id (self w))
      (self_is_fd (self w)) (enable_brs (self w)) 0%Q in
  match bus (self w) with
  | None => raise AttributeError
  | Some _ => submit can_msg ;; replay send_answer
  end ;;
  replay (format_message can_msg) ;;
  log_record DEBUG "sent CAN Message".

(** The values that the result of [_cc_receive] may hold. *)
Inductive value : Type :=
  | VNone
  | VBytes (b : list Byte.byte)
  | VInt (z : Z)
  | VFloat (q : Q).

Definition value_of_id (i : option Z) : value :=
  match i with
  | Some z => VInt z
  | None => VNone
  end.

(** [timeout or self.timeout] *)
Definition or_float (x y : Q) : Q := if Qeq_bool x 0 then y else x.

(** [CCPCanCan._cc_receive]; [recv] is the answer of [bus.recv] to a
    timeout. *)
Definition _cc_receive (timeout_arg : Q) (recv : Q → outcome (option Message))
    : M world (gmap string value) :=
  try_except
    (w <- get ;;
     received_msg <- call_on (bus (self w))
                       (recv (or_float timeout_arg (timeout (self w)))) ;;
     match received_msg with
     | Some m =>
         let frame_id := arbitration_id m in
         let payload := data m in
         let timestamp := timestamp m in
         log_record DEBUG "received CAN Message" ;;
         ret (<["remote_id" := value_of_id frame_id]>
                {["msg" := VBytes payload]})
     | None => ret {["msg" := VNone]}
     end)
    is_Exception
    (λ e, if is_CanError e then
            log_record DEBUG "encountered can error" ;;
            ret {["msg" := VNone]}
          else
            log_record EXCEPTION "encountered error while receiving message" ;;
            ret {["msg" := VNone]}).

(** *** The trace merger *)

Definition first_message_line : nat := 33.
Definition message_nb_index : nat := 7.

(** The assignment in the body of the loop of [_fix_message_numbers]. *)
Definition fix_line (first line_number : nat) (line : text) : text :=
  let message_number := str (N.of_nat ((line_number + 1) - first)) in
  rjust message_nb_index message_number ++ drop message_nb_index line.

(** The loop of [_fix_message_numbers] over
    [range(first, len(merged_data_lines))]. *)
Definition renumber (first : nat) (merged_data_lines : list text)
    : list text :=
  foldl (λ lines line_number,
           match lines !! line_number with
           | Some line => <[line_number := fix_line first line_number line]> lines
           | None => lines
           end)
        merged_data_lines
        (seq first (length merged_data_lines - first)).

(** [open(name, "r")] then [read().splitlines(True)]: the bytes are
    decoded, then the newlines translated. *)
Definition read_lines (name : string) : M world (list text) :=
  w <- get ;;
  match disk w !! name with
  | None => raise FileNotFoundError
  | Some f =>
      data <- replay (decode (encoding w) (content f)) ;;
      ret (splitlines (universal_newlines data))
  end.

(** The bytes that [writelines(lines)] hands to a file opened in text
    mode: each line is encoded by a [write] of its own. *)
Definition encode_lines (k : codec) (lines : list text) : text :=
  concat (map (encode k) lines).

(** [open(name, "a")] then [writelines(lines)]: the file is created when
    it is missing. *)
Definition append_lines (name : string) (lines : list text) : M world unit :=
  w <- get ;;
  let written := encode_lines (encoding w) lines in
  match disk w !! name with
  | None => set_disk (<[name := mkFile (clock w) written]>)
  | Some f =>
      if bool_decide (written = []) then ret tt
      else set_disk (<[name := mkFile (clock w) (content f ++ written)]>)
  end.

(** [os.remove(name)] *)
Definition remove (name : string) : M world unit :=
  w <- get ;;
  match disk w !! name with
  | None => raise FileNotFoundError
  | Some _ => set_disk (delete name)
  end.

(** [Path.rename]: the destination, if there is one, is replaced. *)
Definition rename (src dst : string) : M world unit :=
  w <- get ;;
  match disk w !! src with
  | None => raise FileNotFoundError
  | Some f => set_disk (λ d, <[dst := f]> (delete src d))
  end.

(** [CCPCanCan._fix_message_numbers]: the file is opened for update, read
    whole in text mode, and the new lines are written from its start; the
    file is not truncated, so bytes beyond the new text stay. *)
Definition _fix_message_numbers (merged_trace : string) (first : nat)
    : M world unit :=
  w <- get ;;
  match disk w !! merged_trace with
  | None => raise FileNotFoundError
  | Some f =>
      data <- replay (decode (encoding w) (content f)) ;;
      let merged_data_lines := splitlines (universal_newlines data) in
      let written :=
        encode_lines (encoding w) (renumber first merged_data_lines) in
      if bool_decide (written = []) then ret tt
      else set_disk (<[merged_trace :=
             mkFile (clock w) (written ++ drop (length written) (content f))]>)
  end.

(** [CCPCanCan._merge_trc] *)
Definition _merge_trc : M world unit :=
  w <- get ;;
  let list_of_traces :=
    slice_last (trc_count (self w))
      (sorted (getmtime (disk w)) (glob_trc (disk w))) in
  try_except
    (result_trace <-
       match trace_name (self w) with
       | Unset => raise AttributeError
       | Assigned None =>
           match list_of_traces with
           | [] => raise IndexError
           | first :: _ => ret first
           end
       | Assigned (Some n) =>
           match list_of_traces with
           | [] => raise IndexError
           | first :: _ => rename first n ;; ret n
           end
       end ;;
     let list_of_traces := tail list_of_traces in
     for_each list_of_traces (λ file,
       data <- read_lines file ;;
       append_lines result_trace (drop first_message_line data) ;;
       remove file) ;;
     _fix_message_numbers result_trace first_message_line)
    is_IndexError
    (λ _, log_record WARNING "No trace to merge").

(** [CCPCanCan.__del__] *)
Definition __del__ : M world unit :=
  w <- get ;;
  if logging_activated (self w) then _merge_trc else ret tt.

End CCPCanCan.

(** ** [cc_vector_can.CCVectorCan] *)

Module CCVectorCan.
Import Py.

(** A message of the test entity protocol, as parsed from a packet. *)
Inductive KisoMessage : Type := Parsed (packet : list Byte.byte).

Record CCVectorCan : Type := mkCCVectorCan {
  bustype : string;
  channel : Z;
  bitrate : Z;
  data_bitrate : Z;
  is_extended_id : bool;
  fd : bool;
  remote_id : option Z;
  bus : option CCPCanCan.Bus
}.

Record world : Type := mkWorld {
  self : CCVectorCan;
  log : list (CCPCanCan.level * string);
  submitted : list CCPCanCan.Message
}.

Definition log_record (l : CCPCanCan.level) (message : string) : M world unit :=
  modify (λ w, mkWorld (self w) (log w ++ [(l, message)]) (submitted w)).

Definition submit (m : CCPCanCan.Message) : M world unit :=
  modify (λ w, mkWorld (self w) (log w) (submitted w ++ [m])).

Local Open Scope py_scope.

(** [CCVectorCan._cc_send]; [serialize_answer] is the answer of
    [msg.serialize()] and [send_answer] that of [bus.send]. *)
Definition _cc_send (msg : list Byte.byte) (remote_id_arg : option Z)
    (raw : bool) (serialize_answer : outcome (list Byte.byte))
    (send_answer : outcome unit) : M world unit :=
  w <- get ;;
  let remote_id :=
    match remote_id_arg with
    | None => remote_id (self w)
    | Some _ => remote_id_arg
    end in
  _data <- (if negb raw then replay serialize_answer else ret msg) ;;
  let can_msg :=
    CCPCanCan.mkMessage remote_id _data (is_extended_id (self w))
      (fd (self w)) false 0%Q in
  match bus (self w) with
  | None => raise AttributeError
  | Some _ => submit can_msg ;; replay send_answer
  end ;;
  replay (CCPCanCan.format_message can_msg) ;;
  log_record CCPCanCan.DEBUG "sent CAN Message".

(** The payload that [_cc_receive] hands back. *)
Inductive payload : Type :=
  | Bytes (b : list Byte.byte)
  | Message (m : KisoMessage).

(** [CCVectorCan._cc_receive]; [parse_packet] is the answer of
    [Message.parse_packet]. *)
Definition _cc_receive (timeout : Q) (raw : bool)
    (recv : Q → outcome (option CCPCanCan.Message))
    (parse_packet : list Byte.byte → outcome KisoMessage)
    : M world (option payload * option Z) :=
  try_except
    (w <- get ;;
     received_msg <- match bus (self w) with
                     | None => raise AttributeError
                     | Some _ => replay (recv timeout)
                     end ;;
     match received_msg with
     | Some m =>
         let frame_id := CCPCanCan.arbitration_id m in
         payload <- (if negb raw
                     then m' <- replay (parse_packet (CCPCanCan.data m)) ;;
                          ret (Message m')
                     else ret (Bytes (CCPCanCan.data m))) ;;
         log_record CCPCanCan.DEBUG "received CAN Message" ;;
         ret (Some payload, frame_id)
     | None => ret (None, None)
     end)
    (λ _, true)
    (λ _, log_record CCPCanCan.EXCEPTION
            "encountered error while receiving message" ;;
          ret (None, None)).

End CCVectorCan.

(** ** [cc_pcan_can]: the log filter, open and the configuration of the trace *)

Module PcanOpen.
Import Py PurePath FS CCPCanCan.
Local Open Scope py_scope.

(** [PcanFilter.filter], on the message of the record. *)
Definition PcanFilter_filter (message : string) : bool :=
  negb (String.prefix "Bus error: an error counter" message).

(** The names of the module [PCANBasic] that the configuration uses. *)
Inductive constant : Type :=
  | PCAN_TRACE_LOCATION
  | PCAN_TRACE_STATUS
  | PCAN_TRACE_SIZE
  | PCAN_TRACE_CONFIGURE
  | TRACE_FILE_SEGMENTED
  | TRACE_FILE_DATE
  | TRACE_FILE_TIME
  | TRACE_FILE_OVERWRITE
  | PCAN_PARAMETER_ON.

#[global] Instance constant_eq_dec : EqDecision constant.
Proof. solve_decision. Defined.

(** The third argument of [SetValue]: a constant, [c1 | c2], the bytes of
    a path, or an integer. *)
Inductive buffer : Type :=
  | Constant (c : constant)
  | Or (c1 c2 : constant)
  | PathBytes (p : Path)
  | Integer (z : Z).

(** A call [raw_pcan_interface.SetValue(channel, parameter, buffer)]. *)
Record SetValue_call : Type := mkCall {
  call_channel : Z;
  call_parameter : constant;
  call_buffer : buffer
}.

(** The world of the channel, and the calls of [SetValue] made so far. *)
Record session : Type := mkSession {
  ambient : world;
  SetValue_calls : list SetValue_call
}.

(** The answers of the SDK, of the file system and of [sys.platform] to
    what [_cc_open] asks. *)
Record open_answers : Type := mkOpenAnswers {
  answer_Bus : outcome Bus;
  answer_PCANBasic : outcome PCANBasic;
  answer_getattr : string → outcome Z;
  answer_exists : bool;
  answer_mkdir : outcome unit;
  answer_darwin : bool;
  answer_SetValue : constant → outcome Z;
  answer_GetErrorText : Z → outcome (Z * string)
}.

(** A method of the channel, run in a session. *)
Definition in_world {A} (m : M world A) : M session A :=
  λ s, match m (ambient s) with
       | (o, w') => (o, mkSession w' (SetValue_calls s))
       end.

Definition record_call (c : SetValue_call) : M session unit :=
  modify (λ s, mkSession (ambient s) (SetValue_calls s ++ [c])).

Definition set_trc_count (n : nat) (o : CCPCanCan.CCPCanCan)
    : CCPCanCan.CCPCanCan :=
  mkCCPCanCan (interface o) (channel o) (state o) (trace_path o) (trace_name o)
    (trace_size o) (bitrate o) (self_is_fd o) (enable_brs o) (timing o)
    (self_is_extended_id o) (remote_id o) (can_filters o) (bus o)
    (logging_activated o) (raw_pcan_interface o) (timeout o) n.

(** [isinstance(e, RuntimeError)] *)
Definition is_RuntimeError (e : exception) : bool :=
  match e with
  | RuntimeError => true
  | _ => false
  end.

(** [isinstance(e, OSError)]: [FileNotFoundError] derives from [OSError]. *)
Definition is_OSError (e : exception) : bool :=
  match e with
  | OSError | FileNotFoundError => true
  | _ => false
  end.

(** [CCPCanCan._pcan_set_value] *)
Definition _pcan_set_value (sdk : open_answers) (channel : Z)
    (parameter : constant) (buf : buffer) : M session unit :=
  try_except_else
    (s <- get ;;
     match raw_pcan_interface (self (ambient s)) with
     | None => raise AttributeError
     | Some _ =>
         record_call (mkCall channel parameter buf) ;;
         replay (answer_SetValue sdk parameter)
     end)
    is_Exception
    (λ e, in_world (log_record ERROR_ "Exception in call to SetValue") ;;
          raise RuntimeError)
    (λ result,
       if negb (bool_decide (result = PCAN_ERROR_OK)) then
         s <- get ;;
         answer <- in_world (call_on (raw_pcan_interface (self (ambient s)))
                               (answer_GetErrorText sdk result)) ;;
         in_world (log_record ERROR_ (snd answer)) ;;
         raise RuntimeError
       else ret tt).

(** [self.trace_path is None]: the attribute holds a [Path] from the
    construction on. *)
Definition path_is_None (p : Path) : bool := false.

(** [CCPCanCan._pcan_configure_trace] *)
Definition _pcan_configure_trace (sdk : open_answers) : M session unit :=
  s <- get ;;
  let o := self (ambient s) in
  pcan_channel <- replay (answer_getattr sdk (channel o)) ;;
  pcan_path_argument <-
    (if path_is_None (trace_path o) then
       (in_world (log_record WARNING
          "No trace path specified, an existing trace will be overwritten.") ;;
        ret (Constant TRACE_FILE_OVERWRITE))
     else ret (Or TRACE_FILE_DATE TRACE_FILE_TIME)) ;;
  try_except
    ((if negb (path_is_None (trace_path o)) then
        ((if negb (answer_exists sdk) then
            (replay (answer_mkdir sdk) ;;
             in_world (log_record INFO "Path created"))
          else ret tt) ;;
         _pcan_set_value sdk pcan_channel PCAN_TRACE_LOCATION
           (PathBytes (trace_path o)) ;;
         in_world (log_record INFO "Tracefile path in PCAN device configured"))
      else ret tt) ;;
     (if negb (answer_darwin sdk) then
        (in_world (log_record INFO "Segmented option of trace file activated.") ;;
         _pcan_set_value sdk pcan_channel TRACE_FILE_SEGMENTED
           (Constant PCAN_PARAMETER_ON) ;;
         if negb (bool_decide (trace_size o = 10%Z)) then
           (in_world (log_record INFO "Trace size set") ;;
            _pcan_set_value sdk pcan_channel PCAN_TRACE_SIZE
              (Integer (trace_size o)))
         else ret tt)
      else in_world (log_record WARNING
                       "TRACE_FILE_SEGMENTED deactivated for macos!")) ;;
     _pcan_set_value sdk pcan_channel PCAN_TRACE_CONFIGURE pcan_path_argument ;;
     in_world (log_record INFO "Tracefile configured") ;;
     _pcan_set_value sdk pcan_channel PCAN_TRACE_STATUS
       (Constant PCAN_PARAMETER_ON) ;;
     in_world (log_record INFO "Trace activated") ;;
     in_world (set_self (λ o, set_trc_count (trc_count o + 1) o)))
    (λ e, is_RuntimeError e || is_OSError e)
    (λ e, if is_RuntimeError e then
            in_world (log_record ERROR_ "Logging not activated")
          else
            (in_world (log_record ERROR_ "Can not create log folder for PCAN logs") ;;
             in_world (log_record ERROR_ "Logging not activated"))).

(** [CCPCanCan._cc_open] *)
Definition _cc_open (sdk : open_answers) : M session unit :=
  b <- replay (answer_Bus sdk) ;;
  in_world (set_self (set_bus (Some b))) ;;
  s <- get ;;
  if logging_activated (self (ambient s)) &&
     match raw_pcan_interface (self (ambient s)) with
     | None => true
     | Some _ => false
     end
  then
    (h <- replay (answer_PCANBasic sdk) ;;
     in_world (set_self (set_raw_pcan_interface (Some h))) ;;
     _pcan_configure_trace sdk)
  else ret tt.

End PcanOpen.

(** ** [cc_vector_can]: construction, open, close and the detection of the box *)

Module VectorSetup.
Import Py.

(** What the new code raises besides the classes of [exception]. *)
Inductive raised : Type :=
  | ConnectionRefusedError (message : string)
  | Propagated (e : exception).

Inductive result (A : Type) : Type :=
  | Done (a : A)
  | Failed (r : raised).
Arguments Done {A} a.
Arguments Failed {A} r.

(** The smallest member of a set of integers: [min(s)] for a set that is
    not empty. *)
Definition set_min (s : gset Z) : option Z :=
  match elements s with
  | [] => None
  | x :: xs => Some (foldr Z.min x xs)
  end.

(** The set that the loop of [detect_serial_number] fills. *)
Definition collect_serial_numbers (channel_configs : list Z) : gset Z :=
  foldl (λ serial_numbers serial_number,
           if negb (bool_decide (serial_number = 0%Z))
           then serial_numbers ∪ {[serial_number]}
           else serial_numbers)
        ∅ channel_configs.

(** [detect_serial_number]; [configs] is the answer of
    [get_channel_configs()], as the serial numbers of the configurations.
    The log is passed through. *)
Definition detect_serial_number (configs : outcome (list Z))
    (log : list (CCPCanCan.level * string))
    : result Z * list (CCPCanCan.level * string) :=
  match configs with
  | Raised e => (Failed (Propagated e), log)
  | Returned channel_configs =>
      let serial_numbers := collect_serial_numbers channel_configs in
      match set_min serial_numbers with
      | Some serial_number =>
          (Done serial_number,
           log ++ [(CCPCanCan.INFO, "Using Vector Box with serial number")])
      | None =>
          (Failed (ConnectionRefusedError "No Vector box is currently available"),
           log)
      end
  end.

(** The argument [serial]: [None], an integer or a string. *)
Inductive serial_argument : Type :=
  | SerialNone
  | SerialInt (z : Z)
  | SerialStr (s : string).

(** [str(z)] for an integer. *)
Definition str_int (z : Z) : string :=
  match z with
  | Zneg p => String "-" (string_of_list_ascii (str (Npos p)))
  | _ => string_of_list_ascii (str (Z.to_N z))
  end.

(** [str(serial)] *)
Definition str_serial (serial : serial_argument) : string :=
  match serial with
  | SerialNone => "None"
  | SerialInt z => str_int z
  | SerialStr s => s
  end.

(** The arguments of [CCVectorCan.__init__]. *)
Record arguments : Type := mkArguments {
  arg_bustype : string;
  arg_poll_interval : Q;
  arg_rx_queue_size : Z;
  arg_serial : serial_argument;
  arg_channel : Z;
  arg_bitrate : Z;
  arg_data_bitrate : Z;
  arg_fd : bool;
  arg_app_name : option string;
  arg_can_filters : list (Z * Z);
  arg_is_extended_id : bool
}.

(** The object that [__init__] leaves: the attributes that send and
    receive use, and those that only [_cc_open] hands to the bus. *)
Record constructed : Type := mkConstructed {
  object : CCVectorCan.CCVectorCan;
  poll_interval : Q;
  rx_queue_size : Z;
  serial : option Z;
  app_name : option string;
  can_filters : list (Z * Z)
}.

(** [CCVectorCan.__init__]; [int_] is Python's [int] on strings and
    [configs] the answer of [get_channel_configs()]. *)
Definition __init__ (a : arguments) (int_ : string → outcome Z)
    (configs : outcome (list Z)) (log : list (CCPCanCan.level * string))
    : result constructed * list (CCPCanCan.level * string) :=
  let build (serial : option Z) : constructed :=
    mkConstructed
      (CCVectorCan.mkCCVectorCan (arg_bustype a) (arg_channel a) (arg_bitrate a)
         (arg_data_bitrate a) (arg_is_extended_id a) (arg_fd a) None None)
      (arg_poll_interval a) (arg_rx_queue_size a) serial (arg_app_name a)
      (arg_can_filters a) in
  if bool_decide (CCPCanCan.upper (str_serial (arg_serial a)) = "AUTO") then
    match detect_serial_number configs log with
    | (Done serial_number, log') => (Done (build (Some serial_number)), log')
    | (Failed r, log') => (Failed r, log')
    end
  else
    match arg_serial a with
    | SerialStr s =>
        match int_ s with
        | Returned z => (Done (build (Some z)), log)
        | Raised e => (Failed (Propagated e), log)
        end
    | SerialInt z => (Done (build (Some z)), log)
    | SerialNone => (Done (build None), log)
    end.

Definition set_bus (b : option CCPCanCan.Bus) (o : CCVectorCan.CCVectorCan)
    : CCVectorCan.CCVectorCan :=
  CCVectorCan.mkCCVectorCan (CCVectorCan.bustype o) (CCVectorCan.channel o)
    (CCVectorCan.bitrate o) (CCVectorCan.data_bitrate o)
    (CCVectorCan.is_extended_id o) (CCVectorCan.fd o)
    (CCVectorCan.remote_id o) b.

Definition set_self (f : CCVectorCan.CCVectorCan → CCVectorCan.CCVectorCan)
    : M CCVectorCan.world unit :=
  modify (λ w, CCVectorCan.mkWorld (f (CCVectorCan.self w))
                 (CCVectorCan.log w) (CCVectorCan.submitted w)).

Local Open Scope py_scope.

(** [CCVectorCan._cc_open]; [Bus_answer] is the answer of
    [can.interface.Bus(...)]. *)
Definition _cc_open (Bus_answer : outcome CCPCanCan.Bus)
    : M CCVectorCan.world unit :=
  CCVectorCan.log_record CCPCanCan.INFO "CAN bus channel open" ;;
  b <- replay Bus_answer ;;
  set_self (set_bus (Some b)).

(** [CCVectorCan._cc_close]; [shutdown_answer] is the answer of
    [bus.shutdown()]. *)
Definition _cc_close (shutdown_answer : outcome unit)
    : M CCVectorCan.world unit :=
  CCVectorCan.log_record CCPCanCan.INFO "CAN bus channel closed" ;;
  w <- get ;;
  match CCVectorCan.bus (CCVectorCan.self w) with
  | None => raise AttributeError
  | Some _ => replay shutdown_answer
  end ;;
  set_self (set_bus None).

End VectorSetup.

(** ** Notions used to state the properties *)

Module Notions.
Import Py PurePath FS CCPCanCan.
Local Open Scope py_scope.

(** The object as [__init__] has filled it in when it calls
    [_initialize_trace]. *)
Definition fresh (a : arguments) (st : BusState) : CCPCanCan.CCPCanCan :=
  mkCCPCanCan (arg_interface a) (arg_channel a) st (parse (arg_trace_path a))
    Unset (arg_trace_size a) (arg_bitrate a) (arg_is_fd a) (arg_enable_brs a)
    (arg_timing a) (arg_is_extended_id a) (arg_remote_id a)
    (arg_can_filters a) None (arg_logging_activated a) None
    (1 # 1000000)%Q 0.

(** The warning about the bit rate switch, which closes [__init__]. *)
Definition brs_warning (a : arguments) : M world unit :=
  if arg_enable_brs a && negb (arg_is_fd a) then
    log_record WARNING "Bitrate switch will have no effect because option is_fd is set to false."
  else ret tt.

(** What reaches the [try] suite of [CCPCanCan._cc_receive]: the attribute
    error of a missing bus, or the answer of [bus.recv] to the timeout
    that the method hands over. *)
Definition pcan_recv_result (timeout_arg : Q)
    (recv : Q → outcome (option Message)) (w : world)
    : outcome (option Message) :=
  match bus (self w) with
  | None => Raised AttributeError
  | Some _ => recv (or_float timeout_arg (timeout (self w)))
  end.

Definition vector_recv_result (timeout : Q)
    (recv : Q → outcome (option Message)) (w : CCVectorCan.world)
    : outcome (option Message) :=
  match CCVectorCan.bus (CCVectorCan.self w) with
  | None => Raised AttributeError
  | Some _ => recv timeout
  end.

(** The two results of the PCAN receive: a frame, and nothing. *)
Definition pcan_frame (m : Message) : gmap string value :=
  <["remote_id" := value_of_id (arbitration_id m)]> {["msg" := VBytes (data m)]}.

Definition pcan_nothing : gmap string value := {["msg" := VNone]}.

(** A world with one more log record. *)
Definition with_log (w : world) (l : level) (message : string) : world :=
  mkWorld (self w) (disk w) (log w ++ [(l, message)]) (submitted w) (clock w) (encoding w).

Definition vector_with_log (w : CCVectorCan.world) (l : level)
    (message : string) : CCVectorCan.world :=
  CCVectorCan.mkWorld (CCVectorCan.self w)
    (CCVectorCan.log w ++ [(l, message)]) (CCVectorCan.submitted w).

(** The world after a close that got past the bus shutdown: both handles
    are gone, and [records] were added to the log. *)
Definition closed (w : world) (records : list (level * string)) : world :=
  mkWorld (set_raw_pcan_interface None (set_bus None (self w))) (disk w)
    (log w ++ records) (submitted w) (clock w) (encoding w).

(** The world after a close with logging switched off. *)
Definition closed_without_logging (w : world) : world :=
  mkWorld (set_bus None (self w)) (disk w) (log w) (submitted w) (clock w) (encoding w).

(** What reaches the [try] suite of [_cc_close]. *)
Definition release_result (sdk : close_answers) (w : world) : outcome Z :=
  match raw_pcan_interface (self w) with
  | None => Raised AttributeError
  | Some _ => Uninitialize_answer sdk
  end.

(** The outcome of a send whose frame the bus was handed: the error of
    the bus, or else what the formatting of the frame for the log gives. *)
Definition then_format (send_answer : outcome unit) (m : Message)
    : outcome unit :=
  match send_answer with
  | Returned _ => format_message m
  | Raised e => Raised e
  end.

(** The frame that [CCPCanCan._cc_send] builds. *)
Definition pcan_frame_sent (o : CCPCanCan.CCPCanCan) (msg : list Byte.byte)
    (remote_id_arg : option Z) : Message :=
  mkMessage (or_int remote_id_arg (remote_id o)) msg (self_is_extended_id o)
    (self_is_fd o) (enable_brs o) 0%Q.

(** A line that ends in a line feed and holds no other line boundary. *)
Definition is_terminated (l : text) : bool :=
  match reverse l with
  | c :: r => bool_decide (c = LF) && forallb (λ c, negb (is_linebreak c)) r
  | [] => false
  end.

(** A text without line boundaries. *)
Definition plain (s : text) : Prop := Forall (λ c, is_linebreak c = false) s.

(** Reading a field of a trace line as a number: leading spaces are
    skipped, and decimal digits must follow, up to the end of the field. *)
Definition is_digit (c : ascii) : bool :=
  ((48 <=? N_of_ascii c) && (N_of_ascii c <=? 57))%N.

Definition digits_value (init : N) (s : text) : N :=
  foldl (λ a c, (10 * a + (N_of_ascii c - 48))%N) init s.

Fixpoint skip_spaces (s : text) : text :=
  match s with
  | c :: rest => if bool_decide (c = SPACE) then skip_spaces rest else s
  | [] => []
  end.

Definition read_number (field : text) : option N :=
  match skip_spaces field with
  | [] => None
  | digits => if forallb is_digit digits then Some (digits_value 0 digits)
              else None
  end.

(** One turn of the loop of [_fix_message_numbers]. *)
Definition fix_at (first : nat) (lines : list text) (line_number : nat)
    : list text :=
  match lines !! line_number with
  | Some line => <[line_number := fix_line first line_number line]> lines
  | None => lines
  end.

(** The lines that [_fix_message_numbers] hands to [writelines] when the
    file holds the ASCII text [c]. *)
Definition written_lines (c : text) : list text :=
  renumber first_message_line (splitlines (universal_newlines c)).

(** The traces that [_merge_trc] takes: its [list_of_traces]. *)
Definition eligible (w : world) : list string :=
  slice_last (trc_count (self w))
    (sorted (getmtime (disk w)) (glob_trc (disk w))).

(** The lines of an entry of the directory that holds ASCII text, as a
    text-mode read splits them. *)
Definition lines_of (d : gmap string file) (name : string) : list text :=
  match d !! name with
  | Some f => splitlines (universal_newlines (content f))
  | None => []
  end.

(** The lines of an entry after its header. *)
Definition body_of (d : gmap string file) (name : string) : list text :=
  drop first_message_line (lines_of d name).

(** A world with another directory. *)
Definition with_disk (w : world) (d : gmap string file) : world :=
  mkWorld (self w) d (log w) (submitted w) (clock w) (encoding w).

(** A list in ascending order of its keys. *)
Definition ascending {A} (key : A → Z) : list A → Prop :=
  StronglySorted (λ x y, (key x ≤ key y)%Z).

(** The loop of [_merge_trc] over the traces that follow the first. *)
Definition append_all (result_trace : string) (list_of_traces : list string)
    : M world unit :=
  for_each list_of_traces (λ file,
    data <- read_lines file ;;
    append_lines result_trace (drop first_message_line data) ;;
    remove file).

(** The file that the merge writes: the configured name, or else the
    first of the traces taken. *)
Definition result_name (tn : option string) (target : string) : string :=
  match tn with
  | Some n => n
  | None => target
  end.

(** A text of ASCII characters only: its bytes are its characters,
    whatever the codec of the locale. *)
Definition ascii_text (c : text) : Prop := forallb is_ascii c = true.

(** A text of ASCII characters made of terminated lines, at least 33 of
    them, whose lines after the header have seven characters before their
    line feed. *)
Definition well_formed (c : text) : bool :=
  forallb is_ascii c &&
  (forallb is_terminated (splitlines c) &&
   (first_message_line <=? length (splitlines c))%nat &&
   forallb (λ l, (message_nb_index + 1 <=? length l)%nat)
           (drop first_message_line (splitlines c))).

(** An entry of the directory that holds such a text. *)
Definition segment_ok (d : gmap string file) (name : string) : Prop :=
  ∃ f, d !! name = Some f ∧ well_formed (content f) = true.

(** An entry of the directory that holds ASCII text. *)
Definition ascii_entry (d : gmap string file) (name : string) : Prop :=
  ∃ f, d !! name = Some f ∧ ascii_text (content f).

(** *** Notions for open and the configuration of the trace *)

(** Does an attribute hold an object? *)
Definition is_Some_bool {A} (x : option A) : bool :=
  match x with
  | Some _ => true
  | None => false
  end.

(** A session with one more call, and with one more log record. *)
Definition called (s : PcanOpen.session) (c : PcanOpen.SetValue_call)
    : PcanOpen.session :=
  PcanOpen.mkSession (PcanOpen.ambient s) (PcanOpen.SetValue_calls s ++ [c]).

Definition noted (s : PcanOpen.session) (l : level) (message : string)
    : PcanOpen.session :=
  PcanOpen.mkSession (with_log (PcanOpen.ambient s) l message)
    (PcanOpen.SetValue_calls s).

(** Does the device answer the OK code when the parameter is set? *)
Definition accepted (sdk : PcanOpen.open_answers) (p : PcanOpen.constant)
    : bool :=
  match PcanOpen.answer_SetValue sdk p with
  | Returned result => bool_decide (result = PCAN_ERROR_OK)
  | Raised _ => false
  end.

(** The message that [_pcan_set_value] logs when the parameter is not
    accepted. *)
Definition refusal (sdk : PcanOpen.open_answers) (p : PcanOpen.constant)
    : string :=
  match PcanOpen.answer_SetValue sdk p with
  | Returned result =>
      match PcanOpen.answer_GetErrorText sdk result with
      | Returned answer => snd answer
      | Raised _ => ""
      end
  | Raised _ => "Exception in call to SetValue"
  end.

(** Answers of the SDK that fail only in the ways the code provides for:
    [SetValue] raises within [Exception], the error text is always found,
    and [mkdir] raises within [OSError]. *)
Definition provided_for (sdk : PcanOpen.open_answers) : Prop :=
  (∀ p e, PcanOpen.answer_SetValue sdk p = Raised e → is_Exception e = true) ∧
  (∀ result, returns (PcanOpen.answer_GetErrorText sdk result) = true) ∧
  (∀ e, PcanOpen.answer_mkdir sdk = Raised e → PcanOpen.is_OSError e = true).

(** The calls of [SetValue] of a configuration in which every call is
    accepted, in their order. *)
Definition planned_calls (o : CCPCanCan.CCPCanCan) (darwin : bool)
    (handle : Z) : list PcanOpen.SetValue_call :=
  [PcanOpen.mkCall handle PcanOpen.PCAN_TRACE_LOCATION
     (PcanOpen.PathBytes (trace_path o))] ++
  (if darwin then []
   else PcanOpen.mkCall handle PcanOpen.TRACE_FILE_SEGMENTED
          (PcanOpen.Constant PcanOpen.PCAN_PARAMETER_ON) ::
        (if bool_decide (trace_size o = 10%Z) then []
         else [PcanOpen.mkCall handle PcanOpen.PCAN_TRACE_SIZE
                 (PcanOpen.Integer (trace_size o))])) ++
  [PcanOpen.mkCall handle PcanOpen.PCAN_TRACE_CONFIGURE
     (PcanOpen.Or PcanOpen.TRACE_FILE_DATE PcanOpen.TRACE_FILE_TIME);
   PcanOpen.mkCall handle PcanOpen.PCAN_TRACE_STATUS
     (PcanOpen.Constant PcanOpen.PCAN_PARAMETER_ON)].

(** The calls made out of a list of calls: those up to the first one that
    is not accepted, that one included. *)
Fixpoint attempted (sdk : PcanOpen.open_answers)
    (calls : list PcanOpen.SetValue_call) : list PcanOpen.SetValue_call :=
  match calls with
  | [] => []
  | c :: rest =>
      c :: (if accepted sdk (PcanOpen.call_parameter c)
            then attempted sdk rest else [])
  end.

(** Is the folder of the trace there, or made? *)
Definition folder_ready (sdk : PcanOpen.open_answers) : bool :=
  PcanOpen.answer_exists sdk || returns (PcanOpen.answer_mkdir sdk).

(** Does a configuration of the trace go through? *)
Definition configures (sdk : PcanOpen.open_answers) (o : CCPCanCan.CCPCanCan)
    (handle : Z) : bool :=
  folder_ready sdk &&
  forallb (λ c, accepted sdk (PcanOpen.call_parameter c))
          (planned_calls o (PcanOpen.answer_darwin sdk) handle).

(** What the log tells of a configuration: one that went through ends
    with the record that the trace is activated and wrote no error
    record; any other ends with the error record that logging is not
    activated. *)
Definition reported (completed : bool) (records : list (level * string))
    : Prop :=
  if completed
  then last records = Some (INFO, "Trace activated") ∧
       Forall (λ r, fst r ≠ ERROR_) records
  else last records = Some (ERROR_, "Logging not activated").

(** A session whose channel object was replaced. *)
Definition with_object (s : PcanOpen.session) (o : CCPCanCan.CCPCanCan)
    : PcanOpen.session :=
  PcanOpen.mkSession
    (mkWorld o (disk (PcanOpen.ambient s)) (log (PcanOpen.ambient s))
       (submitted (PcanOpen.ambient s)) (clock (PcanOpen.ambient s))
       (encoding (PcanOpen.ambient s)))
    (PcanOpen.SetValue_calls s).

(** One open of the channel followed by one close, each with the answers
    that the SDK gives it. *)
Definition cycle (a : PcanOpen.open_answers * close_answers)
    : M PcanOpen.session unit :=
  PcanOpen._cc_open (fst a) ;; PcanOpen.in_world (_cc_close (snd a)).

(** Does the configuration of the trace go through in that cycle? *)
Definition completes (o : CCPCanCan.CCPCanCan)
    (a : PcanOpen.open_answers * close_answers) : bool :=
  match PcanOpen.answer_getattr (fst a) (channel o) with
  | Returned handle => configures (fst a) o handle
  | Raised _ => false
  end.

(** Answers with which an open and a close both return: the bus, the PCAN
    object and the channel constant are found, the bus shuts down, and
    what fails, fails in a way the code provides for. *)
Definition well_behaved (o : CCPCanCan.CCPCanCan)
    (a : PcanOpen.open_answers * close_answers) : Prop :=
  provided_for (fst a) ∧
  returns (PcanOpen.answer_Bus (fst a)) = true ∧
  returns (PcanOpen.answer_PCANBasic (fst a)) = true ∧
  returns (PcanOpen.answer_getattr (fst a) (channel o)) = true ∧
  shutdown_answer (snd a) = Returned tt ∧
  (∀ e, Uninitialize_answer (snd a) = Raised e → is_Exception e = true) ∧
  returns (GetErrorText_answer (snd a)) = true.

(** *** Notions for the Vector channel *)

(** Is the character one of the two? *)
Definition one_of (c x y : ascii) : bool :=
  bool_decide (c = x) || bool_decide (c = y).

(** The sixteen spellings of the flag [AUTO]. *)
Definition spells_auto (s : string) : bool :=
  match s with
  | String a (String u (String t (String o EmptyString))) =>
      one_of a "A" "a" && one_of u "U" "u" && one_of t "T" "t" &&
      one_of o "O" "o"
  | _ => false
  end.

(** The frame that [CCVectorCan._cc_send] builds out of the data. *)
Definition vector_frame_sent (o : CCVectorCan.CCVectorCan)
    (remote_id_arg : option Z) (data : list Byte.byte) : Message :=
  mkMessage
    (match remote_id_arg with
     | None => CCVectorCan.remote_id o
     | Some _ => remote_id_arg
     end)
    data (CCVectorCan.is_extended_id o) (CCVectorCan.fd o) false 0%Q.

End Notions.

(** ** Channels, answers of the SDK and directories to run the methods on *)

Module Examples.
Import Py PurePath FS CCPCanCan Notions.

(** The arguments of a constructor call with a trace file [logs/run.trc]
    and the state name in lower case. *)
Definition run_trc_arguments : arguments :=
  mkArguments "pcan" "PCAN_USBBUS1" "active" "logs/run.trc" 10 500000 true
    false [80; 2; 63; 16; 16; 4; 7; 2; 2]%Z false None [] true.

(** A codec that decodes no byte beyond the ASCII range, as UTF-8 does
    with a byte that is no part of a valid sequence. *)
Definition strict_codec : codec :=
  mkCodec (λ _, Raised UnicodeDecodeError) (λ s, s).

(** A world without files, log records or frames. *)
Definition blank_world : world :=
  mkWorld (fresh default_arguments ACTIVE) ∅ [] [] 0 strict_codec.

(** The arguments of a constructor call with a trace size of 101 MB. *)
Definition oversized_arguments : arguments :=
  mkArguments "pcan" "PCAN_USBBUS1" "ACTIVE" "" 101 500000 true false
    [80; 2; 63; 16; 16; 4; 7; 2; 2]%Z false None [] true.

(** A channel with a bus and a PCAN handle, as a successful open with
    logging leaves it, configured with the identifier 291. *)
Definition open_channel : CCPCanCan.CCPCanCan :=
  mkCCPCanCan "pcan" "PCAN_USBBUS1" ACTIVE (PurePath.parse "") (Assigned None)
    10 500000 true false [80; 2; 63; 16; 16; 4; 7; 2; 2]%Z false (Some 291%Z)
    [] (Some (BusObject 1)) true (Some (PCANBasicObject 1))
    (1 # 1000000)%Q 1.

Definition open_world : world :=
  mkWorld open_channel ∅ [] [] 0 strict_codec.

(** A Vector channel with a bus. *)
Definition open_vector_world : CCVectorCan.world :=
  CCVectorCan.mkWorld
    (CCVectorCan.mkCCVectorCan "vector" 3 500000 2000000 false true None
       (Some (BusObject 2)))
    [] [].

(** An SDK whose release of the PCAN handle answers another code than OK
    and whose lookup of the error text raises; one whose release raises
    outside the class [Exception]; and one whose shutdown of the bus
    raises. *)
Definition failing_error_text : close_answers :=
  mkCloseAnswers (Returned tt) (Returned 5%Z) (Raised OtherException).

Definition interrupted_release : close_answers :=
  mkCloseAnswers (Returned tt) (Raised KeyboardInterrupt)
    (Returned (0%Z, "An error occurred")).

Definition failing_shutdown : close_answers :=
  mkCloseAnswers (Raised CanError) (Returned 0%Z)
    (Returned (0%Z, "An error occurred")).

(** An SDK whose release of the PCAN handle raises. *)
Definition failing_teardown : close_answers :=
  mkCloseAnswers (Returned tt) (Raised RuntimeError)
    (Returned (0%Z, "An error occurred")).

(** A line of a trace in the format of the logger. *)
Definition sample_line : text :=
  list_ascii_of_string
    "      1      1059.900 DT     0300 Rx 7  00 00 00 00 04 00 00" ++ [LF].

(** A file of 34 such lines, and a world that holds it as [log.trc]. *)
Definition short_trace : text := concat (replicate 34 sample_line).

Definition short_trace_world : world :=
  mkWorld open_channel
    {["log.trc" := mkFile 5 short_trace]} [] [] 9 strict_codec.

(** A line of text with its line feed, and a header of 33 lines. *)
Definition line (s : string) : text := list_ascii_of_string s ++ [LF].

Definition header : list text := replicate 33 (line ";$FILEVERSION=2.0").

(** A trace: the header and the given body lines. *)
Definition segment (body : list text) : text := concat (header ++ body).

(** A channel at its teardown, with its trace name and its count of
    configured traces. *)
Definition channel_at_teardown (tn : option string) (count : nat)
    : CCPCanCan.CCPCanCan :=
  mkCCPCanCan "pcan" "PCAN_USBBUS1" ACTIVE (PurePath.parse "") (Assigned tn)
    10 500000 true false [80; 2; 63; 16; 16; 4; 7; 2; 2]%Z false None []
    None true None (1 # 1000000)%Q count.

(** The world at that teardown, with the given files in the trace
    directory. *)
Definition teardown (tn : option string) (count : nat)
    (files : list (string * file)) : world :=
  mkWorld (channel_at_teardown tn count) (list_to_map files) [] [] 100
    strict_codec.

(** Two traces of two messages each, and an older one. *)
Definition three_traces : list (string * file) :=
  [("a.trc", mkFile 1 (segment [line "      1       1.000 DT     0300 Rx 1  00";
                                line "      2       2.000 DT     0300 Rx 1  01"]));
   ("b.trc", mkFile 2 (segment [line "      1       3.000 DT     0300 Rx 1  02";
                                line "      2       4.000 DT     0300 Rx 1  03"]));
   ("old.trc", mkFile 0 (segment [line "      1       0.500 DT     0300 Rx 1  ff"]))].

(** A trace whose body holds an empty line, followed by a second trace. *)
Definition traces_with_empty_line : list (string * file) :=
  [("a.trc", mkFile 1 (segment [line "      1       1.000 DT     0300 Rx 1  00";
                                line ""]));
   ("b.trc", mkFile 2 (segment [line "      1       3.000 DT     0300 Rx 1  02"]))].

(** A trace whose last line has no line feed, followed by a second trace. *)
Definition traces_with_open_end : list (string * file) :=
  [("a.trc", mkFile 1 (segment [line "      1       1.000 DT     0300 Rx 1  00"]
                       ++ list_ascii_of_string
                            "      2       2.000 DT     0300 Rx 1  01"));
   ("b.trc", mkFile 2 (segment [line "      1       3.000 DT     0300 Rx 1  02"]))].

(** An SDK that answers every call of an open with success, for a device
    handle 81; and one whose device refuses [PCAN_TRACE_CONFIGURE]. *)
Definition willing_sdk : PcanOpen.open_answers :=
  PcanOpen.mkOpenAnswers (Returned (BusObject 7)) (Returned (PCANBasicObject 8))
    (λ _, Returned 81%Z) false (Returned tt) false (λ _, Returned 0%Z)
    (λ _, Returned (0%Z, "An error occurred")).

Definition refusing_sdk : PcanOpen.open_answers :=
  PcanOpen.mkOpenAnswers (Returned (BusObject 7)) (Returned (PCANBasicObject 8))
    (λ _, Returned 81%Z) false (Returned tt) false
    (λ p, if decide (p = PcanOpen.PCAN_TRACE_CONFIGURE)
          then Returned 5%Z else Returned 0%Z)
    (λ _, Returned (0%Z, "An error occurred")).

(** A session of the open channel that has made no call yet, and one of
    a closed channel that has counted no trace. *)
Definition open_session : PcanOpen.session :=
  PcanOpen.mkSession open_world [].

Definition fresh_session : PcanOpen.session :=
  PcanOpen.mkSession blank_world [].

(** The arguments of a constructor call with a trace file [logs/run.trc]
    and a trace size of 50 MB. *)
Definition sized_arguments : arguments :=
  mkArguments "pcan" "PCAN_USBBUS1" "ACTIVE" "logs/run.trc" 50 500000 true
    false [80; 2; 63; 16; 16; 4; 7; 2; 2]%Z false None [] true.

(** The arguments of a constructor call with a trace path that is no
    trace file. *)
Definition txt_arguments : arguments :=
  mkArguments "pcan" "PCAN_USBBUS1" "ACTIVE" "logs/run.txt" 10 500000 true
    false [80; 2; 63; 16; 16; 4; 7; 2; 2]%Z false None [] true.

(** An SDK whose teardown succeeds. *)
Definition quiet_teardown : close_answers :=
  mkCloseAnswers (Returned tt) (Returned 0%Z)
    (Returned (0%Z, "An error occurred")).

End Examples.

(** * Properties *)

(** ** Construction: the trace path and the trace size *)

Module ConstructionFacts.
Import Py PurePath FS CCPCanCan Notions Examples.
Local Open Scope py_scope.

(** Unfolds the monadic combinators so that a method runs on a state. *)
Ltac run :=
  cbv beta iota zeta delta
    [bind ret raise get modify replay try_except try_except_else try_finally
     set_self set_disk log_record submit call_on].

(** *** The suffix of a path *)

Lemma string_length_app (s t : string) :
  String.length (s +:+ t) = (String.length s + String.length t)%nat.
Proof.
  induction s as [| c s IH]; [done |].
  change (S (String.length (s +:+ t)) =
          S (String.length s + String.length t)). by rewrite IH.
Qed.

Lemma rfind_dot_trc (stem : string) :
  rfind_dot (stem +:+ ".trc") = Some (String.length stem).
Proof.
  induction stem as [| c stem IH]; [done |].
  change (match rfind_dot (stem +:+ ".trc") with
          | Some i => Some (S i)
          | None => if bool_decide (c = DOT) then Some O else None
          end = Some (S (String.length stem))).
  by rewrite IH.
Qed.

Lemma string_drop_app (stem t : string) :
  string_drop (String.length stem) (stem +:+ t) = t.
Proof. induction stem as [| c stem IH]; [by destruct t | exact IH]. Qed.

Lemma string_drop_split (i : nat) :
  ∀ s, (i ≤ String.length s)%nat →
       ∃ stem, s = stem +:+ string_drop i s ∧ String.length stem = i.
Proof.
  induction i as [| i IH]; intros s Hi.
  - exists "". by destruct s.
  - destruct s as [| c s]; [cbn in Hi; lia |].
    destruct (IH s) as (stem & Hs & Hlen); [cbn in Hi; lia |].
    exists (String c stem). split.
    + change (String c s = String c (stem +:+ string_drop i s)).
      by rewrite <- Hs.
    + simpl. by rewrite Hlen.
Qed.

(** The suffix of a path is [.trc] exactly when its last component is a
    name that ends in [.trc] and does not start with that dot. *)
Lemma suffix_trc_iff (p : Path) :
  suffix p = ".trc" ↔ ∃ stem, stem ≠ "" ∧ name p = stem +:+ ".trc".
Proof.
  unfold suffix. split.
  - destruct (rfind_dot (name p)) as [i |]; [| discriminate].
    case_bool_decide as Hi; [| discriminate]. intros Hdrop.
    destruct (string_drop_split i (name p)) as (stem & Hn & Hlen); [lia |].
    exists stem. split.
    + intros ->. cbn in Hlen. lia.
    + by rewrite Hdrop in Hn.
  - intros (stem & Hne & ->). rewrite rfind_dot_trc.
    rewrite bool_decide_eq_true_2; [apply string_drop_app |].
    rewrite string_length_app. cbn. destruct stem; [done | cbn; lia].
Qed.

(** A last component that is just [.trc] has no suffix: such a path is
    taken for a directory. *)
Lemma suffix_of_dot_trc :
  suffix (parse ".trc") = "" ∧ suffix (parse "logs/.trc") = "" ∧
  suffix (parse "logs/run.trc") = ".trc" ∧ suffix (parse "logs/run.txt") = ".txt".
Proof. repeat split. Qed.

(** *** [_initialize_trace] and [__init__] *)

(** The fourth test of [_initialize_trace] asks nothing new: a suffix that
    failed the first two tests is in neither list position. *)
Lemma suffix_not_listed (p : Path) :
  suffix p ≠ ".trc" → suffix p ≠ "" → suffix p ∉ [".trc"; ""].
Proof.
  intros H1 H2 Hin. apply list_elem_of_In in Hin. simpl in Hin.
  destruct Hin as [E | [E | []]]; congruence.
Qed.

(** What [_initialize_trace] does with the path, whatever the size. *)
Lemma initialize_trace_run (cwd : Path) (w : world) :
  let o := self w in
  let p := trace_path o in
  let z := trace_size o in
  let clamp (o' : CCPCanCan.CCPCanCan) : outcome unit * world :=
    if bool_decide (0 < z ∧ z ≤ 100)%Z
    then (Returned tt, mkWorld o' (disk w) (log w) (submitted w) (clock w) (encoding w))
    else (Returned tt,
          mkWorld (set_trace_size 10 o') (disk w)
            (log w ++ [(WARNING, "Make sure trace size is between 1 and 100 Mb. Setting trace size to default value")])
            (submitted w) (clock w) (encoding w)) in
  _initialize_trace cwd w =
    if bool_decide (suffix p = ".trc")
    then clamp (set_trace_path (parent p) (set_trace_name (Some (name p)) o))
    else if bool_decide (suffix p = "")
    then clamp (set_trace_name None o)
    else (Raised (ValueError ("Trace name " +:+ name p +:+
                              " is incorrect, it should be a trc file")), w).
Proof.
  destruct w as [o d l sub c k]. cbn zeta. cbn [self disk log submitted clock encoding].
  unfold _initialize_trace. run. cbn [self disk log submitted clock encoding].
  unfold truthy. cbn [andb negb].
  destruct (decide (suffix (trace_path o) = ".trc")) as [E1 | E1].
  - rewrite !(bool_decide_eq_true_2 _ E1). cbn.
    destruct (bool_decide (0 < trace_size o ∧ trace_size o ≤ 100)%Z);
      reflexivity.
  - rewrite !(bool_decide_eq_false_2 _ E1).
    destruct (decide (suffix (trace_path o) = "")) as [E2 | E2].
    + rewrite !(bool_decide_eq_true_2 _ E2). cbn.
      destruct (bool_decide (0 < trace_size o ∧ trace_size o ≤ 100)%Z);
        reflexivity.
    + rewrite !(bool_decide_eq_false_2 _ E2).
      rewrite (bool_decide_eq_false_2 _ (suffix_not_listed _ E1 E2)).
      reflexivity.
Qed.

Lemma init_run (a : arguments) (cwd : Path) (w : world) (st : BusState) :
  BusState_item (upper (arg_state a)) = Returned st →
  __init__ a cwd w =
    match _initialize_trace cwd
            (mkWorld (fresh a st) (disk w) (log w) (submitted w) (clock w) (encoding w)) with
    | (Returned _, w1) => brs_warning a w1
    | (Raised e, w1) => (Raised e, w1)
    end.
Proof.
  intros Hst. unfold __init__. run. rewrite Hst. cbn beta iota.
  fold (fresh a st).
  destruct (_initialize_trace cwd _) as [[[] | e] w1]; reflexivity.
Qed.

(** The closing warning returns and touches the log only. *)
Lemma brs_warning_run (a : arguments) (w : world) :
  ∃ l, brs_warning a w =
         (Returned tt, mkWorld (self w) (disk w) l (submitted w) (clock w) (encoding w)).
Proof.
  unfold brs_warning. run. destruct w.
  destruct (arg_enable_brs a && negb (arg_is_fd a)); eexists; reflexivity.
Qed.

(** C7. For every trace path handed to the constructor: when its suffix is
    [.trc], construction succeeds, the trace name is the last component of
    the path and the trace directory is its parent; when it has no suffix
    (the empty path is such a path), construction succeeds with no trace
    name and the path kept as the directory; for every other suffix
    construction raises [ValueError], and it does so with no bus and no
    PCAN handle in the object, no frame submitted and the trace directory
    as it was. *)
Theorem trace_path_checked_at_construction
    (a : arguments) (cwd : Path) (w : world) (st : BusState) :
  BusState_item (upper (arg_state a)) = Returned st →
  let p := parse (arg_trace_path a) in
  (suffix p = ".trc" →
     ∃ w', __init__ a cwd w = (Returned tt, w') ∧
           trace_name (self w') = Assigned (Some (name p)) ∧
           trace_path (self w') = parent p) ∧
  (suffix p = "" →
     ∃ w', __init__ a cwd w = (Returned tt, w') ∧
           trace_name (self w') = Assigned None ∧
           trace_path (self w') = p) ∧
  (suffix p ≠ ".trc" → suffix p ≠ "" →
     ∃ message w', __init__ a cwd w = (Raised (ValueError message), w') ∧
           bus (self w') = None ∧ raw_pcan_interface (self w') = None ∧
           submitted w' = submitted w ∧ disk w' = disk w) ∧
  suffix (parse "") = "".
Proof.
  intros Hst p. rewrite (init_run a cwd w st Hst), initialize_trace_run.
  cbn [self disk log submitted clock encoding]. fold p.
  change (trace_path (fresh a st)) with p.
  repeat split.
  - intros E. rewrite (bool_decide_eq_true_2 _ E).
    destruct (bool_decide (0 < _ ∧ _ ≤ 100)%Z);
      match goal with |- context [brs_warning a ?w1] =>
        destruct (brs_warning_run a w1) as [l ->] end;
      eexists; repeat split.
  - intros E. assert (suffix p ≠ ".trc") as E1 by (rewrite E; discriminate).
    rewrite (bool_decide_eq_false_2 _ E1), (bool_decide_eq_true_2 _ E).
    destruct (bool_decide (0 < _ ∧ _ ≤ 100)%Z);
      match goal with |- context [brs_warning a ?w1] =>
        destruct (brs_warning_run a w1) as [l ->] end;
      eexists; repeat split.
  - intros E1 E2.
    rewrite (bool_decide_eq_false_2 _ E1), (bool_decide_eq_false_2 _ E2).
    eexists _, _. repeat split.
Qed.

Lemma trace_path_checked_at_construction_witness :
  ∃ w', __init__ run_trc_arguments (parse "/home") blank_world
          = (Returned tt, w') ∧
        trace_name (self w') = Assigned (Some "run.trc") ∧
        trace_path (self w') = mkPath "" ["logs"].
Proof.
  exact (proj1 (trace_path_checked_at_construction run_trc_arguments
                  (parse "/home") blank_world ACTIVE eq_refl) eq_refl).
Defined.

(** C8. For every trace size handed to the constructor together with an
    accepted trace path: construction raises no error; a size in (0, 100]
    is stored unchanged; every other size is replaced by the default 10. *)
Theorem trace_size_clamped_at_construction
    (a : arguments) (cwd : Path) (w : world) (st : BusState) :
  BusState_item (upper (arg_state a)) = Returned st →
  suffix (parse (arg_trace_path a)) = ".trc" ∨
    suffix (parse (arg_trace_path a)) = "" →
  let z := arg_trace_size a in
  ∃ w', __init__ a cwd w = (Returned tt, w') ∧
        ((0 < z ≤ 100)%Z → trace_size (self w') = z) ∧
        (¬ (0 < z ≤ 100)%Z → trace_size (self w') = 10%Z).
Proof.
  intros Hst Hpath z. rewrite (init_run a cwd w st Hst), initialize_trace_run.
  cbn [self disk log submitted clock encoding].
  change (trace_path (fresh a st)) with (parse (arg_trace_path a)).
  change (trace_size (fresh a st)) with z.
  assert (∀ o' : CCPCanCan.CCPCanCan, trace_size o' = z →
            ∃ w', match (if bool_decide (0 < z ∧ z ≤ 100)%Z
                         then (Returned tt, mkWorld o' (disk w) (log w)
                                              (submitted w) (clock w) (encoding w))
                         else (Returned tt,
                               mkWorld (set_trace_size 10 o') (disk w)
                                 (log w ++ [(WARNING, "Make sure trace size is between 1 and 100 Mb. Setting trace size to default value")])
                                 (submitted w) (clock w) (encoding w)))
                  with
                  | (Returned _, w1) => brs_warning a w1
                  | (Raised e, w1) => (Raised e, w1)
                  end = (Returned tt, w') ∧
                  ((0 < z ≤ 100)%Z → trace_size (self w') = z) ∧
                  (¬ (0 < z ≤ 100)%Z → trace_size (self w') = 10%Z)) as Hclamp.
  { intros o' Ho'. case_bool_decide as Hz;
      match goal with |- context [brs_warning a ?w1] =>
        destruct (brs_warning_run a w1) as [l ->] end;
      eexists; (split; [reflexivity |]); cbn; split; intros; tauto || done. }
  destruct Hpath as [E | E].
  - rewrite (bool_decide_eq_true_2 _ E). apply Hclamp. reflexivity.
  - assert (suffix (parse (arg_trace_path a)) ≠ ".trc") as E1
      by (rewrite E; discriminate).
    rewrite (bool_decide_eq_false_2 _ E1), (bool_decide_eq_true_2 _ E).
    apply Hclamp. reflexivity.
Qed.

Lemma trace_size_clamped_at_construction_witness :
  ∃ w', __init__ oversized_arguments (parse "/home") blank_world
          = (Returned tt, w') ∧ trace_size (self w') = 10%Z.
Proof.
  destruct (trace_size_clamped_at_construction oversized_arguments
              (parse "/home") blank_world ACTIVE eq_refl
              (or_intror eq_refl)) as (w' & Hrun & _ & Hout).
  exists w'. split; [exact Hrun |]. apply Hout. cbn. lia.
Defined.

End ConstructionFacts.

(** ** Receive *)

Module ReceiveFacts.
Import Py CCPCanCan Notions Examples.
Local Open Scope py_scope.

Ltac run := ConstructionFacts.run.

(** The PCAN receive, outcome by outcome of the bus. *)
Lemma pcan_receive_run (timeout_arg : Q) (recv : Q → outcome (option Message))
    (w : world) :
  _cc_receive timeout_arg recv w =
    match pcan_recv_result timeout_arg recv w with
    | Returned (Some m) =>
        (Returned (pcan_frame m), with_log w DEBUG "received CAN Message")
    | Returned None => (Returned pcan_nothing, w)
    | Raised e =>
        if is_Exception e then
          if is_CanError e
          then (Returned pcan_nothing, with_log w DEBUG "encountered can error")
          else (Returned pcan_nothing,
                with_log w EXCEPTION "encountered error while receiving message")
        else (Raised e, w)
    end.
Proof.
  unfold _cc_receive, pcan_recv_result. run.
  destruct (bus (self w)) as [b |]; cbn.
  - destruct (recv _) as [[m |] | e]; cbn.
    + destruct w; reflexivity.
    + reflexivity.
    + destruct (is_Exception e), (is_CanError e); destruct w; reflexivity.
  - destruct w; reflexivity.
Qed.

(** The Vector receive, outcome by outcome of the bus and of the parser. *)
Lemma vector_receive_run (timeout : Q) (raw : bool)
    (recv : Q → outcome (option Message))
    (parse_packet : list Byte.byte → outcome CCVectorCan.KisoMessage)
    (w : CCVectorCan.world) :
  let failed :=
    (Returned (None, None),
     vector_with_log w EXCEPTION "encountered error while receiving message") in
  CCVectorCan._cc_receive timeout raw recv parse_packet w =
    match vector_recv_result timeout recv w with
    | Returned (Some m) =>
        if raw then
          (Returned (Some (CCVectorCan.Bytes (data m)), arbitration_id m),
           vector_with_log w DEBUG "received CAN Message")
        else
          match parse_packet (data m) with
          | Returned m' =>
              (Returned (Some (CCVectorCan.Message m'), arbitration_id m),
               vector_with_log w DEBUG "received CAN Message")
          | Raised _ => failed
          end
    | Returned None => (Returned (None, None), w)
    | Raised _ => failed
    end.
Proof.
  unfold CCVectorCan._cc_receive, vector_recv_result. run.
  unfold CCVectorCan.log_record. run.
  destruct (CCVectorCan.bus (CCVectorCan.self w)) as [b |]; cbn.
  - destruct (recv _) as [[m |] | e]; cbn.
    + destruct raw; cbn; [destruct w; reflexivity |].
      destruct (parse_packet _); destruct w; reflexivity.
    + reflexivity.
    + destruct w; reflexivity.
  - destruct w; reflexivity.
Qed.

(** C4, as stated, fails of the PCAN receive: on an opened channel whose
    bus raises outside the class [Exception], the receive raises what the
    bus raised. *)
Lemma pcan_receive_lets_an_interrupt_through :
  bus (self open_world) = Some (BusObject 1) ∧
  _cc_receive (1 # 10000)%Q (λ _, Raised KeyboardInterrupt) open_world
    = (Raised KeyboardInterrupt, open_world).
Proof. split; reflexivity. Qed.

(** C4, amended. For every timeout and every answer of the bus to the
    receive call. The Vector receive returns, with a received frame or
    with the result that says nothing is available, and with the latter
    whenever the bus raised, whatever it raised, and when parsing the
    packet raises. The PCAN receive does the same whenever what reaches it
    from the bus is a frame, no frame, or an error of class [Exception] (a
    bus error [can.CanError] or any other); an error outside that class
    it raises again, leaving everything as it was. *)
Theorem receive_never_raises (timeout : Q)
    (recv : Q → outcome (option Message)) (raw : bool)
    (parse_packet : list Byte.byte → outcome CCVectorCan.KisoMessage)
    (w : world) (v : CCVectorCan.world) :
  ((∀ e, pcan_recv_result timeout recv w = Raised e → is_Exception e = true) →
   ∃ d w', _cc_receive timeout recv w = (Returned d, w') ∧
           ((∃ m, pcan_recv_result timeout recv w = Returned (Some m) ∧
                  d = pcan_frame m) ∨
            d = pcan_nothing) ∧
           (∀ e, pcan_recv_result timeout recv w = Raised e →
                 d = pcan_nothing)) ∧
  (∀ e, pcan_recv_result timeout recv w = Raised e → is_Exception e = false →
        _cc_receive timeout recv w = (Raised e, w)) ∧
  (∃ r v', CCVectorCan._cc_receive timeout raw recv parse_packet v
             = (Returned r, v') ∧
           ((∃ m p, vector_recv_result timeout recv v = Returned (Some m) ∧
                    r = (Some p, arbitration_id m)) ∨
            r = (None, None)) ∧
           (∀ e, vector_recv_result timeout recv v = Raised e →
                 r = (None, None))).
Proof.
  split; [| split].
  - intros Hexc. rewrite pcan_receive_run.
    destruct (pcan_recv_result timeout recv w) as [[m |] | e].
    + eexists _, _. split; [reflexivity |]. split; [| discriminate].
      left. exists m. split; reflexivity.
    + eexists _, _. split; [reflexivity |]. split; [right | ]; done.
    + rewrite (Hexc e eq_refl).
      destruct (is_CanError e); eexists _, _;
        (split; [reflexivity |]); (split; [right |]); done.
  - intros e He Hout. rewrite pcan_receive_run, He, Hout. reflexivity.
  - rewrite vector_receive_run. cbn zeta.
    destruct (vector_recv_result timeout recv v) as [[m |] | e].
    + destruct raw; [| destruct (parse_packet (data m))];
        eexists _, _; (split; [reflexivity |]); (split; [| discriminate]);
        try (left; eexists _, _; split; reflexivity).
      right. reflexivity.
    + eexists _, _. split; [reflexivity |]. split; [right |]; done.
    + eexists _, _. split; [reflexivity |]. split; [right |]; done.
Qed.

Lemma receive_never_raises_witness :
  ∃ w', _cc_receive 0%Q (λ _, Raised CanError) open_world
          = (Returned pcan_nothing, w').
Proof.
  destruct (receive_never_raises 0%Q (λ _, Raised CanError) false
              (λ b, Returned (CCVectorCan.Parsed b)) open_world
              open_vector_world)
    as [Hpcan _].
  destruct Hpcan as (d & w' & Hrun & _ & Hnothing).
  - intros e [= <-]. reflexivity.
  - exists w'. rewrite (Hnothing CanError eq_refl) in Hrun. exact Hrun.
Defined.

(** C10. Whatever the bus answers, a PCAN receive that returns hands back
    a dictionary that has the key [msg], that has the key [remote_id]
    exactly when the bus delivered a frame, that has no other key, and
    that holds no float, so that the timestamp read from the frame is not
    in it; and the receive returns unless the bus raised outside the
    class [Exception]. *)
Theorem receive_result_keys (timeout_arg : Q)
    (recv : Q → outcome (option Message)) (w : world) :
  match fst (_cc_receive timeout_arg recv w) with
  | Returned d =>
      "msg" ∈ dom d ∧
      (("remote_id" ∈ dom d) ↔
         (∃ m, pcan_recv_result timeout_arg recv w = Returned (Some m))) ∧
      dom d ⊆ {["msg"; "remote_id"]} ∧
      ("timestamp" ∉ dom d) ∧
      (∀ k q, d !! k ≠ Some (VFloat q))
  | Raised e =>
      pcan_recv_result timeout_arg recv w = Raised e ∧ is_Exception e = false
  end.
Proof.
  rewrite pcan_receive_run.
  assert (dom pcan_nothing = ({["msg"]} : gset string)) as Hdom0.
  { unfold pcan_nothing. apply dom_singleton_L. }
  assert (∀ k q, pcan_nothing !! k ≠ Some (VFloat q)) as Hval0.
  { intros k q. unfold pcan_nothing.
    destruct (decide (k = "msg")) as [-> | Hk].
    - rewrite lookup_singleton_eq. discriminate.
    - rewrite lookup_singleton_ne by done. discriminate. }
  assert (∀ d : gmap string value, dom d = ({["msg"]} : gset string) →
            (∀ k q, d !! k ≠ Some (VFloat q)) →
            (∀ m, pcan_recv_result timeout_arg recv w ≠ Returned (Some m)) →
            "msg" ∈ dom d ∧
            (("remote_id" ∈ dom d) ↔
               (∃ m, pcan_recv_result timeout_arg recv w = Returned (Some m))) ∧
            dom d ⊆ {["msg"; "remote_id"]} ∧
            ("timestamp" ∉ dom d) ∧
            (∀ k q, d !! k ≠ Some (VFloat q))) as Hnothing.
  { intros d Hd Hv Hno. rewrite Hd.
    split; [| split; [| split; [| split]]].
    - by apply elem_of_singleton.
    - split.
      + intros H. apply elem_of_singleton in H. discriminate.
      + intros [m Hm]. by destruct (Hno m).
    - intros x Hx. apply elem_of_union. by left.
    - intros H. apply elem_of_singleton in H. discriminate.
    - exact Hv. }
  destruct (pcan_recv_result timeout_arg recv w) as [[m |] | e] eqn:Hres;
    cbn [fst].
  - assert (dom (pcan_frame m) = ({["msg"; "remote_id"]} : gset string))
      as Hdom.
    { unfold pcan_frame. rewrite dom_insert_L, dom_singleton_L.
      apply union_comm_L. }
    rewrite Hdom. split; [| split; [| split; [| split]]].
    + apply elem_of_union. left. by apply elem_of_singleton.
    + split; [eauto |]. intros _. apply elem_of_union. right.
      by apply elem_of_singleton.
    + done.
    + intros H. apply elem_of_union in H as [H | H];
        apply elem_of_singleton in H; discriminate.
    + intros k q. unfold pcan_frame.
      destruct (decide (k = "remote_id")) as [-> | Hk].
      * rewrite lookup_insert_eq. unfold value_of_id.
        destruct (arbitration_id m); discriminate.
      * rewrite lookup_insert_ne by done.
        destruct (decide (k = "msg")) as [-> | Hk'].
        -- rewrite lookup_singleton_eq. discriminate.
        -- rewrite lookup_singleton_ne by done. discriminate.
  - apply Hnothing; [exact Hdom0 | exact Hval0 | discriminate].
  - destruct (is_Exception e) eqn:He; [| cbn; done].
    assert (fst (if is_CanError e
                 then (Returned pcan_nothing,
                       with_log w DEBUG "encountered can error")
                 else (Returned pcan_nothing,
                       with_log w EXCEPTION
                         "encountered error while receiving message"))
            = Returned pcan_nothing) as -> by (destruct (is_CanError e); done).
    apply Hnothing; [exact Hdom0 | exact Hval0 | discriminate].
Qed.

End ReceiveFacts.

(** ** Close *)

Module CloseFacts.
Import Py CCPCanCan Notions Examples.
Local Open Scope py_scope.

Ltac run := ConstructionFacts.run.

(** [_cc_close] on a channel that has a bus whose shutdown returns. *)
Lemma close_run (sdk : close_answers) (w : world) (b : Bus) :
  bus (self w) = Some b →
  shutdown_answer sdk = Returned tt →
  _cc_close sdk w =
    if logging_activated (self w) then
      match release_result sdk w with
      | Returned result =>
          if bool_decide (result = PCAN_ERROR_OK) then (Returned tt, closed w [])
          else match GetErrorText_answer sdk with
               | Returned answer =>
                   (Returned tt, closed w [(ERROR_, snd answer)])
               | Raised e => (Raised e, closed w [])
               end
      | Raised e =>
          if is_Exception e
          then (Returned tt,
                closed w [(EXCEPTION, "Error in call to Uninitialize")])
          else (Raised e, closed w [])
      end
    else (Returned tt, closed_without_logging w).
Proof.
  intros Hbus Hshut. unfold _cc_close, release_result, closed,
    closed_without_logging. run.
  destruct w as [o d l sub c k]. cbn [self disk log submitted clock encoding] in *.
  rewrite Hbus, Hshut. cbn [self disk log submitted clock encoding].
  destruct (logging_activated o); [| reflexivity].
  destruct o; cbn in *.
  destruct raw_pcan_interface0 as [h |]; cbn.
  - destruct (Uninitialize_answer sdk) as [result | e]; cbn.
    + destruct (bool_decide (result = PCAN_ERROR_OK)); cbn.
      * rewrite app_nil_r. reflexivity.
      * destruct (GetErrorText_answer sdk) as [answer | e]; cbn.
        -- reflexivity.
        -- rewrite app_nil_r. reflexivity.
    + destruct (is_Exception e); cbn; [reflexivity |].
      rewrite app_nil_r. reflexivity.
  - reflexivity.
Qed.

(** A close without a bus fails on the attribute lookup and changes
    nothing. *)
Lemma close_without_bus (sdk : close_answers) (w : world) :
  bus (self w) = None → _cc_close sdk w = (Raised AttributeError, w).
Proof.
  intros Hbus. unfold _cc_close. run. rewrite Hbus. reflexivity.
Qed.

(** Whatever the release and the lookup of the error text do, a close that
    got past the bus shutdown leaves no PCAN handle behind. *)
Lemma close_always_clears (sdk : close_answers) (w : world) (b : Bus) :
  bus (self w) = Some b →
  shutdown_answer sdk = Returned tt →
  logging_activated (self w) = true →
  bus (self (snd (_cc_close sdk w))) = None ∧
  raw_pcan_interface (self (snd (_cc_close sdk w))) = None.
Proof.
  intros Hbus Hshut Hlog. rewrite (close_run sdk w b Hbus Hshut), Hlog.
  destruct (release_result sdk w) as [result | e].
  - destruct (bool_decide _); [done |].
    destruct (GetErrorText_answer sdk); done.
  - destruct (is_Exception e); done.
Qed.

(** C5, as stated, fails. When the release of the PCAN handle answers
    another code than OK and the lookup of the error text raises, the
    close raises that error. When the release raises outside the class
    [Exception], the close raises that error. When the shutdown of the
    bus raises, the close raises that error and clears neither the bus
    nor the PCAN handle. *)
Lemma close_propagates_failures :
  logging_activated (self open_world) = true ∧
  fst (_cc_close failing_error_text open_world) = Raised OtherException ∧
  fst (_cc_close interrupted_release open_world) = Raised KeyboardInterrupt ∧
  _cc_close failing_shutdown open_world = (Raised CanError, open_world) ∧
  bus (self open_world) = Some (BusObject 1) ∧
  raw_pcan_interface (self open_world) = Some (PCANBasicObject 1).
Proof. repeat split. Qed.

(** C5, amended. For every close of a channel that has a bus whose
    shutdown returns, with logging activated, and provided the lookup of
    the error text answers: whether the release of the PCAN handle returns
    the OK code, returns another code, or raises an error of class
    [Exception], the close returns, and afterwards the object holds
    neither the PCAN handle nor the bus. *)
Theorem close_swallows_release_failure
    (sdk : close_answers) (w : world) (b : Bus) :
  bus (self w) = Some b →
  shutdown_answer sdk = Returned tt →
  logging_activated (self w) = true →
  (∀ e, Uninitialize_answer sdk = Raised e → is_Exception e = true) →
  returns (GetErrorText_answer sdk) = true →
  ∃ w', _cc_close sdk w = (Returned tt, w') ∧
        raw_pcan_interface (self w') = None ∧
        bus (self w') = None.
Proof.
  intros Hbus Hshut Hlog Hrel Htext.
  rewrite (close_run sdk w b Hbus Hshut), Hlog.
  assert (∀ e, release_result sdk w = Raised e → is_Exception e = true)
    as Hrel'.
  { unfold release_result. intros e.
    destruct (raw_pcan_interface (self w)); [apply Hrel |].
    intros [= <-]. reflexivity. }
  destruct (release_result sdk w) as [result | e].
  - destruct (bool_decide _); [eexists; done |].
    destruct (GetErrorText_answer sdk); [eexists; done | discriminate].
  - rewrite (Hrel' e eq_refl). eexists; done.
Qed.

Lemma close_swallows_release_failure_witness :
  ∃ w', _cc_close failing_teardown open_world = (Returned tt, w') ∧
        raw_pcan_interface (self w') = None ∧
        bus (self w') = None.
Proof.
  apply (close_swallows_release_failure failing_teardown
           open_world (BusObject 1));
    try reflexivity.
  intros e [= <-]. reflexivity.
Defined.

(** C6, as stated, fails: on an opened channel whose teardown fails, the
    first close returns and the second one, called right after it,
    raises. *)
Lemma close_twice_raises :
  bus (self open_world) = Some (BusObject 1) ∧
  fst ((_cc_close failing_teardown ;; _cc_close failing_teardown)
         open_world) = Raised AttributeError.
Proof. split; reflexivity. Qed.

(** C6, amended. For every channel that has a bus whose shutdown returns,
    whose release of the PCAN handle fails, if it fails, with an error of
    class [Exception], and for which the lookup of the error text
    answers: the first close returns, whether the diagnostic teardown
    fails or not; a second close directly after it, whatever the SDK
    would answer it, raises [AttributeError], since the object holds no
    bus any more, and changes nothing. *)
Theorem close_then_close_again
    (sdk1 sdk2 : close_answers) (w : world) (b : Bus) :
  bus (self w) = Some b →
  shutdown_answer sdk1 = Returned tt →
  (∀ e, Uninitialize_answer sdk1 = Raised e → is_Exception e = true) →
  returns (GetErrorText_answer sdk1) = true →
  ∃ w1, _cc_close sdk1 w = (Returned tt, w1) ∧
        _cc_close sdk2 w1 = (Raised AttributeError, w1).
Proof.
  intros Hbus Hshut Hrel Htext.
  rewrite (close_run sdk1 w b Hbus Hshut).
  assert (∀ e, release_result sdk1 w = Raised e → is_Exception e = true)
    as Hrel'.
  { unfold release_result. intros e.
    destruct (raw_pcan_interface (self w)); [apply Hrel |].
    intros [= <-]. reflexivity. }
  destruct (logging_activated (self w)).
  - destruct (release_result sdk1 w) as [result | e].
    + destruct (bool_decide _).
      * eexists. split; [reflexivity |]. by apply close_without_bus.
      * destruct (GetErrorText_answer sdk1); [| discriminate].
        eexists. split; [reflexivity |]. by apply close_without_bus.
    + rewrite (Hrel' e eq_refl).
      eexists. split; [reflexivity |]. by apply close_without_bus.
  - eexists. split; [reflexivity |]. by apply close_without_bus.
Qed.

Lemma close_then_close_again_witness :
  ∃ w1, _cc_close failing_teardown open_world = (Returned tt, w1) ∧
        _cc_close failing_teardown w1 = (Raised AttributeError, w1).
Proof.
  apply (close_then_close_again failing_teardown failing_teardown
           open_world (BusObject 1));
    try reflexivity.
  intros e [= <-]. reflexivity.
Defined.

End CloseFacts.

(** ** Send *)

Module SendFacts.
Import Py CCPCanCan Notions Examples.
Local Open Scope py_scope.

Ltac run := ConstructionFacts.run.

(** On a channel with a bus, the PCAN send hands exactly one frame to the
    bus; its outcome is the error of [bus.send], or else what the
    formatting of the frame for the log gives. *)
Lemma pcan_send_run (msg : list Byte.byte) (remote_id_arg : option Z)
    (send_answer : outcome unit) (w : world) (b : Bus) :
  bus (self w) = Some b →
  fst (_cc_send msg remote_id_arg send_answer w) =
    then_format send_answer (pcan_frame_sent (self w) msg remote_id_arg) ∧
  submitted (snd (_cc_send msg remote_id_arg send_answer w)) =
    submitted w ++ [pcan_frame_sent (self w) msg remote_id_arg].
Proof.
  intros Hbus. unfold _cc_send, then_format, format_message, pcan_frame_sent.
  run. rewrite Hbus. cbn.
  destruct send_answer as [[] | e]; cbn; [| done].
  destruct (or_int remote_id_arg (remote_id (self w))); done.
Qed.

(** The identifier of the frame: a supplied identifier other than zero is
    used as it is, an omitted one is replaced by the configured one. *)
Lemma pcan_send_identifier (o : CCPCanCan.CCPCanCan) (msg : list Byte.byte) :
  (∀ i, i ≠ 0%Z → arbitration_id (pcan_frame_sent o msg (Some i)) = Some i) ∧
  arbitration_id (pcan_frame_sent o msg None) = remote_id o ∧
  arbitration_id (pcan_frame_sent o msg (Some 0%Z)) = remote_id o.
Proof.
  repeat split. intros i Hi. cbn. by rewrite (proj2 (Z.eqb_neq i 0) Hi).
Qed.

(** The Vector send tests the identifier against [None]: a supplied
    identifier, zero included, is the one of the frame. *)
Lemma vector_send_identifier (msg : list Byte.byte) (i : Z)
    (w : CCVectorCan.world) (b : Bus) :
  CCVectorCan.bus (CCVectorCan.self w) = Some b →
  ∃ m, CCVectorCan.submitted
         (snd (CCVectorCan._cc_send msg (Some i) true (Returned msg)
                 (Returned tt) w))
       = CCVectorCan.submitted w ++ [m] ∧
       arbitration_id m = Some i.
Proof.
  intros Hbus. unfold CCVectorCan._cc_send. run. rewrite Hbus. cbn.
  eexists. split; reflexivity.
Qed.

(** C9 does not hold of the PCAN send: asked to send to the identifier 0
    on a channel configured with the identifier 291, it submits a frame
    whose arbitration identifier is 291. *)
Theorem pcan_send_replaces_identifier_zero :
  remote_id open_channel = Some 291%Z ∧
  map arbitration_id
      (submitted (snd (_cc_send [] (Some 0%Z) (Returned tt)
                         open_world)))
    = [Some 291%Z].
Proof. split; reflexivity. Qed.

End SendFacts.

(** ** Text: lines, numbers and padding *)

Module TextFacts.
Import Py FS Notions Examples.

Lemma is_terminated_inv (l : text) :
  is_terminated l = true → ∃ body, l = body ++ [LF] ∧ plain body.
Proof.
  unfold is_terminated. intros H.
  destruct (reverse l) as [| c r] eqn:Hr; [discriminate |].
  apply andb_prop in H as [Hc Hbody]. apply bool_decide_eq_true in Hc. subst c.
  exists (reverse r). split.
  - rewrite <- (reverse_involutive l), Hr. apply reverse_cons.
  - apply Forall_reverse. apply Forall_forall. intros c Hin.
    apply list_elem_of_In in Hin.
    rewrite forallb_forall in Hbody. specialize (Hbody c Hin).
    by apply negb_true_iff in Hbody.
Qed.

Lemma is_terminated_intro (body : text) :
  plain body → is_terminated (body ++ [LF]) = true.
Proof.
  intros Hbody. unfold is_terminated. rewrite reverse_snoc.
  rewrite bool_decide_eq_true_2 by done. cbn.
  apply forallb_forall. intros c Hin. apply negb_true_iff.
  apply list_elem_of_In in Hin. rewrite elem_of_reverse in Hin.
  unfold plain in Hbody. rewrite Forall_forall in Hbody. by apply Hbody.
Qed.

(** A terminated line at the front of a text is its first line. *)
Lemma splitlines_line (body rest : text) :
  plain body → splitlines (body ++ LF :: rest) = (body ++ [LF]) :: splitlines rest.
Proof.
  induction 1 as [| c body Hc Hbody IH]; [reflexivity |].
  cbn [app splitlines]. unfold ends_line at 1. rewrite Hc. cbn [andb].
  fold (@app ascii). rewrite IH. reflexivity.
Qed.

(** Splitting undoes the concatenation of terminated lines. *)
Lemma splitlines_concat (ls : list text) :
  Forall (λ l, is_terminated l = true) ls → splitlines (concat ls) = ls.
Proof.
  induction 1 as [| l ls Hl Hls IH]; [reflexivity |].
  apply is_terminated_inv in Hl as (body & -> & Hbody).
  cbn [concat]. rewrite <- app_assoc. cbn [app].
  rewrite splitlines_line by done. by rewrite IH.
Qed.

(** Concatenation undoes splitting, on every text. *)
Lemma concat_splitlines (s : text) : concat (splitlines s) = s.
Proof.
  induction s as [| c s IH]; [reflexivity |]. cbn [splitlines].
  destruct (ends_line c s).
  - cbn. by rewrite IH.
  - destruct (splitlines s) as [| l ls]; cbn in *; by rewrite <- IH.
Qed.

Lemma universal_newlines_plain (s : text) :
  Forall (λ c, c ≠ CR) s → universal_newlines s = s.
Proof.
  induction 1 as [| c s Hc Hs IH]; [reflexivity |]. cbn.
  rewrite (bool_decide_eq_false_2 _ Hc). by rewrite IH.
Qed.

Lemma terminated_lines_no_CR (ls : list text) :
  Forall (λ l, is_terminated l = true) ls → Forall (λ c, c ≠ CR) (concat ls).
Proof.
  induction 1 as [| l ls Hl Hls IH]; [constructor |].
  cbn. apply Forall_app. split; [| done].
  apply is_terminated_inv in Hl as (body & -> & Hbody).
  apply Forall_app. split.
  - eapply Forall_impl; [exact Hbody |]. cbn. intros c Hc ->. discriminate.
  - repeat constructor. discriminate.
Qed.

(** Reading terminated lines back in text mode gives these lines. *)
Lemma read_back (ls : list text) :
  Forall (λ l, is_terminated l = true) ls →
  splitlines (universal_newlines (concat ls)) = ls.
Proof.
  intros H. rewrite universal_newlines_plain by by apply terminated_lines_no_CR.
  by apply splitlines_concat.
Qed.

(** The decimal digits are no line boundaries. *)
Lemma digit_plain (d : N) : (d < 10)%N → is_linebreak (digit d) = false.
Proof.
  intros H.
  assert (d ∈ [0; 1; 2; 3; 4; 5; 6; 7; 8; 9]%N) as Hd.
  { apply list_elem_of_In. cbn. lia. }
  repeat (apply elem_of_cons in Hd as [-> | Hd]; [reflexivity |]).
  by apply elem_of_nil in Hd.
Qed.

Lemma str_digits_plain (fuel : nat) (n : N) (acc : text) :
  plain acc → plain (str_digits fuel n acc).
Proof.
  revert n acc. induction fuel as [| fuel IH]; intros n acc Hacc; [done |].
  cbn [str_digits].
  assert (plain (digit (n mod 10) :: acc)) as Hacc'.
  { constructor; [| done]. apply digit_plain. apply N.mod_lt. lia. }
  destruct (n / 10 =? 0)%N; [done | by apply IH].
Qed.

Lemma str_plain (n : N) : plain (str n).
Proof. apply str_digits_plain. constructor. Qed.

(** A number below [10 ^ k] has at most [k] digits. *)
Lemma str_digits_length (fuel : nat) (k : nat) (n : N) (acc : text) :
  (n < 10 ^ N.of_nat (S k))%N →
  (length (str_digits fuel n acc) ≤ S k + length acc)%nat.
Proof.
  revert k n acc. induction fuel as [| fuel IH]; intros k n acc Hn.
  - cbn. lia.
  - cbn [str_digits]. destruct (n / 10 =? 0)%N eqn:Hq.
    + cbn. lia.
    + apply N.eqb_neq in Hq. destruct k as [| k].
      * exfalso. apply Hq. apply N.div_small. exact Hn.
      * etrans; [apply (IH k) |].
        -- apply N.Div0.div_lt_upper_bound.
           rewrite <- N.pow_succ_r'. by rewrite <- Nat2N.inj_succ.
        -- cbn. lia.
Qed.

Lemma str_digits_grows (fuel : nat) (n : N) (acc : text) :
  (length acc ≤ length (str_digits fuel n acc))%nat.
Proof.
  revert n acc. induction fuel as [| fuel IH]; intros n acc; [done |].
  cbn [str_digits]. destruct (n / 10 =? 0)%N.
  - cbn. lia.
  - etrans; [| apply IH]. cbn. lia.
Qed.

Lemma str_digits_nonempty (fuel : nat) (n : N) (acc : text) :
  (0 < fuel)%nat → (0 < length (str_digits fuel n acc))%nat.
Proof.
  destruct fuel as [| fuel]; [lia |]. intros _. cbn [str_digits].
  destruct (n / 10 =? 0)%N.
  - cbn. lia.
  - eapply Nat.lt_le_trans; [| apply str_digits_grows]. cbn. lia.
Qed.

Lemma str_length (n : N) :
  (n < 10000000)%N → (1 ≤ length (str n) ≤ 7)%nat.
Proof.
  intros Hn. split.
  - apply str_digits_nonempty. lia.
  - etrans; [apply (str_digits_length _ 6) |]; [exact Hn | cbn; lia].
Qed.

Lemma digit_value (d : N) :
  (d < 10)%N → is_digit (digit d) = true ∧ (N_of_ascii (digit d) - 48 = d)%N.
Proof.
  intros H. unfold is_digit, digit.
  rewrite N_ascii_embedding by lia. split; [| lia].
  apply andb_true_intro. split; apply N.leb_le; lia.
Qed.

Lemma str_digits_are_digits (fuel : nat) (n : N) (acc : text) :
  forallb is_digit acc = true → forallb is_digit (str_digits fuel n acc) = true.
Proof.
  revert n acc. induction fuel as [| fuel IH]; intros n acc Hacc; [done |].
  cbn [str_digits].
  assert (n mod 10 < 10)%N as Hmod by (apply N.mod_lt; lia).
  assert (forallb is_digit (digit (n mod 10) :: acc) = true) as Hacc'.
  { cbn [forallb]. by rewrite Hacc, (proj1 (digit_value (n mod 10) Hmod)). }
  destruct (n / 10 =? 0)%N; [done | by apply IH].
Qed.

(** The digits of a number denote it, provided the recursion is given one
    step more than the binary logarithm of the number. *)
Lemma str_digits_value (fuel : nat) :
  ∀ (n : N) (acc : text),
    (N.log2 n < N.of_nat fuel)%N →
    digits_value 0 (str_digits fuel n acc) = digits_value n acc.
Proof.
  induction fuel as [| fuel IH]; intros n acc Hfuel; [lia |].
  cbn [str_digits].
  pose proof (N.Div0.div_mod n 10) as Hdm.
  assert (n mod 10 < 10)%N as Hmod by (apply N.mod_lt; lia).
  destruct (digit_value (n mod 10) Hmod) as [_ Hd].
  destruct (n / 10 =? 0)%N eqn:Hq.
  - apply N.eqb_eq in Hq. unfold digits_value. cbn [foldl]. rewrite Hd.
    f_equal. lia.
  - apply N.eqb_neq in Hq. rewrite IH.
    + unfold digits_value. cbn [foldl]. rewrite Hd. f_equal. lia.
    + apply N.log2_lt_pow2; [lia |].
      assert (n < 2 ^ N.of_nat (S fuel))%N as Hn.
      { apply N.log2_lt_pow2; [| exact Hfuel].
        destruct (N.eq_dec n 0%N) as [-> | Hn0]; [| lia]. by cbn in Hq. }
      rewrite Nat2N.inj_succ, N.pow_succ_r' in Hn.
      apply N.Div0.div_lt_upper_bound. lia.
Qed.

(** [str] writes a number that reads back as itself. *)
Lemma str_value (n : N) :
  digits_value 0 (str n) = n ∧ forallb is_digit (str n) = true.
Proof.
  split.
  - unfold str. rewrite str_digits_value by lia. reflexivity.
  - apply str_digits_are_digits. reflexivity.
Qed.

Lemma skip_spaces_digits (s : text) :
  forallb is_digit s = true → skip_spaces s = s.
Proof.
  destruct s as [| c s]; [done |]. cbn. intros H.
  apply andb_prop in H as [Hc _].
  rewrite bool_decide_eq_false_2; [done |]. by intros ->.
Qed.

(** A number padded on the left reads back as itself. *)
Lemma read_number_rjust (width : nat) (n : N) :
  read_number (rjust width (str n)) = Some n.
Proof.
  destruct (str_value n) as [Hvalue Hdigits].
  assert (skip_spaces (rjust width (str n)) = str n) as Hskip.
  { unfold rjust. induction (width - length (str n))%nat as [| k IH]; cbn.
    - by apply skip_spaces_digits.
    - exact IH. }
  assert (0 < length (str n))%nat as Hlen
    by (apply str_digits_nonempty; lia).
  unfold read_number. rewrite Hskip.
  destruct (str n) as [| c r]; [cbn in Hlen; lia |].
  by rewrite Hdigits, Hvalue.
Qed.

Lemma rjust_length (width : nat) (s : text) :
  length (rjust width s) = width `max` length s.
Proof. unfold rjust. rewrite length_app, length_replicate. lia. Qed.

Lemma rjust_plain (width : nat) (s : text) : plain s → plain (rjust width s).
Proof.
  intros Hs. apply Forall_app. split; [| done].
  apply Forall_replicate. reflexivity.
Qed.

(** *** ASCII text *)

Lemma forallb_concat {A} (f : A → bool) (ls : list (list A)) :
  forallb f (concat ls) = forallb (forallb f) ls.
Proof.
  induction ls as [| l ls IH]; [reflexivity |].
  cbn [concat forallb]. by rewrite forallb_app, IH.
Qed.

Lemma ascii_app (s t : text) :
  ascii_text (s ++ t) ↔ ascii_text s ∧ ascii_text t.
Proof. unfold ascii_text. rewrite forallb_app. apply andb_true_iff. Qed.

Lemma ascii_drop (n : nat) (s : text) : ascii_text s → ascii_text (drop n s).
Proof.
  intros Hs. rewrite <- (take_drop n s) in Hs. by apply ascii_app in Hs as [_ Hs].
Qed.

Lemma ascii_concat (ls : list text) :
  ascii_text (concat ls) ↔ Forall ascii_text ls.
Proof.
  induction ls as [| l ls IH]; [by split |].
  cbn [concat]. rewrite ascii_app, Forall_cons, IH. reflexivity.
Qed.

Lemma ascii_universal_newlines (s : text) :
  ascii_text s → ascii_text (universal_newlines s).
Proof.
  unfold ascii_text. induction s as [| c s IH]; [done |].
  cbn [forallb universal_newlines]. intros [Hc Hs]%andb_prop.
  case_bool_decide; [destruct (starts_with_LF s) |];
    cbn [forallb]; rewrite ?IH, ?Hc; done.
Qed.

Lemma ascii_splitlines (s : text) :
  ascii_text s → Forall ascii_text (splitlines s).
Proof. intros Hs. apply ascii_concat. by rewrite concat_splitlines. Qed.

Lemma ascii_str (n : N) : ascii_text (str n).
Proof.
  destruct (str_value n) as [_ Hd]. apply forallb_forall. intros c Hc.
  rewrite forallb_forall in Hd. specialize (Hd c Hc).
  unfold is_digit in Hd. apply andb_prop in Hd as [_ Hd].
  apply N.leb_le in Hd. unfold is_ascii. apply N.ltb_lt. lia.
Qed.

Lemma ascii_rjust (width : nat) (s : text) :
  ascii_text s → ascii_text (rjust width s).
Proof.
  intros Hs. unfold rjust. apply ascii_app. split; [| done].
  apply forallb_forall. intros c Hc. apply list_elem_of_In in Hc.
  by apply elem_of_replicate in Hc as [-> _].
Qed.

(** On ASCII text the codec of the locale has no say. *)
Lemma decode_ascii (k : codec) (s : text) :
  ascii_text s → decode k s = Returned s.
Proof. intros Hs. unfold decode. by rewrite Hs. Qed.

Lemma encode_ascii (k : codec) (s : text) : ascii_text s → encode k s = s.
Proof. intros Hs. unfold encode. by rewrite Hs. Qed.

Lemma encode_lines_ascii (k : codec) (ls : list text) :
  Forall ascii_text ls → CCPCanCan.encode_lines k ls = concat ls.
Proof.
  unfold CCPCanCan.encode_lines. induction 1 as [| l ls Hl _ IH]; [reflexivity |].
  cbn [map concat]. by rewrite IH, encode_ascii.
Qed.

End TextFacts.

(** ** Renumbering the merged trace *)

Module RenumberFacts.
Import Py FS CCPCanCan TextFacts Notions Examples.
Local Open Scope py_scope.

Ltac run := ConstructionFacts.run.

Lemma fix_at_lookup (first : nat) (lines : list text) (a i : nat) :
  fix_at first lines a !! i =
    if decide (i = a) then fix_line first a <$> lines !! a else lines !! i.
Proof.
  unfold fix_at. destruct (lines !! a) as [line |] eqn:Ha.
  - destruct (decide (i = a)) as [-> | Hne].
    + rewrite list_lookup_insert_eq; [done |]. by eapply lookup_lt_Some.
    + by rewrite list_lookup_insert_ne.
  - destruct (decide (i = a)) as [-> | Hne]; [by rewrite Ha | done].
Qed.

Lemma fix_at_length (first : nat) (lines : list text) (a : nat) :
  length (fix_at first lines a) = length lines.
Proof.
  unfold fix_at. destruct (lines !! a); [apply length_insert | done].
Qed.

(** The loop over the line numbers [a], ..., [a + n - 1]. *)
Lemma loop_lookup (first n : nat) :
  ∀ (a : nat) (lines : list text) (i : nat),
    foldl (fix_at first) lines (seq a n) !! i =
      if decide (a ≤ i < a + n)%nat then fix_line first i <$> lines !! i
      else lines !! i.
Proof.
  induction n as [| n IH]; intros a lines i.
  - cbn. destruct (decide _); [lia | done].
  - cbn [seq foldl]. rewrite IH, fix_at_lookup.
    destruct (decide (i = a)) as [-> | Hne].
    + destruct (decide (S a ≤ a < S a + n)%nat); [lia |].
      destruct (decide (a ≤ a < a + S n)%nat); [done | lia].
    + destruct (decide (S a ≤ i < S a + n)%nat),
               (decide (a ≤ i < a + S n)%nat); done || lia.
Qed.

Lemma loop_length (first n : nat) :
  ∀ (a : nat) (lines : list text),
    length (foldl (fix_at first) lines (seq a n)) = length lines.
Proof.
  induction n as [| n IH]; intros a lines; [done |].
  cbn [seq foldl]. by rewrite IH, fix_at_length.
Qed.

(** The lines after the loop: those before [first] are the old ones, each
    later one is rebuilt by [fix_line]. *)
Lemma renumber_lookup (first : nat) (lines : list text) (i : nat) :
  renumber first lines !! i =
    if decide (first ≤ i)%nat then fix_line first i <$> lines !! i
    else lines !! i.
Proof.
  unfold renumber. change (foldl _ lines) with (foldl (fix_at first) lines).
  rewrite loop_lookup.
  destruct (decide (first ≤ i)%nat) as [Hi | Hi].
  - destruct (decide _) as [_ | Hout]; [done |].
    rewrite (lookup_ge_None_2 lines i) by lia. done.
  - destruct (decide _); [lia | done].
Qed.

Lemma renumber_length (first : nat) (lines : list text) :
  length (renumber first lines) = length lines.
Proof. apply loop_length. Qed.

(** The rebuilt line is no shorter than the old one. *)
Lemma fix_line_length (first i : nat) (line : text) :
  (length line ≤ length (fix_line first i line))%nat.
Proof.
  unfold fix_line. rewrite length_app, rjust_length, length_drop.
  unfold message_nb_index. lia.
Qed.

(** Below ten millions the number fills the seven columns and the rest of
    the line stays where it was. *)
Lemma fix_line_fields (first i : nat) (line : text) :
  (N.of_nat (i + 1 - first) < 10000000)%N →
  take 7 (fix_line first i line) = rjust 7 (str (N.of_nat (i + 1 - first))) ∧
  length (rjust 7 (str (N.of_nat (i + 1 - first)))) = 7%nat ∧
  drop 7 (fix_line first i line) = drop 7 line.
Proof.
  intros Hn. unfold fix_line, message_nb_index.
  assert (length (rjust 7 (str (N.of_nat (i + 1 - first)))) = 7%nat) as Hlen.
  { rewrite rjust_length. pose proof (str_length _ Hn). lia. }
  repeat split.
  - by rewrite take_app_length'.
  - exact Hlen.
  - by rewrite drop_app_length'.
Qed.

(** A terminated line with seven characters before its line feed stays
    terminated. *)
Lemma fix_line_terminated (first i : nat) (line : text) :
  is_terminated line = true → (8 ≤ length line)%nat →
  is_terminated (fix_line first i line) = true.
Proof.
  intros Hline Hlen. apply is_terminated_inv in Hline as (body & -> & Hbody).
  rewrite length_app in Hlen. cbn in Hlen.
  unfold fix_line, message_nb_index.
  rewrite drop_app_le by lia. rewrite app_assoc.
  apply is_terminated_intro. apply Forall_app. split.
  - apply rjust_plain, str_plain.
  - by apply Forall_drop.
Qed.

Lemma concat_length_le (xs ys : list text) :
  Forall2 (λ x y, (length x ≤ length y)%nat) xs ys →
  (length (concat xs) ≤ length (concat ys))%nat.
Proof.
  induction 1 as [| x y xs ys Hxy _ IH]; [done |].
  cbn. rewrite !length_app. lia.
Qed.

(** What is written is no shorter than what was read. *)
Lemma renumber_grows (first : nat) (lines : list text) :
  (length (concat lines) ≤ length (concat (renumber first lines)))%nat.
Proof.
  apply concat_length_le. apply Forall2_same_length_lookup_2.
  - by rewrite renumber_length.
  - intros i x y Hx Hy. rewrite renumber_lookup, Hx in Hy.
    destruct (decide _); cbn in Hy; injection Hy as <-;
      [apply fix_line_length | done].
Qed.

(** The rebuilt lines of ASCII lines are ASCII. *)
Lemma fix_line_ascii (first i : nat) (line : text) :
  ascii_text line → ascii_text (fix_line first i line).
Proof.
  intros Hline. unfold fix_line. apply ascii_app. split.
  - apply ascii_rjust, ascii_str.
  - by apply ascii_drop.
Qed.

Lemma renumber_ascii (first : nat) (lines : list text) :
  Forall ascii_text lines → Forall ascii_text (renumber first lines).
Proof.
  intros Hlines. apply Forall_lookup. intros i l' Hl'.
  rewrite renumber_lookup in Hl'.
  destruct (decide (first ≤ i)%nat) as [Hi | Hi].
  - destruct (lines !! i) as [l |] eqn:Hl; [| done]. injection Hl' as <-.
    apply fix_line_ascii. exact (Forall_lookup_1 _ lines i l Hlines Hl).
  - exact (Forall_lookup_1 _ lines i l' Hlines Hl').
Qed.

Lemma written_lines_ascii (c : text) :
  ascii_text c → Forall ascii_text (written_lines c).
Proof.
  intros Hc. apply renumber_ascii, ascii_splitlines.
  by apply ascii_universal_newlines.
Qed.

(** [_fix_message_numbers] on a file of ASCII text. *)
Lemma fix_message_numbers_run (merged_trace : string) (w : world) (f : file) :
  disk w !! merged_trace = Some f →
  ascii_text (content f) →
  let written := concat (written_lines (content f)) in
  ∃ f', _fix_message_numbers merged_trace first_message_line w =
          (Returned tt,
           mkWorld (self w) (<[merged_trace := f']> (disk w)) (log w)
             (submitted w) (clock w) (encoding w)) ∧
        content f' = written ++ drop (length written) (content f).
Proof.
  intros Hf Hascii written. unfold _fix_message_numbers. run. rewrite Hf.
  rewrite (decode_ascii _ _ Hascii). cbv beta iota.
  fold (written_lines (content f)).
  rewrite (encode_lines_ascii _ _ (written_lines_ascii _ Hascii)).
  fold written.
  destruct (bool_decide (written = [])) eqn:Hw.
  - apply bool_decide_eq_true in Hw. exists f. split.
    + rewrite insert_id by done. by destruct w.
    + by rewrite Hw.
  - eexists (mkFile _ _). split; reflexivity.
Qed.





End RenumberFacts.

(** ** The trace merger *)

Module MergeFacts.
Import Py FS CCPCanCan TextFacts RenumberFacts Notions Examples.
Local Open Scope py_scope.

Ltac run := ConstructionFacts.run.

(** *** Enumeration, sorting and selection *)

Lemma elem_of_glob_trc (d : gmap string file) (n : string) :
  n ∈ glob_trc d ↔ is_trc n = true ∧ is_Some (d !! n).
Proof.
  unfold glob_trc. rewrite list_elem_of_In, filter_In, <- list_elem_of_In.
  rewrite list_elem_of_fmap. split.
  - intros [[[k f] [-> Hin]] Htrc]. split; [done |].
    apply elem_of_map_to_list in Hin. eauto.
  - intros [Htrc [f Hf]]. split; [| done].
    exists (n, f). split; [done |]. by apply elem_of_map_to_list.
Qed.

Lemma NoDup_glob_trc (d : gmap string file) : NoDup (glob_trc d).
Proof.
  unfold glob_trc. apply NoDup_ListNoDup, List.NoDup_filter, NoDup_ListNoDup.
  apply NoDup_fst_map_to_list.
Qed.

Lemma insert_by_Permutation {A} (key : A → Z) (x : A) (l : list A) :
  insert_by key x l ≡ₚ x :: l.
Proof.
  induction l as [| y l IH]; [done |]. cbn.
  destruct (key x <=? key y)%Z; [done |].
  rewrite IH. apply Permutation_swap.
Qed.

Lemma sorted_Permutation {A} (key : A → Z) (l : list A) : sorted key l ≡ₚ l.
Proof.
  induction l as [| x l IH]; [done |]. cbn.
  by rewrite insert_by_Permutation, IH.
Qed.

Lemma insert_by_ascending {A} (key : A → Z) (x : A) (l : list A) :
  ascending key l → ascending key (insert_by key x l).
Proof.
  induction 1 as [| y l Hl IH Hy]; cbn.
  - repeat constructor.
  - destruct (key x <=? key y)%Z eqn:Hxy.
    + apply Z.leb_le in Hxy. constructor.
      * by constructor.
      * constructor; [done |].
        eapply Forall_impl; [exact Hy |]. cbn. lia.
    + apply Z.leb_gt in Hxy. constructor; [done |].
      rewrite insert_by_Permutation. constructor; [lia | done].
Qed.

Lemma sorted_ascending {A} (key : A → Z) (l : list A) :
  ascending key (sorted key l).
Proof.
  induction l as [| x l IH]; [constructor |]. by apply insert_by_ascending.
Qed.

(** In an ascending list, what precedes is no greater than what follows. *)
Lemma ascending_app {A} (key : A → Z) (l1 l2 : list A) :
  ascending key (l1 ++ l2) →
  ∀ x y, x ∈ l1 → y ∈ l2 → (key x ≤ key y)%Z.
Proof.
  induction l1 as [| a l1 IH]; intros Hs x y Hx Hy.
  - by apply elem_of_nil in Hx.
  - cbn in Hs. apply StronglySorted_inv in Hs as [Hs Ha].
    apply elem_of_cons in Hx as [-> | Hx].
    + rewrite Forall_forall in Ha. apply Ha.
      apply elem_of_app. by right.
    + by apply IH.
Qed.

(** For a positive count, the slice is the last [k] elements, or all of
    them when there are fewer. *)
Lemma slice_last_positive {A} (k : nat) (l : list A) :
  (0 < k)%nat →
  take (length l - k) l ++ slice_last k l = l ∧
  length (slice_last k l) = k `min` length l.
Proof.
  intros Hk. destruct k as [| k]; [lia |]. cbn [slice_last]. split.
  - apply take_drop.
  - rewrite length_drop. lia.
Qed.

Lemma slice_last_sublist {A} (k : nat) (l : list A) :
  ∃ ignored, ignored ++ slice_last k l = l.
Proof.
  destruct k as [| k].
  - by exists [].
  - eexists. apply take_drop.
Qed.

Lemma eligible_NoDup (w : world) : NoDup (eligible w).
Proof.
  unfold eligible.
  destruct (slice_last_sublist (trc_count (self w))
              (sorted (getmtime (disk w)) (glob_trc (disk w))))
    as [ignored Hsplit].
  assert (NoDup (ignored ++ slice_last (trc_count (self w))
                   (sorted (getmtime (disk w)) (glob_trc (disk w))))) as Hnd.
  { rewrite Hsplit, sorted_Permutation. apply NoDup_glob_trc. }
  by apply NoDup_app in Hnd as (_ & _ & Hnd).
Qed.

Lemma eligible_exists (w : world) (n : string) :
  n ∈ eligible w → is_trc n = true ∧ is_Some (disk w !! n).
Proof.
  unfold eligible. intros Hn. apply elem_of_glob_trc.
  rewrite <- (sorted_Permutation (getmtime (disk w))).
  destruct (slice_last_sublist (trc_count (self w))
              (sorted (getmtime (disk w)) (glob_trc (disk w))))
    as [ignored Hsplit].
  rewrite <- Hsplit. apply elem_of_app. by right.
Qed.

(** For a positive count [K], the merger takes [K] traces, or all of them
    when there are fewer; they are traces of the directory, each once, and
    no trace that is left out was modified after a trace that is taken. *)
Lemma eligible_most_recent (w : world) :
  (0 < trc_count (self w))%nat →
  length (eligible w) = trc_count (self w) `min` length (glob_trc (disk w)) ∧
  NoDup (eligible w) ∧
  (∀ n, n ∈ eligible w → n ∈ glob_trc (disk w)) ∧
  (∀ n m, n ∈ eligible w → m ∈ glob_trc (disk w) → m ∉ eligible w →
          (getmtime (disk w) m ≤ getmtime (disk w) n)%Z).
Proof.
  intros HK.
  pose proof (slice_last_positive (trc_count (self w))
                (sorted (getmtime (disk w)) (glob_trc (disk w))) HK)
    as [Hsplit Hlen].
  fold (eligible w) in Hsplit, Hlen.
  rewrite (Permutation_length (sorted_Permutation _ _)) in Hlen.
  split; [exact Hlen |]. split; [apply eligible_NoDup |]. split.
  - intros n Hn. apply elem_of_glob_trc. by apply eligible_exists.
  - intros n m Hn Hm Hout.
    eapply (ascending_app (getmtime (disk w)) _ (eligible w)).
    + rewrite Hsplit. apply sorted_ascending.
    + rewrite <- (sorted_Permutation (getmtime (disk w))), <- Hsplit in Hm.
      apply elem_of_app in Hm as [Hm | Hm]; done.
    + exact Hn.
Qed.

(** *** The file operations *)

Lemma with_disk_id (w : world) : with_disk w (disk w) = w.
Proof. by destruct w. Qed.

Lemma read_lines_run (w : world) (d : gmap string file) (name : string)
    (f : file) :
  d !! name = Some f →
  ascii_text (content f) →
  read_lines name (with_disk w d) = (Returned (lines_of d name), with_disk w d).
Proof.
  intros Hf Hascii. unfold read_lines, lines_of. run. cbn [disk with_disk].
  rewrite Hf, (decode_ascii _ _ Hascii). reflexivity.
Qed.

Lemma append_lines_run (w : world) (d : gmap string file) (name : string)
    (f : file) (lines : list text) :
  d !! name = Some f →
  Forall ascii_text lines →
  ∃ f', append_lines name lines (with_disk w d)
          = (Returned tt, with_disk w (<[name := f']> d)) ∧
        content f' = content f ++ concat lines.
Proof.
  intros Hf Hascii. unfold append_lines. run. cbn [disk with_disk].
  rewrite Hf, (encode_lines_ascii _ _ Hascii).
  destruct (bool_decide (concat lines = [])) eqn:Hnil.
  - apply bool_decide_eq_true in Hnil. exists f.
    rewrite insert_id by done. by rewrite Hnil, app_nil_r.
  - eexists (mkFile _ _). split; reflexivity.
Qed.

(** The lines of an ASCII file after its header are ASCII. *)
Lemma body_of_ascii (d : gmap string file) (name : string) (f : file) :
  d !! name = Some f → ascii_text (content f) →
  Forall ascii_text (body_of d name).
Proof.
  intros Hf Hascii. unfold body_of, lines_of. rewrite Hf.
  apply Forall_drop, ascii_splitlines. by apply ascii_universal_newlines.
Qed.

Lemma remove_run (w : world) (d : gmap string file) (name : string) (f : file) :
  d !! name = Some f →
  remove name (with_disk w d) = (Returned tt, with_disk w (delete name d)).
Proof.
  intros Hf. unfold remove. run. cbn [disk with_disk]. by rewrite Hf.
Qed.

Lemma rename_run (w : world) (d : gmap string file) (src dst : string)
    (f : file) :
  d !! src = Some f →
  rename src dst (with_disk w d)
    = (Returned tt, with_disk w (<[dst := f]> (delete src d))).
Proof.
  intros Hf. unfold rename. run. cbn [disk with_disk]. by rewrite Hf.
Qed.

(** The loop appends the bodies in order to the result and removes the
    traces that it has read. *)
Lemma append_all_run (w : world) (result_trace : string)
    (list_of_traces : list string) :
  ∀ (d : gmap string file) (fr : file),
    NoDup list_of_traces →
    result_trace ∉ list_of_traces →
    d !! result_trace = Some fr →
    (∀ s, s ∈ list_of_traces → ascii_entry d s) →
    ∃ d' fr',
      append_all result_trace list_of_traces (with_disk w d)
        = (Returned tt, with_disk w d') ∧
      d' !! result_trace = Some fr' ∧
      content fr' =
        content fr ++ concat (concat (map (body_of d) list_of_traces)) ∧
      (∀ s, s ∈ list_of_traces → d' !! s = None) ∧
      (∀ x, x ≠ result_trace → x ∉ list_of_traces → d' !! x = d !! x).
Proof.
  induction list_of_traces as [| s rest IH]; intros d fr Hnd Hr Hfr Hex.
  - exists d, fr. cbn. rewrite app_nil_r. repeat split; try done.
    intros s Hs. by apply elem_of_nil in Hs.
  - apply NoDup_cons in Hnd as [Hs Hnd].
    apply not_elem_of_cons in Hr as [Hrs Hr].
    destruct (Hex s) as (fs & Hfs & Hafs); [by left |].
    destruct (append_lines_run w d result_trace fr (body_of d s) Hfr
                (body_of_ascii d s fs Hfs Hafs))
      as (fr1 & Happend & Hfr1).
    set (d1 := <[result_trace := fr1]> d) in *.
    assert (d1 !! s = Some fs) as Hfs1
      by (unfold d1; by rewrite lookup_insert_ne).
    set (d2 := delete s d1).
    assert (d2 !! result_trace = Some fr1) as Hfr2.
    { unfold d2, d1. rewrite lookup_delete_ne by done.
      apply lookup_insert_eq. }
    assert (∀ x, x ≠ s → x ≠ result_trace → d2 !! x = d !! x) as Hsame.
    { intros x Hxs Hxr. unfold d2, d1.
      rewrite lookup_delete_ne by done. by rewrite lookup_insert_ne. }
    destruct (IH d2 fr1 Hnd Hr Hfr2) as (d' & fr' & Hrun & Hfr' & Hc & Hgone & Hrest).
    { intros x Hx. destruct (Hex x) as (fx & Hfx & Hafx); [by right |].
      exists fx. split; [| done]. rewrite Hsame; [done | |]; set_solver. }
    exists d', fr'. split; [| split; [| split; [| split]]].
    + unfold append_all in *. cbn [for_each]. unfold bind at 1.
      unfold bind at 1. rewrite (read_lines_run w d s fs Hfs Hafs).
      unfold bind at 1. fold (body_of d s). rewrite Happend.
      fold d1. rewrite (remove_run w d1 s fs Hfs1). fold d2. exact Hrun.
    + exact Hfr'.
    + rewrite Hc, Hfr1. cbn [map concat]. rewrite !concat_app, <- !app_assoc.
      do 2 f_equal. f_equal. f_equal.
      apply map_ext_in. intros x Hx. apply list_elem_of_In in Hx.
      unfold body_of, lines_of. rewrite Hsame; [done | | ]; set_solver.
    + intros x Hx. apply elem_of_cons in Hx as [-> | Hx]; [| by apply Hgone].
      rewrite Hrest; [| done | done]. unfold d2. apply lookup_delete_eq.
    + intros x Hxr Hx. apply not_elem_of_cons in Hx as [Hxs Hx].
      rewrite Hrest by done. by apply Hsame.
Qed.

Lemma bodies_ascii (d : gmap string file) (l : list string) :
  (∀ s, s ∈ l → ascii_entry d s) →
  ascii_text (concat (concat (map (body_of d) l))).
Proof.
  intros Hl. apply ascii_concat, Forall_concat, Forall_map, Forall_forall.
  intros s Hs. destruct (Hl s Hs) as (f & Hf & Haf).
  by apply (body_of_ascii d s f).
Qed.

(** *** The merge as a whole *)

(** Without a trace to take, the merge logs a warning, returns, and leaves
    the directory as it is. *)
Lemma merge_nothing (w : world) (tn : option string) :
  trace_name (self w) = Assigned tn →
  eligible w = [] →
  _merge_trc w =
    (Returned tt,
     mkWorld (self w) (disk w) (log w ++ [(WARNING, "No trace to merge")])
       (submitted w) (clock w) (encoding w)).
Proof.
  intros Htn Hel. unfold _merge_trc. unfold bind at 1, get. cbn beta iota.
  fold (eligible w). rewrite Hel, Htn. destruct tn; reflexivity.
Qed.

(** A directory without traces has none to take, whatever the count. *)
Lemma eligible_empty (w : world) : glob_trc (disk w) = [] → eligible w = [].
Proof.
  intros Hglob. unfold eligible. rewrite Hglob. cbn.
  by destruct (trc_count (self w)).
Qed.

(** With traces of ASCII text to take, and a configured name that is not
    the one of a later trace, the merge returns: the result holds the
    first trace,
    followed by the bodies of the later ones, renumbered; the later
    traces are gone, and so is the first one under its old name when the
    result has another name; no other file changes. *)
Lemma merge_run (w : world) (tn : option string) (target : string)
    (others : list string) :
  trace_name (self w) = Assigned tn →
  eligible w = target :: others →
  (∀ n, tn = Some n → n ∉ others) →
  (∀ s, s ∈ target :: others → ascii_entry (disk w) s) →
  ∃ (ft fr out : file) (d' : gmap string file),
    disk w !! target = Some ft ∧
    _merge_trc w = (Returned tt, with_disk w d') ∧
    d' !! result_name tn target = Some out ∧
    content fr = content ft ++ concat (concat (map (body_of (disk w)) others)) ∧
    content out =
      concat (written_lines (content fr)) ++
      drop (length (concat (written_lines (content fr)))) (content fr) ∧
    (∀ s, s ∈ target :: others → s ≠ result_name tn target → d' !! s = None) ∧
    (∀ x, x ∉ target :: others → x ≠ result_name tn target →
          d' !! x = disk w !! x).
Proof.
  intros Htn Hel Hname Hascii.
  pose proof (eligible_NoDup w) as Hnd. rewrite Hel in Hnd.
  apply NoDup_cons in Hnd as [Htarget Hnd].
  destruct (Hascii target) as (ft & Hft & Haft); [by left |].
  set (r := result_name tn target).
  (* the directory once the first trace carries the name of the result *)
  set (d1 := match tn with
             | Some n => <[n := ft]> (delete target (disk w))
             | None => disk w
             end).
  assert (d1 !! r = Some ft) as Hr1.
  { unfold d1, r. destruct tn as [n |]; [apply lookup_insert_eq | done]. }
  assert (r ∉ others) as Hr.
  { unfold r. destruct tn as [n |]; [by apply Hname | done]. }
  assert (∀ x, x ≠ target → x ≠ r → d1 !! x = disk w !! x) as Hsame1.
  { intros x Hxt Hxr. unfold d1, r in *. destruct tn as [n |]; [| done].
    rewrite lookup_insert_ne by done. by apply lookup_delete_ne. }
  assert (∀ s, s ∈ others → d1 !! s = disk w !! s) as Hothers.
  { intros s Hs. apply Hsame1; set_solver. }
  assert (∀ s, s ∈ others → ascii_entry d1 s) as Hascii1.
  { intros s Hs. destruct (Hascii s) as (fs & Hfs & Hafs); [by right |].
    exists fs. split; [| done]. by rewrite Hothers. }
  destruct (append_all_run w r others d1 ft Hnd Hr Hr1 Hascii1)
    as (d2 & fr & Hloop & Hfr & Hcontent & Hgone & Hrest).
  assert (ascii_text (content fr)) as Hafr.
  { rewrite Hcontent. apply ascii_app. split; [done |].
    by apply bodies_ascii. }
  destruct (fix_message_numbers_run r (with_disk w d2) fr Hfr Hafr)
    as (out & Hfix & Hout).
  exists ft, fr, out, (<[r := out]> d2).
  split; [exact Hft |]. split; [| split; [| split; [| split; [| split]]]].
  - unfold _merge_trc. unfold bind at 1, get. cbn beta iota.
    fold (eligible w). rewrite Hel, Htn. cbn [tail].
    assert (match tn with
            | Some n => rename target n ;; ret n
            | None => ret target
            end w = (Returned r, with_disk w d1)) as Hstart.
    { unfold r, d1. destruct tn as [n |]; cbn [result_name].
      - unfold bind. rewrite <- (with_disk_id w) at 1.
        by rewrite (rename_run w (disk w) target n ft Hft).
      - unfold ret. by rewrite with_disk_id. }
    unfold try_except, bind at 1. rewrite Hstart.
    fold (append_all r others). unfold bind at 1. rewrite Hloop, Hfix.
    reflexivity.
  - apply lookup_insert_eq.
  - rewrite Hcontent. do 3 f_equal. apply map_ext_in. intros s Hs.
    apply list_elem_of_In in Hs. unfold body_of, lines_of.
    by rewrite Hothers.
  - exact Hout.
  - intros s Hs Hsr. rewrite lookup_insert_ne by done.
    apply elem_of_cons in Hs as [-> | Hs]; [| by apply Hgone].
    rewrite Hrest by done. unfold d1, r in *. destruct tn as [n |]; [| done].
    rewrite lookup_insert_ne by done. apply lookup_delete_eq.
  - intros x Hx Hxr. apply not_elem_of_cons in Hx as [Hxt Hx].
    rewrite lookup_insert_ne by done. rewrite Hrest by done.
    by apply Hsame1.
Qed.

(** *** Traces in the format of the hardware logger *)

Lemma well_formed_lines (d : gmap string file) (name : string) (f : file) :
  d !! name = Some f → well_formed (content f) = true →
  content f = concat (lines_of d name) ∧
  Forall (λ l, is_terminated l = true) (lines_of d name) ∧
  (33 ≤ length (lines_of d name))%nat ∧
  Forall (λ l : text, (8 ≤ length l)%nat) (body_of d name).
Proof.
  intros Hf Hwf. unfold well_formed in Hwf.
  apply andb_prop in Hwf as [_ Hwf].
  apply andb_prop in Hwf as [Hwf Hlong]. apply andb_prop in Hwf as [Hterm Hlen].
  assert (Forall (λ l, is_terminated l = true) (splitlines (content f)))
    as Hterm'.
  { apply Forall_forall. intros l Hl. rewrite forallb_forall in Hterm.
    apply Hterm. by apply list_elem_of_In. }
  assert (universal_newlines (content f) = content f) as Hplain.
  { apply universal_newlines_plain.
    rewrite <- (concat_splitlines (content f)).
    by apply terminated_lines_no_CR. }
  unfold body_of, lines_of. rewrite Hf, Hplain.
  split; [by rewrite concat_splitlines |]. split; [exact Hterm' |]. split.
  - by apply Nat.leb_le in Hlen.
  - apply Forall_forall. intros l Hl. rewrite forallb_forall in Hlong.
    apply list_elem_of_In, Hlong, Nat.leb_le in Hl. exact Hl.
Qed.

Lemma well_formed_ascii (c : text) : well_formed c = true → ascii_text c.
Proof. unfold well_formed. by intros [Hc _]%andb_prop. Qed.

Lemma segments_ascii (d : gmap string file) (l : list string) :
  (∀ s, s ∈ l → segment_ok d s) → ∀ s, s ∈ l → ascii_entry d s.
Proof.
  intros Hok s Hs. destruct (Hok s Hs) as (f & Hf & Hwf).
  exists f. split; [done | by apply well_formed_ascii].
Qed.

Lemma length_concat_map {A B} (f : A → list B) (l : list A) :
  length (concat (map f l)) = sum_list_with (λ x, length (f x)) l.
Proof.
  induction l as [| x l IH]; [done |]. cbn. by rewrite length_app, IH.
Qed.

(** C2, amended. For every merge that takes at least one trace, where
    every trace taken holds ASCII characters only, is made of lines that
    end in a line feed and hold no other line boundary, has at least 33
    lines, and has seven characters before the line feed in each line
    after the 33rd, and
    where the configured trace name is not the name of a later trace
    taken: the merge returns; the result has 33 lines followed by [N]
    body lines, [N] being the number of lines after the 33rd of the first
    trace plus, for each later trace, its number of lines minus 33; the
    first 33 lines are those of the first trace; and the body line at
    position [j <= 9999999], counted from 1, starts with [j] padded on
    the left to seven characters, a field that reads as the number [j],
    and goes on like the line of the merged bodies at that position. *)
Theorem merged_trace_is_renumbered (w : world) (tn : option string)
    (target : string) (others : list string) :
  trace_name (self w) = Assigned tn →
  eligible w = target :: others →
  (∀ n, tn = Some n → n ∉ others) →
  (∀ s, s ∈ target :: others → segment_ok (disk w) s) →
  let N := (length (lines_of (disk w) target) - 33 +
            sum_list_with (λ s, length (lines_of (disk w) s) - 33) others)%nat in
  ∃ w' out,
    _merge_trc w = (Returned tt, w') ∧
    disk w' !! result_name tn target = Some out ∧
    let out_lines := splitlines (universal_newlines (content out)) in
    length (drop 33 out_lines) = N ∧
    take 33 out_lines = take 33 (lines_of (disk w) target) ∧
    length (take 33 out_lines) = 33%nat ∧
    ∀ j line, drop 33 out_lines !! j = Some line →
      (N.of_nat (j + 1) < 10000000)%N →
      take 7 line = rjust 7 (str (N.of_nat (j + 1))) ∧
      read_number (take 7 line) = Some (N.of_nat (j + 1)) ∧
      ∃ old, (body_of (disk w) target ++
              concat (map (body_of (disk w)) others)) !! j = Some old ∧
             drop 7 line = drop 7 old.
Proof.
  intros Htn Hel Hname Hok N.
  destruct (merge_run w tn target others Htn Hel Hname
              (segments_ascii _ _ Hok))
    as (ft & fr & out & d' & Hft & Hrun & Hout & Hfr & Hcontent & _).
  (* the lines of the first trace and the bodies of the later ones *)
  destruct (Hok target) as (ft' & Hft' & Hwf); [by left |].
  rewrite Hft in Hft'. injection Hft' as <-.
  destruct (well_formed_lines _ _ _ Hft Hwf) as (Hct & Htt & Hlt & Hbt).
  set (Lt := lines_of (disk w) target) in *.
  set (bodies := concat (map (body_of (disk w)) others)).
  assert (Forall (λ l, is_terminated l = true) bodies ∧
          Forall (λ l : text, (8 ≤ length l)%nat) bodies) as [Htb Hbb].
  { unfold bodies. clear -Hok.
    assert (∀ s, s ∈ others → segment_ok (disk w) s) as Hok'
      by (intros s Hs; apply Hok; by right).
    clear Hok. induction others as [| s rest IH]; [by split |].
    destruct (Hok' s) as (f & Hf & Hwf); [by left |].
    destruct (well_formed_lines _ _ _ Hf Hwf) as (_ & Ht & _ & Hb).
    destruct IH as [IH1 IH2]; [intros x Hx; apply Hok'; by right |].
    cbn [map concat]. split; apply Forall_app; split; try done.
    by apply Forall_drop. }
  set (Lm := Lt ++ bodies).
  assert (Forall (λ l, is_terminated l = true) Lm) as Htm
    by (apply Forall_app; by split).
  assert (content fr = concat Lm) as Hfr'.
  { rewrite Hfr, Hct. unfold Lm. by rewrite concat_app. }
  assert (drop 33 Lm = body_of (disk w) target ++ bodies) as Hdrop.
  { unfold Lm. rewrite drop_app_le by done. reflexivity. }
  assert (written_lines (content fr) = renumber 33 Lm) as Hwritten.
  { unfold written_lines. by rewrite Hfr', read_back. }
  assert (Forall (λ l, is_terminated l = true) (renumber 33 Lm)) as Htr.
  { apply Forall_lookup. intros i l' Hl'. rewrite renumber_lookup in Hl'.
    destruct (decide (33 ≤ i)%nat) as [Hi | Hi].
    - destruct (Lm !! i) as [l |] eqn:Hl; [| done]. injection Hl' as <-.
      apply fix_line_terminated.
      + exact (Forall_lookup_1 _ Lm i l Htm Hl).
      + assert (drop 33 Lm !! (i - 33)%nat = Some l) as Hl2.
        { rewrite lookup_drop. by replace (33 + (i - 33))%nat with i by lia. }
        rewrite Hdrop in Hl2.
        refine (Forall_lookup_1 (λ l : text, (8 ≤ length l)%nat) _ _ l _ Hl2).
        apply Forall_app. by split.
    - exact (Forall_lookup_1 _ Lm i l' Htm Hl'). }
  assert (splitlines (universal_newlines (content out)) = renumber 33 Lm)
    as Hlines.
  { rewrite Hcontent, Hwritten, Hfr'.
    rewrite (drop_ge (concat Lm)) by apply renumber_grows.
    rewrite app_nil_r. by apply read_back. }
  exists (with_disk w d'), out. split; [exact Hrun |]. split; [exact Hout |].
  cbn zeta. rewrite Hlines.
  split; [| split; [| split]].
  - rewrite length_drop, renumber_length. unfold Lm, N, bodies.
    rewrite length_app, length_concat_map.
    assert (sum_list_with (λ x, length (body_of (disk w) x)) others =
            sum_list_with (λ s, (length (lines_of (disk w) s) - 33)%nat) others)
      as ->.
    { clear. induction others as [| x l IH]; [done |]. cbn [sum_list_with].
      rewrite IH. unfold body_of. rewrite length_drop. reflexivity. }
    lia.
  - apply list_eq. intros i. rewrite !lookup_take.
    destruct (decide (i < 33)%nat) as [Hi | Hi]; [| done].
    rewrite renumber_lookup. destruct (decide _); [lia |].
    unfold Lm. apply lookup_app_l. lia.
  - rewrite length_take, renumber_length. unfold Lm. rewrite length_app. lia.
  - intros j line Hj Hn. rewrite lookup_drop, renumber_lookup in Hj.
    destruct (decide _); [| lia].
    destruct (Lm !! (33 + j)%nat) as [old |] eqn:Hold; [| done].
    injection Hj as <-.
    replace (N.of_nat (j + 1)) with (N.of_nat (33 + j + 1 - 33)) in * by lia.
    destruct (fix_line_fields 33 (33 + j) old Hn) as (Htake & _ & Hdrop7).
    split; [exact Htake |].
    split.
    { etrans; [| apply (read_number_rjust 7)]. f_equal. exact Htake. }
    exists old. split; [| exact Hdrop7].
    fold bodies. rewrite <- Hdrop, lookup_drop. exact Hold.
Qed.

(** *** Directories to run the merge on *)

Lemma merged_trace_is_renumbered_witness :
  ∃ w' out,
    _merge_trc (teardown (Some "log.trc") 2 three_traces) = (Returned tt, w') ∧
    disk w' !! "log.trc" = Some out ∧
    length (drop 33 (splitlines (universal_newlines (content out)))) = 4%nat.
Proof.
  destruct (merged_trace_is_renumbered (teardown (Some "log.trc") 2 three_traces)
              (Some "log.trc") "a.trc" ["b.trc"])
    as (w' & out & Hrun & Hout & Hcount & _).
  - reflexivity.
  - vm_compute. reflexivity.
  - intros n [= <-] Hin. apply list_elem_of_In in Hin.
    destruct Hin as [Hin | []]. discriminate Hin.
  - intros s Hs. apply list_elem_of_In in Hs.
    destruct Hs as [<- | [<- | []]]; eexists;
      (split; [vm_compute; reflexivity | vm_compute; reflexivity]).
  - exists w', out. split; [exact Hrun |]. split; [exact Hout |].
    rewrite Hcount. vm_compute. reflexivity.
Defined.

(** C2, as stated, fails. With an empty line in the body of the first
    trace (35 lines, then a trace of 34 lines), the merge returns and the
    result has 2 body lines, not 2 + 1. With a first trace whose last
    line is not terminated, the same. With three traces of 34, 35 and 35
    lines and a configured name that is the name of the second one, the
    merge returns and the result has no body line at all. *)
Lemma merge_miscounts :
  (let w := teardown None 2 traces_with_empty_line in
   eligible w = ["a.trc"; "b.trc"] ∧
   fst (_merge_trc w) = Returned tt ∧
   length (lines_of (disk w) "a.trc") = 35%nat ∧
   length (lines_of (disk w) "b.trc") = 34%nat ∧
   length (body_of (disk (snd (_merge_trc w))) "a.trc") = 2%nat) ∧
  (let w := teardown None 2 traces_with_open_end in
   eligible w = ["a.trc"; "b.trc"] ∧
   fst (_merge_trc w) = Returned tt ∧
   length (lines_of (disk w) "a.trc") = 35%nat ∧
   length (lines_of (disk w) "b.trc") = 34%nat ∧
   length (body_of (disk (snd (_merge_trc w))) "a.trc") = 2%nat) ∧
  (let w := teardown (Some "a.trc") 3 three_traces in
   eligible w = ["old.trc"; "a.trc"; "b.trc"] ∧
   fst (_merge_trc w) = Returned tt ∧
   length (lines_of (disk w) "old.trc") = 34%nat ∧
   length (lines_of (disk w) "a.trc") = 35%nat ∧
   length (lines_of (disk w) "b.trc") = 35%nat ∧
   length (body_of (disk (snd (_merge_trc w))) "a.trc") = 0%nat).
Proof. vm_compute. repeat split. Qed.

(** C1 does not hold of the code when the count is zero: with two traces
    in the directory and no trace configured, the merger takes both, and
    the merge appends the body of the second to the first and removes the
    second, without a warning. *)
Theorem merge_with_zero_count_takes_every_trace :
  let w := teardown None 0 (take 2 three_traces) in
  trc_count (self w) = 0%nat ∧
  eligible w = ["a.trc"; "b.trc"] ∧
  fst (_merge_trc w) = Returned tt ∧
  length (lines_of (disk w) "a.trc") = 35%nat ∧
  length (lines_of (disk (snd (_merge_trc w))) "a.trc") = 37%nat ∧
  is_Some (disk w !! "b.trc") ∧
  disk (snd (_merge_trc w)) !! "b.trc" = None ∧
  log (snd (_merge_trc w)) = [].
Proof. vm_compute. repeat split. eauto. Qed.

End MergeFacts.

(** ** Open and the configuration of the trace *)

Module OpenFacts.
Import Py PurePath FS CCPCanCan PcanOpen Notions Examples.
Local Open Scope py_scope.

Ltac run :=
  cbv beta iota zeta delta
    [bind ret raise get modify replay try_except try_except_else try_finally
     set_self set_disk log_record submit call_on in_world record_call].

(** [_pcan_set_value] on a channel that holds its PCAN handle. *)
Lemma set_value_run (sdk : open_answers) (handle : Z) (p : constant)
    (b : buffer) (s : session) (h : PCANBasic) :
  provided_for sdk →
  raw_pcan_interface (self (ambient s)) = Some h →
  _pcan_set_value sdk handle p b s =
    if accepted sdk p then (Returned tt, called s (mkCall handle p b))
    else (Raised RuntimeError,
          noted (called s (mkCall handle p b)) ERROR_ (refusal sdk p)).
Proof.
  intros (Hset & Htext & _) Hraw. unfold _pcan_set_value, accepted, refusal.
  run. cbn [ambient]. rewrite Hraw. cbn [ambient SetValue_calls].
  destruct (answer_SetValue sdk p) as [result | e] eqn:Hanswer.
  - case_bool_decide as Hok; cbn [negb]; [reflexivity |].
    cbn [ambient SetValue_calls]. rewrite Hraw. specialize (Htext result).
    destruct (answer_GetErrorText sdk result) as [answer | e]; [| discriminate].
    reflexivity.
  - rewrite (Hset p e Hanswer). reflexivity.
Qed.

Lemma note_run (s : session) (l : level) (message : string) :
  in_world (log_record l message) s = (Returned tt, noted s l message).
Proof. reflexivity. Qed.

(** A session whose channel has counted one more trace. *)
Lemma count_run (s : session) :
  in_world (set_self (λ o, set_trc_count (trc_count o + 1) o)) s =
    (Returned tt,
     mkSession
       (mkWorld (set_trc_count (trc_count (self (ambient s)) + 1)
                   (self (ambient s)))
          (disk (ambient s)) (log (ambient s)) (submitted (ambient s))
          (clock (ambient s)) (encoding (ambient s)))
       (SetValue_calls s)).
Proof. reflexivity. Qed.

(** One step of the configuration: set a parameter, on a session whose
    channel holds its PCAN handle. *)
Ltac set_value_step Hp Hraw :=
  rewrite (set_value_run _ _ _ _ _ _ Hp) by exact Hraw;
  match goal with
  | |- context [if accepted ?sdk ?p then (Returned tt, _) else _] =>
      let Ha := fresh "Ha" in
      destruct (accepted sdk p) eqn:Ha
  end;
  cbv beta iota.

Lemma configure_run (sdk : open_answers) (s : session) (h : PCANBasic)
    (handle : Z) :
  let o := self (ambient s) in
  provided_for sdk →
  raw_pcan_interface o = Some h →
  answer_getattr sdk (channel o) = Returned handle →
  ∃ s',
    _pcan_configure_trace sdk s = (Returned tt, s') ∧
    SetValue_calls s' =
      SetValue_calls s ++
      (if folder_ready sdk
       then attempted sdk (planned_calls o (answer_darwin sdk) handle)
       else []) ∧
    self (ambient s') =
      (if configures sdk o handle
       then set_trc_count (trc_count o + 1) o else o) ∧
    disk (ambient s') = disk (ambient s) ∧
    submitted (ambient s') = submitted (ambient s) ∧
    clock (ambient s') = clock (ambient s) ∧
    ∃ l, log (ambient s') = log (ambient s) ++ l ∧
         reported (configures sdk o handle) l.
Proof.
  intros o Hp Hraw Hattr.
  unfold _pcan_configure_trace, path_is_None.
  fold o. unfold bind at 1, get. cbv beta iota. fold o.
  unfold bind at 1, replay. rewrite Hattr. cbv beta iota.
  unfold bind at 1, ret. cbv beta iota.
  unfold configures, folder_ready, planned_calls.
  assert (∀ e, answer_mkdir sdk = Raised e →
               is_RuntimeError e || is_OSError e = true) as Hmkdir.
  { intros e He. destruct Hp as (_ & _ & Hos). rewrite (Hos e He).
    apply orb_true_r. }
  destruct (answer_exists sdk), (answer_darwin sdk);
    (case_bool_decide as Hsize);
    try (destruct (answer_mkdir sdk) as [[] | e] eqn:Hdir;
         [| specialize (Hmkdir e eq_refl)]);
    cbn [negb orb andb returns app attempted forallb call_parameter];
    unfold try_except, bind, ret, replay; cbv beta iota;
    try rewrite Hmkdir;
    repeat first [ rewrite note_run; cbv beta iota
                 | rewrite count_run; cbv beta iota
                 | set_value_step Hp Hraw ];
    cbn [andb is_RuntimeError orb];
    try (destruct (is_RuntimeError e)); rewrite ?note_run; cbv beta iota;
    (eexists; split; [reflexivity |]);
    cbn [ambient SetValue_calls self disk submitted clock log with_log
         called noted];
    rewrite <- ?app_assoc; cbn [app];
    do 5 (split; [first [reflexivity | symmetry; apply app_nil_r] |]);
    (eexists; split; [rewrite <- ?app_assoc; reflexivity |]);
    cbn [reported andb];
    first [reflexivity
          | split; [reflexivity | repeat constructor; discriminate]].
Qed.

Lemma provided_for_willing : provided_for willing_sdk.
Proof. repeat split; intros; discriminate || reflexivity. Qed.

Lemma provided_for_refusing : provided_for refusing_sdk.
Proof.
  split; [| split].
  - intros p e. cbn. destruct (decide _); discriminate.
  - reflexivity.
  - discriminate.
Qed.

(** X1. [_pcan_set_value] returns exactly when the device answers the OK
    code. In every other case provided for it raises [RuntimeError],
    whatever was raised or answered, after one error record. With a PCAN
    handle it makes exactly the one call; without, none. The channel
    object is left as it is. *)
Theorem set_value_reports (sdk : open_answers) (handle : Z) (p : constant)
    (b : buffer) (s : session) :
  provided_for sdk →
  ∃ s',
    _pcan_set_value sdk handle p b s =
      (if is_Some_bool (raw_pcan_interface (self (ambient s))) && accepted sdk p
       then Returned tt else Raised RuntimeError, s') ∧
    SetValue_calls s' =
      SetValue_calls s ++
      (if is_Some_bool (raw_pcan_interface (self (ambient s)))
       then [mkCall handle p b] else []) ∧
    self (ambient s') = self (ambient s) ∧
    ∃ message,
      log (ambient s') =
        log (ambient s) ++
        (if is_Some_bool (raw_pcan_interface (self (ambient s))) && accepted sdk p
         then [] else [(ERROR_, message)]).
Proof.
  intros Hp. destruct (raw_pcan_interface (self (ambient s))) as [h |] eqn:Hraw.
  - rewrite (set_value_run sdk handle p b s h Hp Hraw). cbn [is_Some_bool andb].
    destruct (accepted sdk p); eexists; (split; [reflexivity |]); cbn.
    + split; [reflexivity |]. split; [reflexivity |].
      exists "". by rewrite app_nil_r.
    + split; [reflexivity |]. split; [reflexivity |]. eexists. reflexivity.
  - unfold _pcan_set_value. run. cbn [ambient]. rewrite Hraw.
    cbn. eexists. split; [reflexivity |]. cbn.
    rewrite app_nil_r. split; [reflexivity |]. split; [reflexivity |].
    eexists. reflexivity.
Qed.

Lemma set_value_reports_witness :
  ∃ s',
    _pcan_set_value refusing_sdk 81 PCAN_TRACE_CONFIGURE
      (Or TRACE_FILE_DATE TRACE_FILE_TIME) open_session
      = (Raised RuntimeError, s') ∧
    length (SetValue_calls s') = 1%nat.
Proof.
  destruct (set_value_reports refusing_sdk 81 PCAN_TRACE_CONFIGURE
              (Or TRACE_FILE_DATE TRACE_FILE_TIME) open_session
              provided_for_refusing) as (s' & Hrun & Hcalls & _).
  exists s'. split; [exact Hrun |]. rewrite Hcalls. reflexivity.
Defined.

(** X2. On a channel that holds its PCAN handle and whose channel name
    is a constant of [PCANBasic], and provided that [SetValue] raises, if
    it does, within [Exception], that [GetErrorText] answers whenever it
    is asked, and that [mkdir] raises, if it does, within [OSError]:
    [_pcan_configure_trace] raises neither for a parameter that the
    device refuses nor for a folder that cannot be made, it returns. The
    count of traces goes up by one exactly when the folder is there and
    every parameter of the configuration was accepted, and stays as it was
    otherwise; nothing else of the object changes, nor does the trace
    directory. *)
Theorem configure_counts_completed_configurations
    (sdk : open_answers) (s : session) (h : PCANBasic) (handle : Z) :
  provided_for sdk →
  raw_pcan_interface (self (ambient s)) = Some h →
  answer_getattr sdk (channel (self (ambient s))) = Returned handle →
  ∃ s',
    _pcan_configure_trace sdk s = (Returned tt, s') ∧
    trc_count (self (ambient s')) =
      (trc_count (self (ambient s)) +
       (if configures sdk (self (ambient s)) handle then 1 else 0))%nat ∧
    set_trc_count (trc_count (self (ambient s))) (self (ambient s')) =
      self (ambient s) ∧
    disk (ambient s') = disk (ambient s) ∧
    submitted (ambient s') = submitted (ambient s).
Proof.
  intros Hp Hraw Hattr.
  destruct (configure_run sdk s h handle Hp Hraw Hattr)
    as (s' & Hrun & _ & Hself & Hdisk & Hsub & _).
  exists s'. split; [exact Hrun |]. rewrite Hself.
  destruct (self (ambient s)) eqn:Ho.
  destruct (configures sdk _ handle); cbn; repeat split; try done; lia.
Qed.

Lemma configure_counts_completed_configurations_witness :
  ∃ s',
    _pcan_configure_trace refusing_sdk open_session = (Returned tt, s') ∧
    trc_count (self (ambient s')) = 1%nat.
Proof.
  destruct (configure_counts_completed_configurations refusing_sdk
              open_session (PCANBasicObject 1) 81 provided_for_refusing
              eq_refl eq_refl) as (s' & Hrun & Hcount & _).
  exists s'. split; [exact Hrun | exact Hcount].
Defined.

Lemma attempted_prefix (sdk : open_answers) (calls : list SetValue_call) :
  attempted sdk calls `prefix_of` calls.
Proof.
  induction calls as [| c calls IH]; [done |]. cbn.
  destruct (accepted sdk (call_parameter c)).
  - by apply prefix_cons.
  - apply prefix_cons, prefix_nil.
Qed.

Lemma attempted_accepted (sdk : open_answers) (calls : list SetValue_call) :
  ∀ i c, attempted sdk calls !! i = Some c →
         (S i < length (attempted sdk calls))%nat →
         accepted sdk (call_parameter c) = true.
Proof.
  induction calls as [| c0 calls IH]; intros i c Hi Hlen; [done |].
  cbn in Hi, Hlen. destruct (accepted sdk (call_parameter c0)) eqn:Ha.
  - destruct i as [| i]; [by injection Hi as <- |].
    apply (IH i c Hi). cbn in Hlen. lia.
  - cbn in Hlen. lia.
Qed.

Lemma attempted_all (sdk : open_answers) (calls : list SetValue_call) :
  attempted sdk calls = calls ↔
  forallb (λ c, accepted sdk (call_parameter c)) (removelast calls) = true.
Proof.
  induction calls as [| c calls IH]; [done |].
  destruct calls as [| c' calls].
  - cbn. by destruct (accepted sdk (call_parameter c)).
  - change (removelast (c :: c' :: calls)) with (c :: removelast (c' :: calls)).
    change (attempted sdk (c :: c' :: calls))
      with (c :: (if accepted sdk (call_parameter c)
                  then attempted sdk (c' :: calls) else [])).
    cbn [forallb].
    destruct (accepted sdk (call_parameter c)); cbn [andb].
    + rewrite <- IH. split; [| by intros ->].
      intros H. exact (f_equal (List.tl (A:=_)) H).
    + split; [by intros [=] | done].
Qed.

(** X3. The calls of [SetValue] that [_pcan_configure_trace] makes are the
    calls of the full configuration, in their order, up to the first one
    that the device does not accept: every call but the last made was
    accepted, and nothing is set after a refusal. When the folder of the
    trace cannot be made, no call is made at all. *)
Theorem configure_stops_at_first_refusal
    (sdk : open_answers) (s : session) (h : PCANBasic) (handle : Z) :
  provided_for sdk →
  raw_pcan_interface (self (ambient s)) = Some h →
  answer_getattr sdk (channel (self (ambient s))) = Returned handle →
  let planned :=
    planned_calls (self (ambient s)) (answer_darwin sdk) handle in
  ∃ made,
    SetValue_calls (snd (_pcan_configure_trace sdk s)) =
      SetValue_calls s ++ made ∧
    made = (if folder_ready sdk then attempted sdk planned else []) ∧
    made `prefix_of` planned ∧
    (∀ i c, made !! i = Some c → (S i < length made)%nat →
            accepted sdk (call_parameter c) = true) ∧
    (made = planned ↔
       folder_ready sdk = true ∧
       forallb (λ c, accepted sdk (call_parameter c)) (removelast planned)
         = true).
Proof.
  intros Hp Hraw Hattr planned.
  destruct (configure_run sdk s h handle Hp Hraw Hattr)
    as (s' & Hrun & Hcalls & _).
  rewrite Hrun. cbn [snd]. eexists. split; [exact Hcalls |]. fold planned.
  split; [reflexivity |].
  destruct (folder_ready sdk).
  - split; [apply attempted_prefix |]. split; [apply attempted_accepted |].
    rewrite attempted_all. tauto.
  - split; [apply prefix_nil |]. split; [done |].
    split; [| by intros []].
    unfold planned, planned_calls. discriminate.
Qed.

Lemma configure_stops_at_first_refusal_witness :
  map call_parameter
      (SetValue_calls (snd (_pcan_configure_trace refusing_sdk open_session)))
    = [PCAN_TRACE_LOCATION; TRACE_FILE_SEGMENTED; PCAN_TRACE_CONFIGURE].
Proof.
  destruct (configure_stops_at_first_refusal refusing_sdk open_session
              (PCANBasicObject 1) 81 provided_for_refusing eq_refl eq_refl)
    as (made & -> & -> & _).
  reflexivity.
Defined.

(** [_cc_open], outcome by outcome of the constructors of the SDK. *)
Lemma open_run (sdk : open_answers) (s : session) :
  let o := self (ambient s) in
  _cc_open sdk s =
    match answer_Bus sdk with
    | Raised e => (Raised e, s)
    | Returned b =>
        if logging_activated o && negb (is_Some_bool (raw_pcan_interface o))
        then
          match answer_PCANBasic sdk with
          | Raised e => (Raised e, with_object s (set_bus (Some b) o))
          | Returned h =>
              _pcan_configure_trace sdk
                (with_object s
                   (set_raw_pcan_interface (Some h) (set_bus (Some b) o)))
          end
        else (Returned tt, with_object s (set_bus (Some b) o))
    end.
Proof.
  destruct s as [[o d l sub c] calls]. cbn zeta. unfold _cc_open. run.
  unfold with_object. cbn [ambient self disk log submitted clock encoding SetValue_calls].
  destruct (answer_Bus sdk) as [b | e]; [| reflexivity].
  cbn [ambient self disk log submitted clock encoding SetValue_calls set_bus
       logging_activated raw_pcan_interface].
  destruct (logging_activated o); [| reflexivity].
  destruct (raw_pcan_interface o); [reflexivity |]. cbn [andb negb is_Some_bool].
  destruct (answer_PCANBasic sdk) as [h | e]; reflexivity.
Qed.

(** X4. An open that fails, fails with what the SDK raised, and leaves behind
    what it had assigned by then: nothing when the bus cannot be made; the
    bus but no PCAN handle when the PCAN object cannot be made; the bus and
    the handle, with no parameter set and no trace counted, when the module
    [PCANBasic] has no constant of the name of the channel. *)
Theorem open_failure_leaves_partial_state (sdk : open_answers) (s : session) :
  let o := self (ambient s) in
  (∀ e, answer_Bus sdk = Raised e → _cc_open sdk s = (Raised e, s)) ∧
  (∀ b e, answer_Bus sdk = Returned b →
          logging_activated o = true → raw_pcan_interface o = None →
          answer_PCANBasic sdk = Raised e →
          _cc_open sdk s = (Raised e, with_object s (set_bus (Some b) o))) ∧
  (∀ b h e, answer_Bus sdk = Returned b →
            logging_activated o = true → raw_pcan_interface o = None →
            answer_PCANBasic sdk = Returned h →
            answer_getattr sdk (channel o) = Raised e →
            _cc_open sdk s =
              (Raised e,
               with_object s
                 (set_raw_pcan_interface (Some h) (set_bus (Some b) o)))).
Proof.
  intros o. rewrite open_run. fold o. repeat split.
  - by intros e ->.
  - intros b e -> -> -> ->. reflexivity.
  - intros b h e -> -> -> -> Hattr. cbn [andb negb is_Some_bool].
    unfold _pcan_configure_trace. run. unfold with_object.
    cbn [ambient self channel set_raw_pcan_interface set_bus].
    fold o. rewrite Hattr. reflexivity.
Qed.

(** X5. An open of a channel that still holds its PCAN handle, or whose
    logging is switched off, only replaces the bus: no PCAN object is
    made, no parameter is set, no trace is counted and nothing is logged,
    whatever the SDK would have answered. *)
Theorem reopen_skips_configuration (sdk : open_answers) (s : session)
    (b : Bus) :
  answer_Bus sdk = Returned b →
  logging_activated (self (ambient s)) = false ∨
    is_Some (raw_pcan_interface (self (ambient s))) →
  _cc_open sdk s =
    (Returned tt, with_object s (set_bus (Some b) (self (ambient s)))).
Proof.
  intros Hbus Hskip. rewrite open_run. cbn zeta. rewrite Hbus.
  destruct Hskip as [-> | [h ->]]; [reflexivity |].
  cbn [is_Some_bool negb]. by rewrite andb_false_r.
Qed.

Lemma reopen_skips_configuration_witness :
  ∃ s', _cc_open refusing_sdk open_session = (Returned tt, s') ∧
        SetValue_calls s' = [] ∧ trc_count (self (ambient s')) = 1%nat.
Proof.
  eexists. split.
  - apply (reopen_skips_configuration refusing_sdk open_session (BusObject 7));
      [reflexivity | right; by eexists].
  - split; reflexivity.
Defined.

(** X28. A configuration of the trace never fails silently. The records that
    [_pcan_configure_trace] adds to the log end with the record that the
    trace is activated, and hold no error record, when the configuration
    went through; they end with the error record that logging is not
    activated in every other case. The count of traces goes up exactly
    when the log ends with the record of the activation. *)
Theorem configuration_failure_is_reported
    (sdk : open_answers) (s : session) (h : PCANBasic) (handle : Z) :
  provided_for sdk →
  raw_pcan_interface (self (ambient s)) = Some h →
  answer_getattr sdk (channel (self (ambient s))) = Returned handle →
  ∃ records,
    log (ambient (snd (_pcan_configure_trace sdk s))) =
      log (ambient s) ++ records ∧
    (configures sdk (self (ambient s)) handle = true →
       last records = Some (INFO, "Trace activated") ∧
       Forall (λ r, fst r ≠ ERROR_) records) ∧
    (configures sdk (self (ambient s)) handle = false →
       last records = Some (ERROR_, "Logging not activated")) ∧
    (trc_count (self (ambient (snd (_pcan_configure_trace sdk s)))) =
       S (trc_count (self (ambient s))) ↔
     last records = Some (INFO, "Trace activated")).
Proof.
  intros Hp Hraw Hattr.
  destruct (configure_run sdk s h handle Hp Hraw Hattr)
    as (s' & Hrun & _ & Hself & _ & _ & _ & records & Hlog & Hreport).
  rewrite Hrun. cbn [snd]. exists records. split; [exact Hlog |].
  rewrite Hself. unfold reported in Hreport.
  destruct (configures sdk (self (ambient s)) handle).
  - destruct Hreport as [Hlast Hclean]. split; [done |]. split; [done |].
    split; [done |]. intros _. cbn. lia.
  - split; [done |]. split; [done |]. split.
    + intros Hcount. lia.
    + rewrite Hreport. discriminate.
Qed.

Lemma configuration_failure_is_reported_witness :
  ∃ records,
    log (ambient (snd (_pcan_configure_trace refusing_sdk open_session)))
      = records ∧
    last records = Some (ERROR_, "Logging not activated").
Proof.
  destruct (configuration_failure_is_reported refusing_sdk open_session
              (PCANBasicObject 1) 81 provided_for_refusing eq_refl eq_refl)
    as (records & Hlog & _ & Hfailed & _).
  exists records. split; [exact Hlog | by apply Hfailed].
Defined.

End OpenFacts.

(** ** The life of a channel: construction, open, close *)

Module LifecycleFacts.
Import Py PurePath FS CCPCanCan PcanOpen Notions Examples.
Local Open Scope py_scope.

Ltac run := OpenFacts.run.

Lemma is_trc_app (stem : string) : is_trc (stem +:+ ".trc") = true.
Proof.
  unfold is_trc, ends_with. rewrite ConstructionFacts.string_length_app.
  change (String.length ".trc") with 4%nat.
  rewrite bool_decide_eq_true_2 by lia.
  replace (String.length stem + 4 - 4)%nat with (String.length stem) by lia.
  rewrite ConstructionFacts.string_drop_app. reflexivity.
Qed.

(** What holds of the object and of the world when [__init__] has
    returned. *)
Lemma init_postcondition (a : arguments) (cwd : Path) (w w' : world) :
  __init__ a cwd w = (Returned tt, w') →
  let o := self w' in
  (0 < trace_size o ≤ 100)%Z ∧
  (trace_size o = arg_trace_size a ∨ trace_size o = 10%Z) ∧
  (∃ tn, trace_name o = Assigned tn ∧
         ∀ n, tn = Some n →
              is_trc n = true ∧ n = name (parse (arg_trace_path a))) ∧
  bus o = None ∧ raw_pcan_interface o = None ∧ trc_count o = 0%nat ∧
  logging_activated o = arg_logging_activated a ∧
  remote_id o = arg_remote_id a ∧
  channel o = arg_channel a ∧
  disk w' = disk w ∧ submitted w' = submitted w ∧
  timeout o = (1 # 1000000)%Q.
Proof.
  intros Hinit.
  destruct (BusState_item (upper (arg_state a))) as [st | e] eqn:Hst.
  2: { unfold __init__ in Hinit. revert Hinit. ConstructionFacts.run.
       rewrite Hst. discriminate. }
  rewrite (ConstructionFacts.init_run a cwd w st Hst),
    ConstructionFacts.initialize_trace_run in Hinit.
  cbn [self disk log submitted clock encoding] in Hinit.
  change (trace_path (fresh a st)) with (parse (arg_trace_path a)) in Hinit.
  change (trace_size (fresh a st)) with (arg_trace_size a) in Hinit.
  assert (∀ n, suffix (parse (arg_trace_path a)) = ".trc" →
               Some (name (parse (arg_trace_path a))) = Some n →
               is_trc n = true ∧ n = name (parse (arg_trace_path a))) as Hname.
  { intros n E [= <-]. split; [| reflexivity].
    apply ConstructionFacts.suffix_trc_iff in E as (stem & _ & ->).
    apply is_trc_app. }
  revert Hinit.
  case_bool_decide as E1; [| case_bool_decide as E2];
    [case_bool_decide as Hz | case_bool_decide as Hz |];
    try match goal with |- context [brs_warning a ?w1] =>
          destruct (ConstructionFacts.brs_warning_run a w1) as [l ->] end;
    intros [= <-]; cbn;
    (split; [lia |]); (split; [auto |]);
    (split; [eexists; split; [reflexivity |]; intros n Hn;
             first [exact (Hname n E1 Hn) | discriminate] |]);
    repeat split.
Qed.

(** The calls of a full configuration set [PCAN_TRACE_SIZE] at most once:
    off macOS, with the size of the object, when that is not 10. *)
Lemma planned_trace_size (o : CCPCanCan.CCPCanCan) (darwin : bool)
    (handle : Z) (c : SetValue_call) :
  c ∈ planned_calls o darwin handle →
  call_parameter c = PCAN_TRACE_SIZE →
  call_buffer c = Integer (trace_size o) ∧ trace_size o ≠ 10%Z ∧
  darwin = false.
Proof.
  unfold planned_calls. intros Hin Hp.
  destruct darwin; [| case_bool_decide as Hsize]; cbn [app] in Hin;
    repeat (apply elem_of_cons in Hin as [-> | Hin]; [try discriminate |]);
    try (by apply elem_of_nil in Hin).
  done.
Qed.

(** X6. Whatever the arguments of a construction that returns, and however
    the open that follows ends: a size that the open hands to the device
    as [PCAN_TRACE_SIZE] lies in (0, 100], is not the default 10, and is
    handed over off macOS only. A size outside that range never reaches
    the device. *)
Theorem trace_size_sent_is_within_bounds
    (a : arguments) (cwd : Path) (w w' : world) (sdk : open_answers)
    (c : SetValue_call) :
  __init__ a cwd w = (Returned tt, w') →
  provided_for sdk →
  c ∈ SetValue_calls (snd (_cc_open sdk (mkSession w' []))) →
  call_parameter c = PCAN_TRACE_SIZE →
  ∃ z, call_buffer c = Integer z ∧ (0 < z ≤ 100)%Z ∧ z ≠ 10%Z ∧
       (z = arg_trace_size a) ∧ answer_darwin sdk = false.
Proof.
  intros Hinit Hp Hin Hparam.
  destruct (init_postcondition a cwd w w' Hinit)
    as (Hrange & Hsize & _ & _ & Hraw & _).
  rewrite OpenFacts.open_run in Hin. cbn zeta in Hin.
  cbn [ambient self] in Hin. rewrite Hraw in Hin. cbn [is_Some_bool negb] in Hin.
  destruct (answer_Bus sdk) as [b | e]; [| by apply elem_of_nil in Hin].
  destruct (logging_activated (self w')); cbn [andb] in Hin;
    [| by apply elem_of_nil in Hin].
  destruct (answer_PCANBasic sdk) as [h | e]; [| by apply elem_of_nil in Hin].
  set (s1 := with_object _ _) in Hin.
  destruct (answer_getattr sdk (channel (self (ambient s1))))
    as [handle | e] eqn:Hattr.
  - destruct (OpenFacts.configure_run sdk s1 h handle Hp eq_refl Hattr)
      as (s' & Hrun & Hcalls & _).
    rewrite Hrun in Hin. cbn [snd] in Hin. rewrite Hcalls in Hin.
    cbn [s1 with_object SetValue_calls app] in Hin.
    destruct (folder_ready sdk); [| by apply elem_of_nil in Hin].
    apply (λ H, elem_of_prefix _ _ _ H (OpenFacts.attempted_prefix sdk _))
      in Hin.
    destruct (planned_trace_size _ _ _ _ Hin Hparam) as (Hbuf & Hne & Hdarwin).
    cbn [s1 with_object ambient self trace_size set_raw_pcan_interface set_bus]
      in Hbuf, Hne.
    exists (trace_size (self w')). repeat split; try done; lia.
  - unfold _pcan_configure_trace in Hin. revert Hin. run.
    rewrite Hattr. cbn [snd]. subst s1. cbn [with_object SetValue_calls].
    intros Hin. by apply elem_of_nil in Hin.
Qed.

Lemma trace_size_sent_is_within_bounds_witness :
  ∃ z, call_buffer (mkCall 81 PCAN_TRACE_SIZE (Integer 50)) = Integer z ∧
       (0 < z ≤ 100)%Z ∧ z ≠ 10%Z.
Proof.
  destruct (trace_size_sent_is_within_bounds sized_arguments (parse "/home")
              blank_world
              (snd (__init__ sized_arguments (parse "/home") blank_world))
              willing_sdk (mkCall 81 PCAN_TRACE_SIZE (Integer 50)))
    as (z & Hbuf & Hrange & Hne & _).
  - reflexivity.
  - exact OpenFacts.provided_for_willing.
  - apply list_elem_of_In. vm_compute. do 2 right. left. reflexivity.
  - reflexivity.
  - exists z. split; [exact Hbuf |]. split; [exact Hrange | exact Hne].
Defined.

(** The settings of the object that the cycle reads do not depend on the
    count of traces. *)
Lemma completes_count (o : CCPCanCan.CCPCanCan) (n : nat)
    (a : open_answers * close_answers) :
  completes (set_trc_count n o) a = completes o a.
Proof. reflexivity. Qed.

Lemma well_behaved_count (o : CCPCanCan.CCPCanCan) (n : nat)
    (a : open_answers * close_answers) :
  well_behaved (set_trc_count n o) a ↔ well_behaved o a.
Proof. reflexivity. Qed.

(** One cycle on a closed channel with logging: it returns, the channel
    is closed again, and a trace is counted when the configuration went
    through. *)
Lemma cycle_run (a : open_answers * close_answers) (s : session) :
  let o := self (ambient s) in
  bus o = None → raw_pcan_interface o = None → logging_activated o = true →
  well_behaved o a →
  ∃ s', cycle a s = (Returned tt, s') ∧
        self (ambient s') =
          set_trc_count (trc_count o + (if completes o a then 1 else 0)) o ∧
        disk (ambient s') = disk (ambient s) ∧
        submitted (ambient s') = submitted (ambient s).
Proof.
  intros o Hbus Hraw Hlog (Hp & HBus & HPcan & Hattr & Hshut & Hrel & Htext).
  unfold cycle. unfold bind. rewrite OpenFacts.open_run. fold o.
  rewrite Hlog, Hraw. cbn [andb negb is_Some_bool].
  destruct (answer_Bus (fst a)) as [b |]; [| discriminate].
  destruct (answer_PCANBasic (fst a)) as [h |]; [| discriminate].
  set (s1 := with_object _ _).
  assert (channel (self (ambient s1)) = channel o) as Hch by reflexivity.
  unfold completes.
  destruct (answer_getattr (fst a) (channel o)) as [handle |] eqn:Hhandle;
    [| discriminate].
  rewrite <- Hch in Hhandle.
  destruct (OpenFacts.configure_run (fst a) s1 h handle Hp eq_refl Hhandle)
    as (s2 & -> & _ & Hself & Hdisk & Hsub & _).
  unfold in_world.
  assert (bus (self (ambient s2)) = Some b) as Hbus2.
  { rewrite Hself. by destruct (configures _ _ _). }
  assert (logging_activated (self (ambient s2)) = true) as Hlog2.
  { rewrite Hself. destruct (configures _ _ _); exact Hlog. }
  assert (∃ l, _cc_close (snd a) (ambient s2)
               = (Returned tt, closed (ambient s2) l)) as [l ->].
  { rewrite (CloseFacts.close_run (snd a) (ambient s2) b Hbus2 Hshut), Hlog2.
    unfold release_result.
    assert (raw_pcan_interface (self (ambient s2)) = Some h) as ->.
    { rewrite Hself. by destruct (configures _ _ _). }
    destruct (Uninitialize_answer (snd a)) as [result | e] eqn:Hun.
    - case_bool_decide; [by eexists |].
      destruct (GetErrorText_answer (snd a)); [by eexists | discriminate].
    - rewrite (Hrel e eq_refl). by eexists. }
  eexists. split; [reflexivity |].
  cbn [ambient closed self disk submitted]. rewrite Hself, Hdisk, Hsub.
  assert (configures (fst a) (self (ambient s1)) handle
          = configures (fst a) o handle) as -> by reflexivity.
  subst s1. cbn [with_object ambient self disk submitted].
  repeat split. destruct o. cbn in Hbus, Hraw. subst.
  destruct (configures _ _ _); cbn; rewrite ?Nat.add_0_r; reflexivity.
Qed.

(** X7. The count of traces after any number of opens and closes of a channel
    is the number of opens whose configuration of the trace went through:
    on a closed channel with logging, and with answers of the SDK with
    which every open and close returns, the whole sequence returns, the
    channel is closed again, its count has gone up by the number of
    completed configurations, and nothing else of the object nor the trace
    directory has changed. *)
Theorem count_after_cycles (l : list (open_answers * close_answers))
    (s : session) :
  let o := self (ambient s) in
  bus o = None → raw_pcan_interface o = None → logging_activated o = true →
  Forall (well_behaved o) l →
  ∃ s', for_each l cycle s = (Returned tt, s') ∧
        self (ambient s') =
          set_trc_count (trc_count o + length (List.filter (completes o) l)) o ∧
        disk (ambient s') = disk (ambient s) ∧
        submitted (ambient s') = submitted (ambient s).
Proof.
  cbn zeta. revert s.
  induction l as [| a l IH]; intros s Hbus Hraw Hlog Hall.
  - exists s. split; [reflexivity |]. repeat split.
    rewrite Nat.add_0_r. by destruct (self (ambient s)).
  - apply Forall_cons in Hall as [Ha Hall].
    destruct (cycle_run a s Hbus Hraw Hlog Ha)
      as (s1 & Hrun & Hself & Hdisk & Hsub).
    cbn [for_each]. unfold bind. rewrite Hrun.
    destruct (IH s1) as (s' & Hrest & Hself' & Hdisk' & Hsub').
    + by rewrite Hself.
    + by rewrite Hself.
    + by rewrite Hself.
    + rewrite Hself. eapply Forall_impl; [exact Hall |].
      intros x Hx. by apply well_behaved_count.
    + exists s'. split; [exact Hrest |].
      rewrite Hself', Hdisk', Hsub', Hself, Hdisk, Hsub.
      repeat split. cbn [List.filter].
      erewrite List.filter_ext; [| intros x; apply completes_count].
      set (o := self (ambient s)).
      set (rest := List.filter (completes o) l).
      transitivity
        (set_trc_count
           (trc_count o + (if completes o a then 1 else 0) + length rest) o);
        [reflexivity |].
      f_equal. destruct (completes o a); cbn [length]; lia.
Qed.

Lemma count_after_cycles_witness :
  ∃ s', for_each [(willing_sdk, quiet_teardown);
                  (refusing_sdk, failing_teardown);
                  (willing_sdk, quiet_teardown)] cycle fresh_session
          = (Returned tt, s') ∧
        trc_count (self (ambient s')) = 2%nat.
Proof.
  destruct (count_after_cycles
              [(willing_sdk, quiet_teardown);
               (refusing_sdk, failing_teardown);
               (willing_sdk, quiet_teardown)] fresh_session
              eq_refl eq_refl eq_refl)
    as (s' & Hrun & Hself & _).
  - repeat (apply Forall_cons_2 || apply Forall_nil_2);
      (split; [first [ exact OpenFacts.provided_for_willing
                     | exact OpenFacts.provided_for_refusing ] |]);
      repeat split; try (intros e [= <-]); try done.
  - exists s'. split; [exact Hrun |]. rewrite Hself. reflexivity.
Defined.

End LifecycleFacts.

(** ** The log filter *)

Module FilterFacts.
Import Py PcanOpen.

Lemma prefix_app (p m : string) :
  String.prefix p m = true ↔ ∃ rest, m = p +:+ rest.
Proof.
  revert m. induction p as [| c p IH]; intros m.
  - split; [intros _; exists m; reflexivity | intros _; by destruct m].
  - destruct m as [| c' m]; cbn [String.prefix].
    + split; [done | intros [rest H]; discriminate H].
    + destruct (Ascii.ascii_dec c c') as [-> | Hne].
      * rewrite IH. split; intros [rest H]; exists rest.
        -- change (String c' m = String c' (p +:+ rest)). by rewrite H.
        -- change (String c' m = String c' (p +:+ rest)) in H.
           by injection H.
      * split; [done |]. intros [rest H].
        change (String c' m = String c (p +:+ rest)) in H. congruence.
Qed.

(** X8. The filter holds back exactly the records whose message starts with
    the text of the bus error warning, whatever follows it, and lets every
    other record through. *)
Theorem filter_holds_back_bus_error_warnings (message : string) :
  PcanFilter_filter message = false ↔
  ∃ rest, message = "Bus error: an error counter" +:+ rest.
Proof.
  unfold PcanFilter_filter. rewrite negb_false_iff. apply prefix_app.
Qed.

End FilterFacts.

(** ** The Vector channel *)

Module VectorFacts.
Import Py CCPCanCan VectorSetup Notions Examples.
Local Open Scope py_scope.

Ltac run :=
  cbv beta iota zeta delta
    [bind ret raise get modify replay try_except try_except_else try_finally
     CCVectorCan.log_record CCVectorCan.submit set_self].

(** *** The detection of the box *)

Lemma elem_of_collect (l : list Z) (x : Z) :
  x ∈ collect_serial_numbers l ↔ x ∈ l ∧ x ≠ 0%Z.
Proof.
  unfold collect_serial_numbers.
  assert (∀ acc : gset Z,
            x ∈ foldl (λ serial_numbers serial_number,
                         if negb (bool_decide (serial_number = 0%Z))
                         then serial_numbers ∪ {[serial_number]}
                         else serial_numbers) acc l
            ↔ x ∈ acc ∨ (x ∈ l ∧ x ≠ 0%Z)) as H.
  { induction l as [| n l IH]; intros acc; cbn [foldl].
    - split; [by left |]. intros [Hx | [Hx _]]; [done |].
      by apply elem_of_nil in Hx.
    - rewrite IH, elem_of_cons.
      case_bool_decide as Hn; cbn [negb];
        rewrite ?elem_of_union, ?elem_of_singleton; intuition congruence. }
  rewrite H. split; [| by right].
  intros [Hx | Hx]; [by apply elem_of_empty in Hx | done].
Qed.

Lemma foldr_min_spec (x : Z) (xs : list Z) :
  foldr Z.min x xs ∈ x :: xs ∧ ∀ y, y ∈ x :: xs → (foldr Z.min x xs ≤ y)%Z.
Proof.
  induction xs as [| a xs [IHin IHle]]; cbn [foldr].
  - split; [by left |]. intros y Hy.
    apply elem_of_cons in Hy as [-> | Hy]; [lia | by apply elem_of_nil in Hy].
  - split.
    + destruct (Z.min_spec a (foldr Z.min x xs)) as [[_ ->] | [_ ->]].
      * right. by left.
      * apply elem_of_cons in IHin as [-> | IHin]; [by left |].
        right. by right.
    + intros y Hy.
      assert (y = a ∨ y ∈ x :: xs) as [-> | Hy'].
      { apply elem_of_cons in Hy as [-> | Hy]; [right; by left |].
        apply elem_of_cons in Hy as [-> | Hy]; [by left |].
        right. by right. }
      * lia.
      * specialize (IHle y Hy'). lia.
Qed.

Lemma set_min_spec (s : gset Z) :
  match set_min s with
  | Some m => m ∈ s ∧ ∀ y, y ∈ s → (m ≤ y)%Z
  | None => s = ∅
  end.
Proof.
  unfold set_min. destruct (elements s) as [| x xs] eqn:He.
  - by apply elements_empty_inv in He as ->%leibniz_equiv.
  - destruct (foldr_min_spec x xs) as [Hin Hle]. rewrite <- He in Hin, Hle.
    split.
    + by apply elem_of_elements.
    + intros y Hy. apply Hle. by apply elem_of_elements.
Qed.

(** X9. [detect_serial_number] hands back a serial number of one of the
    channel configurations, never the number 0, and none of the others is
    lower; it logs its choice. It raises [ConnectionRefusedError] exactly
    when every configuration has the serial number 0, no configuration at
    all included. An error of [get_channel_configs] comes through as it
    is. *)
Theorem detection_takes_the_lowest_serial_number
    (configs : list Z) (log : list (level * string)) :
  match detect_serial_number (Returned configs) log with
  | (Done m, log') =>
      m ∈ configs ∧ m ≠ 0%Z ∧
      (∀ x, x ∈ configs → x ≠ 0%Z → (m ≤ x)%Z) ∧
      log' = log ++ [(INFO, "Using Vector Box with serial number")]
  | (Failed r, log') =>
      r = ConnectionRefusedError "No Vector box is currently available" ∧
      Forall (λ x, x = 0%Z) configs ∧ log' = log
  end ∧
  ∀ e, detect_serial_number (Raised e) log = (Failed (Propagated e), log).
Proof.
  split; [| done]. unfold detect_serial_number.
  pose proof (set_min_spec (collect_serial_numbers configs)) as Hmin.
  destruct (set_min (collect_serial_numbers configs)) as [m |].
  - destruct Hmin as [Hin Hle]. apply elem_of_collect in Hin as [Hin Hne].
    repeat split; try done.
    intros x Hx Hx0. apply Hle. by apply elem_of_collect.
  - repeat split. apply Forall_forall. intros x Hx.
    destruct (decide (x = 0%Z)) as [-> | Hne]; [done |].
    assert (x ∈ collect_serial_numbers configs) as Hc
      by by apply elem_of_collect.
    rewrite Hmin in Hc. by apply elem_of_empty in Hc.
Qed.

(** *** The serial number at construction *)

Lemma upper_char_cases (c : ascii) :
  (upper_char c = "SS" ∧
   ∀ up low, (up, low) ∈ [("A", "a"); ("U", "u"); ("T", "t"); ("O", "o")]%char →
             one_of c up low = false) ∨
  (∃ u, upper_char c = String u "" ∧
        ∀ up low,
          (up, low) ∈ [("A", "a"); ("U", "u"); ("T", "t"); ("O", "o")]%char →
          (u = up ↔ one_of c up low = true)).
Proof.
  destruct c as [[] [] [] [] [] [] [] []];
    first
      [ left; split; [reflexivity |];
        intros up low Hpair;
        repeat (apply elem_of_cons in Hpair as [[= -> ->] | Hpair];
                [reflexivity |]);
        by apply elem_of_nil in Hpair
      | right; eexists; split; [reflexivity |];
        intros up low Hpair;
        repeat (apply elem_of_cons in Hpair as [[= -> ->] | Hpair];
                [vm_compute; split; (discriminate || reflexivity) |]);
        by apply elem_of_nil in Hpair ].
Qed.

(** The upper case of a text starts with one of the four letters of the
    flag exactly when the text starts with that letter, in either case. *)
Lemma upper_cons_letter (c : ascii) (s t : string) (up low : ascii) :
  (up, low) ∈ [("A", "a"); ("U", "u"); ("T", "t"); ("O", "o")]%char →
  upper (String c s) = String up t ↔ one_of c up low = true ∧ upper s = t.
Proof.
  intros Hpair. change (upper (String c s)) with (upper_char c +:+ upper s).
  destruct (upper_char_cases c) as [[-> Hno] | (u & -> & Hu)].
  - rewrite (Hno up low Hpair). split; [| by intros [H _]].
    change ("SS" +:+ upper s) with (String "S" (String "S" (upper s))).
    intros [= <- _].
    repeat (apply elem_of_cons in Hpair as [Hpair | Hpair];
            [discriminate Hpair |]).
    by apply elem_of_nil in Hpair.
  - change (String u "" +:+ upper s) with (String u (upper s)).
    rewrite <- (Hu up low Hpair). split.
    + by intros [= -> ->].
    + by intros [-> ->].
Qed.

Lemma upper_nonempty (c : ascii) (s : string) : upper (String c s) ≠ "".
Proof.
  change (upper (String c s)) with (upper_char c +:+ upper s).
  destruct (upper_char_cases c) as [[-> _] | (u & -> & _)]; discriminate.
Qed.

(** The flag is recognised in every letter case, and nothing else is. *)
Lemma upper_auto (s : string) : upper s = "AUTO" ↔ spells_auto s = true.
Proof.
  destruct s as [| a [| u [| t [| o s]]]]; try (split; discriminate).
  - rewrite (upper_cons_letter a "" "UTO" "A" "a")
      by (apply list_elem_of_In; cbn; tauto).
    split; [intros [_ H]; discriminate H | discriminate].
  - rewrite (upper_cons_letter a _ "UTO" "A" "a"),
      (upper_cons_letter u "" "TO" "U" "u")
      by (apply list_elem_of_In; cbn; tauto).
    split; [intros (_ & _ & H); discriminate H | discriminate].
  - rewrite (upper_cons_letter a _ "UTO" "A" "a"),
      (upper_cons_letter u _ "TO" "U" "u"),
      (upper_cons_letter t "" "O" "T" "t")
      by (apply list_elem_of_In; cbn; tauto).
    split; [intros (_ & _ & _ & H); discriminate H | discriminate].
  - rewrite (upper_cons_letter a _ "UTO" "A" "a"),
      (upper_cons_letter u _ "TO" "U" "u"),
      (upper_cons_letter t _ "O" "T" "t"),
      (upper_cons_letter o _ "" "O" "o")
      by (apply list_elem_of_In; cbn; tauto).
    destruct s as [| x s].
    + cbn [spells_auto upper]. rewrite !andb_true_iff. tauto.
    + split; [| discriminate].
      intros (_ & _ & _ & _ & H). by apply upper_nonempty in H.
Qed.

(** The text of an integer starts with a digit or with the minus sign. *)
Lemma str_int_not_auto (z : Z) : upper (str_int z) ≠ "AUTO".
Proof.
  assert (∀ n, ∃ c rest, string_of_list_ascii (str n) = String c rest ∧
                         is_digit c = true) as Hdigits.
  { intros n. pose proof (TextFacts.str_value n) as [_ Hd].
    destruct (str n) as [| c rest] eqn:Hs.
    - pose proof (TextFacts.str_digits_nonempty
                    (S (N.to_nat (N.log2 n))) n [] ltac:(lia)) as Hne.
      unfold str in Hs. rewrite Hs in Hne. cbn in Hne. lia.
    - exists c, (string_of_list_ascii rest). split; [reflexivity |].
      cbn in Hd. by apply andb_prop in Hd as [Hd _]. }
  assert (∀ c rest, one_of c "A" "a" = false →
                    upper (String c rest) ≠ "AUTO") as Hno.
  { intros c rest Hc Hup.
    apply (upper_cons_letter c rest "UTO" "A" "a") in Hup as [Hup _];
      [congruence | by left]. }
  assert (∀ c, is_digit c = true → one_of c "A" "a" = false) as Hdigit.
  { intros c. destruct c as [[] [] [] [] [] [] [] []]; vm_compute;
      (discriminate || reflexivity). }
  unfold str_int. destruct z as [| p | p].
  - destruct (Hdigits (Z.to_N 0)) as (c & rest & -> & Hc). by apply Hno, Hdigit.
  - destruct (Hdigits (Z.to_N (Z.pos p))) as (c & rest & -> & Hc).
    by apply Hno, Hdigit.
  - by apply Hno.
Qed.

(** X10. At construction the serial number is settled once and for all: no
    serial number and an integer are kept as given, without a look at the
    hardware; a text that spells [AUTO], in any letter case, is replaced
    by the serial number that the detection finds, and a failed detection
    fails the construction; any other text is handed to [int], whose
    error fails the construction too. *)
Theorem serial_number_settled_at_construction
    (a : arguments) (int_ : string → outcome Z) (configs : outcome (list Z))
    (log : list (level * string)) :
  let r := __init__ a int_ configs log in
  match arg_serial a with
  | SerialNone => ∃ c, r = (Done c, log) ∧ serial c = None
  | SerialInt z => ∃ c, r = (Done c, log) ∧ serial c = Some z
  | SerialStr s =>
      if spells_auto s then
        match detect_serial_number configs log with
        | (Done m, log') => ∃ c, r = (Done c, log') ∧ serial c = Some m
        | (Failed e, log') => r = (Failed e, log')
        end
      else
        match int_ s with
        | Returned z => ∃ c, r = (Done c, log) ∧ serial c = Some z
        | Raised e => r = (Failed (Propagated e), log)
        end
  end.
Proof.
  cbn zeta. unfold __init__.
  destruct (arg_serial a) as [| z | s]; cbn [str_serial].
  - rewrite bool_decide_eq_false_2 by discriminate. by eexists.
  - rewrite (bool_decide_eq_false_2 _ (str_int_not_auto z)). by eexists.
  - destruct (spells_auto s) eqn:Hs.
    + rewrite (bool_decide_eq_true_2 _ (proj2 (upper_auto s) Hs)).
      destruct (detect_serial_number configs log) as [[m | e] log'];
        [by eexists | done].
    + rewrite bool_decide_eq_false_2
        by (intros Hup; apply upper_auto in Hup; congruence).
      destruct (int_ s); [by eexists | done].
Qed.

(** *** Open and close *)

(** X11. The close of a Vector channel writes its record before it looks at
    the bus. Without a bus it raises [AttributeError], with the record
    that says the channel was closed in the log; when the shutdown of the
    bus raises, the error comes through and the object keeps the bus; in
    both cases nothing else changes. When the shutdown returns, the bus is
    dropped. *)
Theorem vector_close_needs_a_bus (shutdown_answer : outcome unit)
    (w : CCVectorCan.world) :
  let noted := vector_with_log w INFO "CAN bus channel closed" in
  match CCVectorCan.bus (CCVectorCan.self w), shutdown_answer with
  | None, _ => _cc_close shutdown_answer w = (Raised AttributeError, noted)
  | Some _, Raised e => _cc_close shutdown_answer w = (Raised e, noted)
  | Some _, Returned _ =>
      ∃ w', _cc_close shutdown_answer w = (Returned tt, w') ∧
            CCVectorCan.bus (CCVectorCan.self w') = None ∧
            set_bus None (CCVectorCan.self w) = CCVectorCan.self w' ∧
            CCVectorCan.log w' = CCVectorCan.log noted ∧
            CCVectorCan.submitted w' = CCVectorCan.submitted w
  end.
Proof.
  cbn zeta. unfold _cc_close, vector_with_log. run.
  destruct w as [o l sub]. cbn [CCVectorCan.self CCVectorCan.log
    CCVectorCan.submitted].
  destruct (CCVectorCan.bus o) eqn:Hbus; [| reflexivity].
  destruct shutdown_answer as [[] | e]; [| reflexivity].
  eexists. split; [reflexivity |]. repeat split.
Qed.

(** X12. An open of a Vector channel followed by a close, on any channel
    object: when the bus is made and shuts down, both return and the
    channel is left without bus, with its two records in the log and no
    frame submitted; when the bus cannot be made, the open raises what the
    SDK raised and leaves the bus attribute as it was. *)
Theorem vector_open_then_close (Bus_answer : outcome Bus)
    (w : CCVectorCan.world) :
  match Bus_answer with
  | Returned b =>
      ∃ w1 w2, _cc_open Bus_answer w = (Returned tt, w1) ∧
               CCVectorCan.bus (CCVectorCan.self w1) = Some b ∧
               _cc_close (Returned tt) w1 = (Returned tt, w2) ∧
               CCVectorCan.bus (CCVectorCan.self w2) = None ∧
               CCVectorCan.log w2 =
                 CCVectorCan.log w ++ [(INFO, "CAN bus channel open");
                                       (INFO, "CAN bus channel closed")] ∧
               CCVectorCan.submitted w2 = CCVectorCan.submitted w
  | Raised e =>
      _cc_open Bus_answer w =
        (Raised e, vector_with_log w INFO "CAN bus channel open")
  end.
Proof.
  unfold _cc_open, _cc_close, vector_with_log. run.
  destruct w as [o l sub]. destruct Bus_answer as [b | e]; [| reflexivity].
  eexists _, _. split; [reflexivity |]. split; [reflexivity |].
  cbn. split; [reflexivity |]. cbn. rewrite <- app_assoc. repeat split.
Qed.

(** *** Send *)

(** X13. The Vector send, whatever it is given: the object is left as it is;
    at most one frame is handed to the bus, and one is exactly when the
    data are there (the message itself when [raw] is set, else what its
    serialization returned) and the channel has a bus; the frame carries
    these data, the flags of the channel and no bit rate switch, and as
    identifier the one given, zero included, or else the configured one.
    A serialization that raises is met before the bus is looked at, and
    an error of the bus comes through. When the bus took the frame, the
    frame is formatted for the log: the send then returns and writes its
    record when the frame has an identifier, and raises [TypeError]
    without a record when it has none, so that a send that is given no
    identifier on a channel that has none never returns. *)
Theorem vector_send_hands_over_one_frame (msg : list Byte.byte)
    (remote_id_arg : option Z) (raw : bool)
    (serialize_answer : outcome (list Byte.byte)) (send_answer : outcome unit)
    (w : CCVectorCan.world) :
  let r := CCVectorCan._cc_send msg remote_id_arg raw serialize_answer
             send_answer w in
  let data := if raw then Returned msg else serialize_answer in
  CCVectorCan.self (snd r) = CCVectorCan.self w ∧
  CCVectorCan.submitted (snd r) =
    CCVectorCan.submitted w ++
    match data, CCVectorCan.bus (CCVectorCan.self w) with
    | Returned d, Some _ =>
        [vector_frame_sent (CCVectorCan.self w) remote_id_arg d]
    | _, _ => []
    end ∧
  fst r =
    match data, CCVectorCan.bus (CCVectorCan.self w) with
    | Raised e, _ => Raised e
    | Returned _, None => Raised AttributeError
    | Returned d, Some _ =>
        match send_answer with
        | Raised e => Raised e
        | Returned _ =>
            match arbitration_id
                    (vector_frame_sent (CCVectorCan.self w) remote_id_arg d)
            with
            | Some _ => Returned tt
            | None => Raised TypeError
            end
        end
    end ∧
  CCVectorCan.log (snd r) =
    CCVectorCan.log w ++
    (if returns (fst r) then [(DEBUG, "sent CAN Message")] else []) ∧
  (remote_id_arg = None → CCVectorCan.remote_id (CCVectorCan.self w) = None →
   fst r ≠ Returned tt).
Proof.
  cbn zeta. unfold CCVectorCan._cc_send, vector_frame_sent, format_message. run.
  destruct w as [o l sub].
  cbn [CCVectorCan.self CCVectorCan.log CCVectorCan.submitted arbitration_id].
  destruct raw, serialize_answer as [d | e0], (CCVectorCan.bus o),
    send_answer as [[] | e], remote_id_arg as [i |],
    (CCVectorCan.remote_id o) as [j |];
    cbn; rewrite ?app_nil_r; repeat split; try discriminate;
    intros; discriminate.
Qed.

(** X14. A Vector channel has no identifier of its own: the constructor sets
    none and takes none, so that on a channel as constructed and opened a
    send without identifier hands the bus a frame whose arbitration
    identifier is [None]. *)
Theorem vector_send_without_identifier (a : arguments)
    (int_ : string → outcome Z) (configs : outcome (list Z))
    (log log' : list (level * string)) (c : constructed) (b : Bus)
    (msg : list Byte.byte) (send_answer : outcome unit) :
  __init__ a int_ configs log = (Done c, log') →
  ∃ w1 m,
    _cc_open (Returned b) (CCVectorCan.mkWorld (object c) log' [])
      = (Returned tt, w1) ∧
    CCVectorCan.submitted
      (snd (CCVectorCan._cc_send msg None true (Returned msg) send_answer w1))
      = [m] ∧
    arbitration_id m = None ∧ data m = msg.
Proof.
  intros Hinit.
  assert (CCVectorCan.remote_id (object c) = None) as Hid.
  { revert Hinit. unfold __init__.
    destruct (bool_decide _).
    - destruct (detect_serial_number configs log) as [[m | e] l];
        [| discriminate]. by intros [= <- _].
    - destruct (arg_serial a) as [| z | s]; try by intros [= <- _].
      destruct (int_ s); [| discriminate]. by intros [= <- _]. }
  unfold _cc_open. run. eexists _, _. split; [reflexivity |].
  unfold CCVectorCan._cc_send. run.
  cbn [CCVectorCan.self CCVectorCan.log CCVectorCan.submitted set_bus
       CCVectorCan.bus CCVectorCan.remote_id negb].
  rewrite Hid. destruct send_answer as [[] | e]; cbn; repeat split.
Qed.

Lemma vector_send_without_identifier_witness :
  ∃ m, CCVectorCan.submitted
         (snd (CCVectorCan._cc_send [] None true (Returned [])
                 (Returned tt) open_vector_world)) = [m] ∧
       arbitration_id m = None.
Proof.
  destruct (vector_send_without_identifier
              (mkArguments "vector" (1 # 100) 524288 SerialNone 3 500000
                 2000000 true None [] false)
              (λ _, Raised (ValueError "")) (Returned []) [] []
              (mkConstructed
                 (CCVectorCan.mkCCVectorCan "vector" 3 500000 2000000 false
                    true None None)
                 (1 # 100) 524288 None None [])
              (BusObject 2) [] (Returned tt) eq_refl)
    as (w1 & m & Hopen & Hsub & Hid & _).
  injection Hopen as <-. exists m. split; [exact Hsub | exact Hid].
Defined.

(** *** Receive *)

(** X15. The Vector receive never raises: whatever the bus or the parser of
    the packet raises, errors outside the class [Exception] and a missing
    bus included, it returns, and then with the result that says nothing
    is available. It leaves the object and the submitted frames as they
    are and adds one record to the log, unless the bus had no frame. *)
Theorem vector_receive_swallows_everything (timeout : Q) (raw : bool)
    (recv : Q → outcome (option Message))
    (parse_packet : list Byte.byte → outcome CCVectorCan.KisoMessage)
    (w : CCVectorCan.world) :
  ∃ r w' records,
    CCVectorCan._cc_receive timeout raw recv parse_packet w
      = (Returned r, w') ∧
    CCVectorCan.self w' = CCVectorCan.self w ∧
    CCVectorCan.submitted w' = CCVectorCan.submitted w ∧
    CCVectorCan.log w' = CCVectorCan.log w ++ records ∧
    (length records ≤ 1)%nat ∧
    (records = [] ↔ vector_recv_result timeout recv w = Returned None) ∧
    ((∃ e, vector_recv_result timeout recv w = Raised e) → r = (None, None)).
Proof.
  rewrite ReceiveFacts.vector_receive_run. cbn zeta.
  destruct (vector_recv_result timeout recv w) as [[m |] | e].
  - destruct raw; [| destruct (parse_packet (data m))];
      eexists _, _, [_]; (split; [reflexivity |]); cbn;
      repeat split; try done; try lia; by intros [e He].
  - eexists _, _, []. split; [reflexivity |]. rewrite app_nil_r.
    repeat split; try done; cbn; lia.
  - eexists _, _, [_]. split; [reflexivity |]. cbn.
    repeat split; try done; lia.
Qed.

End VectorFacts.

(** ** The PCAN channel: construction, send, receive and close *)

Module ChannelFacts.
Import Py PurePath FS CCPCanCan Notions Examples.
Local Open Scope py_scope.

Ltac run := ConstructionFacts.run.

(** *** Construction *)

Lemma BusState_item_returns (name : string) :
  match BusState_item name with
  | Returned _ => name ∈ ["ACTIVE"; "PASSIVE"; "ERROR"]
  | Raised e => e = KeyError ∧ name ∉ ["ACTIVE"; "PASSIVE"; "ERROR"]
  end.
Proof.
  unfold BusState_item. repeat case_bool_decide; subst.
  - by left.
  - right. by left.
  - do 2 right. by left.
  - split; [done |]. intros Hin.
    repeat (apply elem_of_cons in Hin as [-> | Hin]; [done |]).
    by apply elem_of_nil in Hin.
Qed.

(** X16. The constructor returns exactly when the state, put in upper case
    as [str.upper] does it (a sharp s becomes [SS]), names a bus state and
    the suffix of the trace path is [.trc] or empty. It looks at the state
    first and raises [KeyError] for a name that is none; for another
    suffix it raises [ValueError]. *)
Theorem construction_succeeds_exactly_when
    (a : arguments) (cwd : Path) (w : world) :
  let state_known := upper (arg_state a) ∈ ["ACTIVE"; "PASSIVE"; "ERROR"] in
  let path_accepted := suffix (parse (arg_trace_path a)) ∈ [".trc"; ""] in
  match fst (__init__ a cwd w) with
  | Returned _ => state_known ∧ path_accepted
  | Raised e =>
      (e = KeyError ∧ ¬ state_known) ∨
      (∃ message, e = ValueError message ∧ state_known ∧ ¬ path_accepted)
  end.
Proof.
  cbn zeta. pose proof (BusState_item_returns (upper (arg_state a))) as Hst.
  destruct (BusState_item (upper (arg_state a))) as [st | e] eqn:Hitem.
  - rewrite (ConstructionFacts.init_run a cwd w st Hitem),
      ConstructionFacts.initialize_trace_run.
    cbn [self disk log submitted clock encoding].
    change (trace_path (fresh a st)) with (parse (arg_trace_path a)).
    case_bool_decide as E1; [| case_bool_decide as E2].
    + case_bool_decide;
        match goal with |- context [brs_warning a ?w1] =>
          destruct (ConstructionFacts.brs_warning_run a w1) as [l ->] end;
        (split; [done |]); rewrite E1; by left.
    + case_bool_decide;
        match goal with |- context [brs_warning a ?w1] =>
          destruct (ConstructionFacts.brs_warning_run a w1) as [l ->] end;
        (split; [done |]); rewrite E2; right; by left.
    + right. eexists. split; [reflexivity |]. split; [done |].
      by apply ConstructionFacts.suffix_not_listed.
  - assert (__init__ a cwd w = (Raised e, w)) as ->
      by (unfold __init__; run; by rewrite Hitem).
    left. exact Hst.
Qed.

(** X17. A channel that the constructor has returned is closed and has
    counted no trace: it holds neither a bus nor a PCAN handle, its count
    of traces is 0, the timeout that a receive falls back on is a
    microsecond, its trace size lies in (0, 100], and its trace name, if
    it has one, is the last component of the path given and matches the
    pattern [*.trc] that the merger looks for. The constructor touches
    neither the trace directory nor the bus. *)
Theorem constructed_channel_is_closed
    (a : arguments) (cwd : Path) (w w' : world) :
  __init__ a cwd w = (Returned tt, w') →
  bus (self w') = None ∧ raw_pcan_interface (self w') = None ∧
  trc_count (self w') = 0%nat ∧
  timeout (self w') = (1 # 1000000)%Q ∧
  (0 < trace_size (self w') ≤ 100)%Z ∧
  (∃ tn, trace_name (self w') = Assigned tn ∧
         ∀ n, tn = Some n →
              is_trc n = true ∧ n = name (parse (arg_trace_path a))) ∧
  logging_activated (self w') = arg_logging_activated a ∧
  remote_id (self w') = arg_remote_id a ∧
  disk w' = disk w ∧ submitted w' = submitted w.
Proof.
  intros Hinit.
  destruct (LifecycleFacts.init_postcondition a cwd w w' Hinit)
    as (Hrange & _ & Hname & Hbus & Hraw & Hcount & Hlog & Hid & _ & Hdisk
        & Hsub & Htimeout).
  repeat split; try done; lia.
Qed.

Lemma constructed_channel_is_closed_witness :
  bus (self (snd (__init__ run_trc_arguments (parse "/home") blank_world)))
    = None ∧
  trace_name (self (snd (__init__ run_trc_arguments (parse "/home")
                           blank_world))) = Assigned (Some "run.trc").
Proof.
  destruct (constructed_channel_is_closed run_trc_arguments (parse "/home")
              blank_world
              (snd (__init__ run_trc_arguments (parse "/home") blank_world))
              eq_refl) as (Hbus & _).
  split; [exact Hbus | reflexivity].
Defined.

(** X29. The branch of [_initialize_trace] that takes the current working
    directory is never entered, since a path object is always true: the
    outcome of the constructor, the object it leaves included, does not
    depend on the working directory. A trace path without suffix, the
    empty one included, is kept as it was given. *)
Theorem construction_ignores_the_working_directory
    (a : arguments) (cwd cwd' : Path) (w : world) :
  __init__ a cwd w = __init__ a cwd' w ∧
  (suffix (parse (arg_trace_path a)) = "" →
   ∀ w', __init__ a cwd w = (Returned tt, w') →
         trace_path (self w') = parse (arg_trace_path a)).
Proof.
  destruct (BusState_item (upper (arg_state a))) as [st | e] eqn:Hitem.
  - rewrite !(ConstructionFacts.init_run a _ w st Hitem),
      !ConstructionFacts.initialize_trace_run.
    split; [reflexivity |]. intros Hsuffix w'.
    cbn [self disk log submitted clock encoding].
    change (trace_path (fresh a st)) with (parse (arg_trace_path a)).
    rewrite Hsuffix. rewrite bool_decide_eq_false_2 by discriminate.
    rewrite bool_decide_eq_true_2 by reflexivity.
    case_bool_decide;
      match goal with |- context [brs_warning a ?w1] =>
        destruct (ConstructionFacts.brs_warning_run a w1) as [l ->] end;
      by intros [= <-].
  - assert (∀ c, __init__ a c w = (Raised e, w)) as Hfail
      by (intros c; unfold __init__; run; by rewrite Hitem).
    rewrite !Hfail. split; [reflexivity |]. intros _ w' H. discriminate H.
Qed.

(** *** Send *)

(** X18. The PCAN send, whatever it is given: the object and the trace
    directory are left as they are; exactly one frame is handed to the bus
    when the channel has one, and none otherwise, in which case the send
    raises [AttributeError]; an error of the bus comes through. The frame
    carries the message as its data and the flags of the channel; its
    identifier is the one given when that is not zero, and the configured
    one when none or zero is given. When the bus took the frame, the
    frame is formatted for the log: the send then returns and writes its
    record when the frame has an identifier, and raises [TypeError]
    without a record when it has none, so that a send that is given no
    identifier, or zero, on a channel that is configured with none never
    returns. *)
Theorem pcan_send_hands_over_one_frame (msg : list Byte.byte)
    (remote_id_arg : option Z) (send_answer : outcome unit) (w : world) :
  let r := _cc_send msg remote_id_arg send_answer w in
  let frame := pcan_frame_sent (self w) msg remote_id_arg in
  self (snd r) = self w ∧ disk (snd r) = disk w ∧
  submitted (snd r) =
    submitted w ++ (if is_Some_bool (bus (self w)) then [frame] else []) ∧
  fst r =
    (if is_Some_bool (bus (self w)) then
       match send_answer with
       | Raised e => Raised e
       | Returned _ =>
           match arbitration_id frame with
           | Some _ => Returned tt
           | None => Raised TypeError
           end
       end
     else Raised AttributeError) ∧
  log (snd r) =
    log w ++ (if returns (fst r) then [(DEBUG, "sent CAN Message")] else []) ∧
  data frame = msg ∧
  is_fd frame = self_is_fd (self w) ∧
  is_extended_id frame = self_is_extended_id (self w) ∧
  bitrate_switch frame = enable_brs (self w) ∧
  arbitration_id frame =
    match remote_id_arg with
    | Some i => if bool_decide (i = 0%Z) then remote_id (self w) else Some i
    | None => remote_id (self w)
    end ∧
  (remote_id (self w) = None →
   remote_id_arg = None ∨ remote_id_arg = Some 0%Z →
   fst r ≠ Returned tt).
Proof.
  cbn zeta. unfold _cc_send, pcan_frame_sent, format_message. run.
  destruct w as [o d l sub c k].
  cbn [self disk log submitted clock encoding arbitration_id].
  assert (or_int remote_id_arg (remote_id o) =
          match remote_id_arg with
          | Some i => if bool_decide (i = 0%Z) then remote_id o else Some i
          | None => remote_id o
          end) as Hid.
  { unfold or_int. destruct remote_id_arg as [i |]; [| done].
    case_bool_decide as Hi.
    - by rewrite (proj2 (Z.eqb_eq i 0) Hi).
    - by rewrite (proj2 (Z.eqb_neq i 0) Hi). }
  assert (remote_id o = None →
          remote_id_arg = None ∨ remote_id_arg = Some 0%Z →
          or_int remote_id_arg (remote_id o) = None) as Hnone.
  { intros Ho [-> | ->]; exact Ho. }
  destruct (bus o) as [b |]; [destruct send_answer as [[] | e] |];
    cbn [is_Some_bool]; [destruct (or_int remote_id_arg (remote_id o)) eqn:Hor | |];
    cbn; rewrite ?app_nil_r;
    repeat split; try exact Hid; try discriminate;
    intros Ho Harg; try discriminate.
  discriminate (Hnone Ho Harg).
Qed.

(** *** Receive *)

(** X19. A PCAN receive changes nothing but the log: the object, the trace
    directory and the submitted frames are as before; the log has one
    more record, unless the bus had no frame or raised outside the class
    [Exception]; and that record is of the level of an exception only when
    the bus raised something that is no [can.CanError]. *)
Theorem pcan_receive_changes_only_the_log (timeout_arg : Q)
    (recv : Q → outcome (option Message)) (w : world) :
  let r := _cc_receive timeout_arg recv w in
  ∃ records,
    self (snd r) = self w ∧ disk (snd r) = disk w ∧
    submitted (snd r) = submitted w ∧ clock (snd r) = clock w ∧
    log (snd r) = log w ++ records ∧
    (length records ≤ 1)%nat ∧
    (records = [] ↔
       pcan_recv_result timeout_arg recv w = Returned None ∨
       ∃ e, pcan_recv_result timeout_arg recv w = Raised e ∧
            is_Exception e = false) ∧
    (∀ l message, (l, message) ∈ records →
       l = DEBUG ∨
       l = EXCEPTION ∧
       ∃ e, pcan_recv_result timeout_arg recv w = Raised e ∧
            is_CanError e = false).
Proof.
  cbn zeta. rewrite ReceiveFacts.pcan_receive_run.
  destruct (pcan_recv_result timeout_arg recv w) as [[m |] | e].
  - exists [(DEBUG, "received CAN Message")]. cbn.
    repeat split; try done; try lia.
    + intros [H | (e & H & _)]; discriminate H.
    + intros l message Hin. apply elem_of_cons in Hin as [[= -> _] | Hin];
        [by left | by apply elem_of_nil in Hin].
  - exists []. cbn. rewrite app_nil_r. repeat split; try done; try lia.
    + by left.
    + intros l message Hin. by apply elem_of_nil in Hin.
  - destruct (is_Exception e) eqn:He; [destruct (is_CanError e) eqn:Hc |].
    + exists [(DEBUG, "encountered can error")]. cbn.
      repeat split; try done; try lia.
      * intros [H | (e' & [= <-] & H)]; [discriminate H | congruence].
      * intros l message Hin.
        apply elem_of_cons in Hin as [[= -> _] | Hin];
          [by left | by apply elem_of_nil in Hin].
    + exists [(EXCEPTION, "encountered error while receiving message")]. cbn.
      repeat split; try done; try lia.
      * intros [H | (e' & [= <-] & H)]; [discriminate H | congruence].
      * intros l message Hin.
        apply elem_of_cons in Hin as [[= -> _] | Hin];
          [| by apply elem_of_nil in Hin].
        right. split; [done |]. by exists e.
    + exists []. cbn. rewrite app_nil_r. repeat split; try done; try lia.
      * intros _. right. by exists e.
      * intros l message Hin. by apply elem_of_nil in Hin.
Qed.

(** X20. The PCAN receive never asks the bus with a timeout of zero when the
    timeout of the channel is not zero: a timeout argument of zero is
    replaced by the one of the channel, so that what the bus would answer
    to a timeout of zero has no influence on the receive. *)
Theorem pcan_receive_never_polls (timeout_arg : Q)
    (recv recv' : Q → outcome (option Message)) (w : world) :
  ¬ (timeout (self w) == 0)%Q →
  (∀ q, ¬ (q == 0)%Q → recv q = recv' q) →
  _cc_receive timeout_arg recv w = _cc_receive timeout_arg recv' w.
Proof.
  intros Hself Hsame. rewrite !ReceiveFacts.pcan_receive_run.
  assert (pcan_recv_result timeout_arg recv w
          = pcan_recv_result timeout_arg recv' w) as ->; [| reflexivity].
  unfold pcan_recv_result, or_float. destruct (bus (self w)); [| reflexivity].
  destruct (Qeq_bool timeout_arg 0) eqn:Hzero.
  - by apply Hsame.
  - apply Hsame. intros Hq. apply Qeq_bool_iff in Hq. congruence.
Qed.

Lemma pcan_receive_never_polls_witness :
  _cc_receive 0%Q (λ q, if Qeq_bool q 0 then Raised CanError
                        else Returned None) open_world
  = _cc_receive 0%Q (λ _, Returned None) open_world.
Proof.
  apply pcan_receive_never_polls.
  - discriminate.
  - intros q Hq. destruct (Qeq_bool q 0) eqn:Hzero; [| reflexivity].
    apply Qeq_bool_iff in Hzero. contradiction.
Defined.

(** *** Close *)

(** X21. A close leaves alone what it did not reach. When the shutdown of the
    bus raises, the error comes through and the object keeps both the bus
    and the PCAN handle, with nothing logged: the channel is not closed.
    With logging switched off, the PCAN handle is neither released nor
    dropped, whatever the SDK would have answered. *)
Theorem close_leaves_what_it_did_not_reach (sdk : close_answers) (w : world)
    (b : Bus) :
  bus (self w) = Some b →
  (∀ e, shutdown_answer sdk = Raised e → _cc_close sdk w = (Raised e, w)) ∧
  (shutdown_answer sdk = Returned tt → logging_activated (self w) = false →
   ∃ w', _cc_close sdk w = (Returned tt, w') ∧
         bus (self w') = None ∧
         raw_pcan_interface (self w') = raw_pcan_interface (self w) ∧
         log w' = log w).
Proof.
  intros Hbus. split.
  - intros e He. unfold _cc_close. run. rewrite Hbus, He. reflexivity.
  - intros Hshut Hlog. rewrite (CloseFacts.close_run sdk w b Hbus Hshut), Hlog.
    eexists. split; [reflexivity |]. repeat split.
Qed.

Lemma close_leaves_what_it_did_not_reach_witness :
  _cc_close (mkCloseAnswers (Raised CanError) (Returned 0%Z)
               (Returned (0%Z, "")))
    open_world = (Raised CanError, open_world).
Proof.
  apply (close_leaves_what_it_did_not_reach _ open_world (BusObject 1));
    reflexivity.
Defined.

(** X22. Once the bus has shut down, a close with logging drops both handles
    however it ends. It adds at most one record to the log and leaves the
    trace directory alone. It raises in two cases only: the release of
    the PCAN handle raised outside the class [Exception], or the release
    answered another code than OK and the lookup of the error text
    raised; what it raises is that error. *)
Theorem close_drops_the_handles_however_it_ends (sdk : close_answers)
    (w : world) (b : Bus) :
  bus (self w) = Some b →
  shutdown_answer sdk = Returned tt →
  logging_activated (self w) = true →
  ∃ records,
    bus (self (snd (_cc_close sdk w))) = None ∧
    raw_pcan_interface (self (snd (_cc_close sdk w))) = None ∧
    log (snd (_cc_close sdk w)) = log w ++ records ∧
    (length records ≤ 1)%nat ∧
    disk (snd (_cc_close sdk w)) = disk w ∧
    (∀ e, fst (_cc_close sdk w) = Raised e ↔
          (release_result sdk w = Raised e ∧ is_Exception e = false) ∨
          (GetErrorText_answer sdk = Raised e ∧
           ∃ result, release_result sdk w = Returned result ∧
                     result ≠ PCAN_ERROR_OK)).
Proof.
  intros Hbus Hshut Hlog.
  rewrite (CloseFacts.close_run sdk w b Hbus Hshut), Hlog.
  destruct (release_result sdk w) as [result | e].
  - case_bool_decide as Hok.
    + exists []. cbn. rewrite app_nil_r. repeat split; try done; try lia.
      intros [[H _] | (_ & result' & [= <-] & H)]; [discriminate H | done].
    + destruct (GetErrorText_answer sdk) as [answer | e].
      * eexists [_]. cbn. repeat split; try done; try lia.
        intros [[H _] | (H & _)]; discriminate H.
      * exists []. cbn. rewrite app_nil_r. repeat split; try done; try lia.
        -- intros [= <-]. right. split; [done |]. by exists result.
        -- intros [[H _] | ([= <-] & _)]; [discriminate H | done].
  - destruct (is_Exception e) eqn:He.
    + eexists [_]. cbn. repeat split; try done; try lia.
      intros [[[= <-] H] | (_ & result & H & _)]; [congruence | discriminate H].
    + exists []. cbn. rewrite app_nil_r. repeat split; try done; try lia.
      * intros [= <-]. by left.
      * intros [[[= <-] _] | (_ & result & H & _)]; [done | discriminate H].
Qed.

Lemma close_drops_the_handles_however_it_ends_witness :
  fst (_cc_close (mkCloseAnswers (Returned tt) (Returned 5%Z)
                    (Raised OtherException)) open_world)
    = Raised OtherException ∧
  raw_pcan_interface
    (self (snd (_cc_close (mkCloseAnswers (Returned tt) (Returned 5%Z)
                             (Raised OtherException)) open_world))) = None.
Proof.
  destruct (close_drops_the_handles_however_it_ends
              (mkCloseAnswers (Returned tt) (Returned 5%Z)
                 (Raised OtherException)) open_world (BusObject 1)
              eq_refl eq_refl eq_refl) as (records & _ & Hraw & _).
  split; [reflexivity | exact Hraw].
Defined.

End ChannelFacts.

(** ** The teardown: the destructor, the merge and the renumbering *)

Module TeardownFacts.
Import Py PurePath FS CCPCanCan TextFacts RenumberFacts MergeFacts Notions
  Examples.
Local Open Scope py_scope.

Ltac run := ConstructionFacts.run.

(** *** The destructor *)

(** X23. When the constructor has raised for the trace path, the object has no
    trace name: its destructor then raises [AttributeError] if logging
    was asked for, before it touches a file, and does nothing
    otherwise. *)
Theorem del_after_failed_construction
    (a : arguments) (cwd : Path) (w : world) (st : BusState) :
  BusState_item (upper (arg_state a)) = Returned st →
  suffix (parse (arg_trace_path a)) ∉ [".trc"; ""] →
  ∃ message w1,
    __init__ a cwd w = (Raised (ValueError message), w1) ∧
    __del__ w1 =
      (if arg_logging_activated a then Raised AttributeError else Returned tt,
       w1).
Proof.
  intros Hst Hsuffix.
  assert (suffix (parse (arg_trace_path a)) ≠ ".trc") as E1
    by (intros E; apply Hsuffix; rewrite E; by left).
  assert (suffix (parse (arg_trace_path a)) ≠ "") as E2
    by (intros E; apply Hsuffix; rewrite E; right; by left).
  rewrite (ConstructionFacts.init_run a cwd w st Hst),
    ConstructionFacts.initialize_trace_run.
  cbn [self disk log submitted clock encoding].
  change (trace_path (fresh a st)) with (parse (arg_trace_path a)).
  rewrite (bool_decide_eq_false_2 _ E1), (bool_decide_eq_false_2 _ E2).
  eexists _, _. split; [reflexivity |].
  unfold __del__, _merge_trc. run. cbn [self fresh logging_activated trace_name].
  destruct (arg_logging_activated a); reflexivity.
Qed.

Lemma del_after_failed_construction_witness :
  ∃ message w1,
    __init__ txt_arguments (parse "/home") blank_world
      = (Raised (ValueError message), w1) ∧
    __del__ w1 = (Raised AttributeError, w1).
Proof.
  destruct (del_after_failed_construction txt_arguments (parse "/home")
              blank_world ACTIVE eq_refl) as (message & w1 & Hinit & Hdel).
  - intros Hin. apply list_elem_of_In in Hin. vm_compute in Hin.
    destruct Hin as [Hin | [Hin | []]]; discriminate Hin.
  - exists message, w1. split; [exact Hinit | exact Hdel].
Defined.

(** X24. With no file in the trace directory that matches [*.trc], the
    destructor of a constructed channel returns, whatever the count of
    traces: with logging it writes the warning that there is no trace to
    merge, and it creates, changes and removes no file. *)
Theorem del_without_traces_only_warns (w : world) (tn : option string) :
  trace_name (self w) = Assigned tn →
  glob_trc (disk w) = [] →
  __del__ w =
    (Returned tt,
     if logging_activated (self w)
     then with_log w WARNING "No trace to merge" else w).
Proof.
  intros Hname Hglob. unfold __del__. unfold bind at 1, get. cbn beta iota.
  destruct (logging_activated (self w)); [| reflexivity].
  apply (merge_nothing w tn Hname). by apply eligible_empty.
Qed.

Lemma del_without_traces_only_warns_witness :
  __del__ (teardown (Some "log.trc") 3 [])
    = (Returned tt, with_log (teardown (Some "log.trc") 3 []) WARNING
                      "No trace to merge").
Proof.
  exact (del_without_traces_only_warns (teardown (Some "log.trc") 3 [])
           (Some "log.trc") eq_refl eq_refl).
Defined.

(** *** What the merge takes and what it spares *)

(** X25. For a count [K] of at least one, a trace name that is not the
    name of a later trace taken, and traces taken that hold ASCII text:
    the merge returns; it takes [K] traces, or all when there are fewer,
    none of which is older than a trace left out; each trace taken after
    the first is removed; the result is there; and every other file of
    the directory, the traces left out among them, is as before. The
    object is left as it is. *)
Theorem merge_takes_the_latest_and_spares_the_rest
    (w : world) (tn : option string) :
  (0 < trc_count (self w))%nat →
  trace_name (self w) = Assigned tn →
  (∀ n, tn = Some n → n ∉ tail (eligible w)) →
  (∀ s, s ∈ eligible w → ascii_entry (disk w) s) →
  ∃ w',
    _merge_trc w = (Returned tt, w') ∧
    self w' = self w ∧ submitted w' = submitted w ∧
    length (eligible w) = trc_count (self w) `min` length (glob_trc (disk w)) ∧
    (∀ n m, n ∈ eligible w → m ∈ glob_trc (disk w) → m ∉ eligible w →
            (getmtime (disk w) m ≤ getmtime (disk w) n)%Z) ∧
    (∀ s, s ∈ tail (eligible w) → disk w' !! s = None) ∧
    (∀ t, head (eligible w) = Some t → is_Some (disk w' !! result_name tn t)) ∧
    (∀ x, x ∉ eligible w → (∀ n, tn = Some n → x ≠ n) →
          disk w' !! x = disk w !! x).
Proof.
  intros HK Hname Hfree Hascii.
  destruct (eligible_most_recent w HK) as (Hlen & Hnd & _ & Hrecent).
  destruct (eligible w) as [| target others] eqn:Hel.
  - rewrite (merge_nothing w tn Hname Hel). eexists. split; [reflexivity |].
    cbn. repeat split; try done.
    intros s Hs. by apply elem_of_nil in Hs.
  - cbn [tail] in Hfree.
    destruct (merge_run w tn target others Hname Hel Hfree Hascii)
      as (ft & fr & out & d' & _ & Hrun & Hout & _ & _ & Hgone & Hrest).
    apply NoDup_cons in Hnd as [Htarget _].
    exists (with_disk w d'). split; [exact Hrun |]. cbn.
    repeat split; try done.
    + intros s Hs. apply Hgone; [by right |].
      destruct tn as [n |]; cbn.
      * intros ->. by apply (Hfree n).
      * by intros ->.
    + intros t [= <-]. by eexists.
    + intros x Hx Hxn. apply Hrest; [exact Hx |].
      destruct tn as [n |]; cbn; [by apply Hxn |].
      intros ->. apply Hx. by left.
Qed.

Lemma merge_takes_the_latest_and_spares_the_rest_witness :
  ∃ w', _merge_trc (teardown (Some "log.trc") 2 three_traces)
          = (Returned tt, w') ∧
        disk w' !! "old.trc"
          = disk (teardown (Some "log.trc") 2 three_traces) !! "old.trc" ∧
        disk w' !! "b.trc" = None.
Proof.
  destruct (merge_takes_the_latest_and_spares_the_rest
              (teardown (Some "log.trc") 2 three_traces) (Some "log.trc"))
    as (w' & Hrun & _ & _ & _ & _ & Hgone & _ & Hrest).
  - cbn. lia.
  - reflexivity.
  - intros n [= <-] Hin. apply list_elem_of_In in Hin. vm_compute in Hin.
    destruct Hin as [Hin | []]. discriminate Hin.
  - intros s Hs. apply list_elem_of_In in Hs. vm_compute in Hs.
    destruct Hs as [<- | [<- | []]]; eexists;
      (split; [vm_compute; reflexivity | vm_compute; reflexivity]).
  - exists w'. split; [exact Hrun |]. split.
    + apply Hrest.
      * intros Hin. apply list_elem_of_In in Hin. vm_compute in Hin.
        destruct Hin as [Hin | [Hin | []]]; discriminate Hin.
      * intros n [= <-]. discriminate.
    + apply Hgone. apply list_elem_of_In. vm_compute. by left.
Defined.

(** *** Traces in the format of the logger stay in that format *)

Lemma well_formed_concat (ls : list text) :
  Forall ascii_text ls →
  Forall (λ l, is_terminated l = true) ls →
  (33 ≤ length ls)%nat →
  Forall (λ l : text, (8 ≤ length l)%nat) (drop 33 ls) →
  well_formed (concat ls) = true.
Proof.
  intros Hascii Hterm Hlen Hbody. unfold well_formed.
  rewrite (splitlines_concat ls Hterm). rewrite !andb_true_iff. repeat split.
  - by apply ascii_concat.
  - apply forallb_forall. intros l Hl. apply list_elem_of_In in Hl.
    rewrite Forall_forall in Hterm. by apply Hterm.
  - by apply Nat.leb_le.
  - apply forallb_forall. intros l Hl. apply list_elem_of_In in Hl.
    rewrite Forall_forall in Hbody. apply Nat.leb_le. by apply Hbody.
Qed.

Lemma well_formed_split (c : text) :
  well_formed c = true →
  c = concat (splitlines c) ∧
  splitlines (universal_newlines c) = splitlines c ∧
  Forall (λ l, is_terminated l = true) (splitlines c) ∧
  (33 ≤ length (splitlines c))%nat ∧
  Forall (λ l : text, (8 ≤ length l)%nat) (drop 33 (splitlines c)).
Proof.
  intros Hwf. unfold well_formed in Hwf. apply andb_prop in Hwf as [_ Hwf].
  apply andb_prop in Hwf as [Hwf Hlong]. apply andb_prop in Hwf as [Hterm Hlen].
  assert (Forall (λ l, is_terminated l = true) (splitlines c)) as Hterm'.
  { apply Forall_forall. intros l Hl. rewrite forallb_forall in Hterm.
    apply Hterm. by apply list_elem_of_In. }
  split; [by rewrite concat_splitlines |]. split; [| split; [done | split]].
  - rewrite universal_newlines_plain; [done |].
    rewrite <- (concat_splitlines c). by apply terminated_lines_no_CR.
  - by apply Nat.leb_le in Hlen.
  - apply Forall_forall. intros l Hl. rewrite forallb_forall in Hlong.
    apply list_elem_of_In, Hlong, Nat.leb_le in Hl. exact Hl.
Qed.

(** The renumbering keeps lines terminated and no shorter than they
    were. *)
Lemma renumber_keeps_the_format (ls : list text) :
  Forall (λ l, is_terminated l = true) ls →
  Forall (λ l : text, (8 ≤ length l)%nat) (drop 33 ls) →
  Forall (λ l, is_terminated l = true) (renumber 33 ls) ∧
  Forall (λ l : text, (8 ≤ length l)%nat) (drop 33 (renumber 33 ls)).
Proof.
  intros Hterm Hbody.
  assert (∀ i l, (33 ≤ i)%nat → ls !! i = Some l → (8 ≤ length l)%nat) as Hlong.
  { intros i l Hi Hl.
    refine (Forall_lookup_1 (λ l : text, (8 ≤ length l)%nat) _ (i - 33) l
              Hbody _).
    rewrite lookup_drop. by replace (33 + (i - 33))%nat with i by lia. }
  split.
  - apply Forall_lookup. intros i l' Hl'. rewrite renumber_lookup in Hl'.
    destruct (decide (33 ≤ i)%nat) as [Hi | Hi].
    + destruct (ls !! i) as [l |] eqn:Hl; [| done]. injection Hl' as <-.
      apply fix_line_terminated.
      * exact (Forall_lookup_1 _ ls i l Hterm Hl).
      * by apply (Hlong i).
    + exact (Forall_lookup_1 _ ls i l' Hterm Hl').
  - apply Forall_lookup. intros j l' Hl'.
    rewrite lookup_drop, renumber_lookup in Hl'.
    destruct (decide _) as [Hge | Hlt]; [| lia].
    destruct (ls !! (33 + j)%nat) as [old |] eqn:Hold; [| done].
    injection Hl' as <-.
    etrans; [| apply fix_line_length]. apply (Hlong (33 + j)%nat); [lia | done].
Qed.

(** What the renumbering leaves of a file in the format of the logger:
    the renumbered lines, and nothing after them. *)
Lemma fix_well_formed (w : world) (name : string) (f : file) :
  disk w !! name = Some f →
  well_formed (content f) = true →
  ∃ f', _fix_message_numbers name first_message_line w =
          (Returned tt, with_disk w (<[name := f']> (disk w))) ∧
        content f' = concat (renumber 33 (splitlines (content f))) ∧
        well_formed (content f') = true.
Proof.
  intros Hf Hwf.
  destruct (well_formed_split _ Hwf) as (Hc & Hread & Hterm & Hlen & Hbody).
  destruct (renumber_keeps_the_format _ Hterm Hbody) as [Hterm' Hbody'].
  pose proof (well_formed_ascii _ Hwf) as Hascii.
  destruct (fix_message_numbers_run name w f Hf Hascii) as (f' & Hrun & Hf').
  cbn zeta in Hf'. unfold written_lines, first_message_line in Hf'.
  rewrite Hread in Hf'.
  rewrite drop_ge, app_nil_r in Hf'.
  2: { rewrite Hc at 1. apply renumber_grows. }
  exists f'. split; [exact Hrun |]. split; [exact Hf' |]. rewrite Hf'.
  apply well_formed_concat; [| done | by rewrite renumber_length | done].
  by apply renumber_ascii, ascii_splitlines.
Qed.

(** Below ten millions, a line that was rebuilt is rebuilt to itself. *)
Lemma fix_line_idempotent (first i : nat) (line : text) :
  (N.of_nat (i + 1 - first) < 10000000)%N →
  fix_line first i (fix_line first i line) = fix_line first i line.
Proof.
  intros Hn. destruct (fix_line_fields first i line Hn) as (_ & _ & Hdrop).
  unfold fix_line at 1. unfold message_nb_index. rewrite Hdrop. reflexivity.
Qed.

Lemma renumber_idempotent (ls : list text) :
  (N.of_nat (length ls - 33) < 10000000)%N →
  renumber 33 (renumber 33 ls) = renumber 33 ls.
Proof.
  intros Hn. apply list_eq. intros i. rewrite !renumber_lookup.
  destruct (decide (33 ≤ i)%nat) as [Hi | Hi]; [| done].
  destruct (ls !! i) as [l |] eqn:Hl; [| done].
  cbn [fmap option_fmap option_map]. f_equal. apply fix_line_idempotent.
  apply lookup_lt_Some in Hl. lia.
Qed.

(** X26. On a trace of ASCII characters in the format of the logger
    (terminated lines, at least 33 of them, seven characters before the
    line feed in each line after the 33rd) with fewer than ten million
    messages, the renumbering is idempotent: it returns, leaves a trace of
    that kind, and a second renumbering directly after it returns and
    leaves every file with the content that the first one left. *)
Theorem renumbering_twice_is_renumbering_once
    (w : world) (name : string) (f : file) :
  disk w !! name = Some f →
  well_formed (content f) = true →
  (N.of_nat (length (splitlines (content f)) - 33) < 10000000)%N →
  ∃ w1 w2 f1,
    _fix_message_numbers name first_message_line w = (Returned tt, w1) ∧
    disk w1 !! name = Some f1 ∧
    well_formed (content f1) = true ∧
    _fix_message_numbers name first_message_line w1 = (Returned tt, w2) ∧
    (∃ f2, disk w2 !! name = Some f2 ∧ content f2 = content f1) ∧
    (∀ other, other ≠ name →
       disk w2 !! other = disk w !! other).
Proof.
  intros Hf Hwf Hn.
  destruct (fix_well_formed w name f Hf Hwf) as (f1 & Hrun1 & Hc1 & Hwf1).
  set (w1 := with_disk w (<[name := f1]> (disk w))) in *.
  assert (disk w1 !! name = Some f1) as Hf1 by apply lookup_insert_eq.
  destruct (fix_well_formed w1 name f1 Hf1 Hwf1) as (f2 & Hrun2 & Hc2 & _).
  exists w1, (with_disk w1 (<[name := f2]> (disk w1))), f1.
  split; [exact Hrun1 |]. split; [exact Hf1 |].
  split; [exact Hwf1 |]. split; [exact Hrun2 |]. split.
  - exists f2. split; [apply lookup_insert_eq |].
    rewrite Hc2, Hc1.
    destruct (well_formed_split _ Hwf) as (_ & _ & Hterm & _ & Hbody).
    destruct (renumber_keeps_the_format _ Hterm Hbody) as [Hterm' _].
    rewrite (splitlines_concat _ Hterm'). by rewrite renumber_idempotent.
  - intros other Hne. cbn [disk with_disk w1].
    by rewrite !lookup_insert_ne.
Qed.

Lemma renumbering_twice_is_renumbering_once_witness :
  ∃ w1 w2,
    _fix_message_numbers "log.trc" first_message_line short_trace_world
      = (Returned tt, w1) ∧
    _fix_message_numbers "log.trc" first_message_line w1 = (Returned tt, w2).
Proof.
  destruct (renumbering_twice_is_renumbering_once short_trace_world "log.trc"
              (mkFile 5 short_trace) eq_refl)
    as (w1 & w2 & f1 & Hrun1 & _ & _ & Hrun2 & _).
  - vm_compute. reflexivity.
  - vm_compute. reflexivity.
  - exists w1, w2. split; [exact Hrun1 | exact Hrun2].
Defined.

(** X27. A merge of traces of ASCII characters in the format of the logger
    leaves a result of that kind, so that the result can be taken by a
    later merge: under the conditions on the traces taken and on the trace
    name under which the merged trace is renumbered, the merge returns and
    its result holds ASCII characters only and is made of terminated
    lines, at least 33 of them, with seven characters before the line
    feed in each line after the 33rd. *)
Theorem merged_trace_keeps_the_format (w : world) (tn : option string)
    (target : string) (others : list string) :
  trace_name (self w) = Assigned tn →
  eligible w = target :: others →
  (∀ n, tn = Some n → n ∉ others) →
  (∀ s, s ∈ target :: others → segment_ok (disk w) s) →
  ∃ w', _merge_trc w = (Returned tt, w') ∧
        segment_ok (disk w') (result_name tn target).
Proof.
  intros Htn Hel Hname Hok.
  destruct (merge_run w tn target others Htn Hel Hname
              (segments_ascii _ _ Hok))
    as (ft & fr & out & d' & Hft & Hrun & Hout & Hfr & Hcontent & _).
  destruct (Hok target) as (ft' & Hft' & Hwf); [by left |].
  rewrite Hft in Hft'. injection Hft' as <-.
  destruct (well_formed_lines _ _ _ Hft Hwf) as (Hct & Htt & Hlt & Hbt).
  set (Lt := lines_of (disk w) target) in *.
  set (bodies := concat (map (body_of (disk w)) others)).
  assert (Forall (λ l, is_terminated l = true) bodies ∧
          Forall (λ l : text, (8 ≤ length l)%nat) bodies) as [Htb Hbb].
  { unfold bodies. clear -Hok.
    assert (∀ s, s ∈ others → segment_ok (disk w) s) as Hok'
      by (intros s Hs; apply Hok; by right).
    clear Hok. induction others as [| s rest IH]; [by split |].
    destruct (Hok' s) as (f & Hf & Hwf); [by left |].
    destruct (well_formed_lines _ _ _ Hf Hwf) as (_ & Ht & _ & Hb).
    destruct IH as [IH1 IH2]; [intros x Hx; apply Hok'; by right |].
    cbn [map concat]. split; apply Forall_app; split; try done.
    by apply Forall_drop. }
  set (Lm := Lt ++ bodies).
  assert (Forall (λ l, is_terminated l = true) Lm) as Htm
    by (apply Forall_app; by split).
  assert (Forall (λ l : text, (8 ≤ length l)%nat) (drop 33 Lm)) as Hbm.
  { unfold Lm. rewrite drop_app_le by done. apply Forall_app. by split. }
  assert (content fr = concat Lm) as Hfr'.
  { rewrite Hfr, Hct. unfold Lm. by rewrite concat_app. }
  destruct (renumber_keeps_the_format Lm Htm Hbm) as [Htr Hbr].
  assert (content out = concat (renumber 33 Lm)) as Hout'.
  { rewrite Hcontent. unfold written_lines, first_message_line.
    rewrite Hfr', (read_back Lm Htm).
    rewrite (drop_ge (concat Lm)) by apply renumber_grows.
    apply app_nil_r. }
  assert (Forall ascii_text Lm) as Ham.
  { apply ascii_concat. rewrite <- Hfr', Hfr. apply ascii_app. split.
    - by apply well_formed_ascii.
    - apply bodies_ascii. intros s Hs.
      apply (segments_ascii _ _ Hok). by right. }
  exists (with_disk w d'). split; [exact Hrun |].
  exists out. split; [exact Hout |]. rewrite Hout'.
  apply well_formed_concat; [by apply renumber_ascii | done | | done].
  rewrite renumber_length. unfold Lm. rewrite length_app. lia.
Qed.

Lemma merged_trace_keeps_the_format_witness :
  ∃ w', _merge_trc (teardown None 2 three_traces) = (Returned tt, w') ∧
        segment_ok (disk w') "a.trc".
Proof.
  apply (merged_trace_keeps_the_format (teardown None 2 three_traces)
           None "a.trc" ["b.trc"]).
  - reflexivity.
  - vm_compute. reflexivity.
  - discriminate.
  - intros s Hs. apply list_elem_of_In in Hs.
    destruct Hs as [<- | [<- | []]]; eexists;
      (split; [vm_compute; reflexivity | vm_compute; reflexivity]).
Defined.

(** *** A trace name that is the name of the latest trace *)

Lemma for_each_app {St A} (l1 l2 : list A) (body : A → M St unit) (s : St) :
  for_each (l1 ++ l2) body s =
    match for_each l1 body s with
    | (Returned _, s') => for_each l2 body s'
    | (Raised e, s') => (Raised e, s')
    end.
Proof.
  revert s. induction l1 as [| x l1 IH]; intros s; [reflexivity |].
  cbn [app for_each]. unfold bind.
  destruct (body x s) as [[[] | e] s1]; [apply IH | reflexivity].
Qed.

(** X30. When the trace name is the name of the latest trace taken, other
    traces are taken with it, and the traces taken hold ASCII text, the
    merge raises [FileNotFoundError] and every trace it took is gone: the
    first trace is renamed onto the latest, the loop appends that file to
    itself and removes it, and the renumbering finds no file. The files
    not taken are as before. *)
Theorem merge_onto_the_latest_trace_loses_the_traces
    (w : world) (n target : string) (earlier : list string) :
  trace_name (self w) = Assigned (Some n) →
  eligible w = target :: earlier ++ [n] →
  (∀ s, s ∈ eligible w → ascii_entry (disk w) s) →
  ∃ d',
    _merge_trc w = (Raised FileNotFoundError, with_disk w d') ∧
    (∀ s, s ∈ eligible w → d' !! s = None) ∧
    (∀ x, x ∉ eligible w → d' !! x = disk w !! x).
Proof.
  intros Htn Hel Hascii. rewrite Hel in Hascii.
  pose proof (eligible_NoDup w) as Hnd. rewrite Hel in Hnd.
  apply NoDup_cons in Hnd as [Htarget Hnd].
  apply NoDup_app in Hnd as (Hnd & Hn & _).
  assert (n ∉ earlier) as Hne by (intros Hin; apply (Hn n Hin); by left).
  assert (target ≠ n) as Htn'
    by (intros ->; apply Htarget, elem_of_app; right; by left).
  assert (target ∉ earlier) as Hte
    by (intros Hin; apply Htarget, elem_of_app; by left).
  destruct (Hascii target) as (ft & Hft & Haft); [by left |].
  set (d1 := <[n := ft]> (delete target (disk w))).
  assert (d1 !! n = Some ft) as Hn1 by apply lookup_insert_eq.
  assert (∀ x, x ≠ target → x ≠ n → d1 !! x = disk w !! x) as Hsame1.
  { intros x Hxt Hxn. unfold d1. rewrite lookup_insert_ne by done.
    by apply lookup_delete_ne. }
  assert (∀ s, s ∈ earlier → ascii_entry d1 s) as Hascii1.
  { intros s Hs. destruct (Hascii s) as (fs & Hfs & Hafs).
    { right. apply elem_of_app. by left. }
    exists fs. split; [| done].
    rewrite Hsame1; [done | by intros -> | by intros ->]. }
  destruct (append_all_run w n earlier d1 ft Hnd Hne Hn1 Hascii1)
    as (d2 & fr & Hloop & Hfr & Hcontent & Hgone & Hrest).
  assert (ascii_text (content fr)) as Hafr.
  { rewrite Hcontent. apply ascii_app. split; [done |].
    by apply bodies_ascii. }
  destruct (append_lines_run w d2 n fr (body_of d2 n) Hfr
              (body_of_ascii d2 n fr Hfr Hafr))
    as (f' & Happend & _).
  set (d3 := delete n (<[n := f']> d2)).
  exists d3. split; [| split].
  - unfold _merge_trc. unfold bind at 1, get. cbn beta iota.
    fold (eligible w). rewrite Hel, Htn. cbn [tail].
    assert ((rename target n ;; ret n) w = (Returned n, with_disk w d1))
      as Hstart.
    { unfold bind. rewrite <- (with_disk_id w) at 1.
      by rewrite (rename_run w (disk w) target n ft Hft). }
    unfold try_except, bind at 1. rewrite Hstart.
    unfold bind at 1. rewrite for_each_app.
    fold (append_all n earlier). rewrite Hloop.
    cbn [for_each]. unfold bind at 1. unfold bind at 1. unfold bind at 1.
    rewrite (read_lines_run w d2 n fr Hfr Hafr).
    fold (body_of d2 n). rewrite Happend.
    rewrite (remove_run w (<[n := f']> d2) n f' (lookup_insert_eq _ _ _)).
    fold d3. unfold ret. unfold _fix_message_numbers. run.
    cbn [disk with_disk]. unfold d3 at 1. rewrite lookup_delete_eq.
    reflexivity.
  - intros s Hs. rewrite Hel in Hs. unfold d3.
    destruct (decide (s = n)) as [-> | Hsn]; [apply lookup_delete_eq |].
    rewrite lookup_delete_ne, lookup_insert_ne by done.
    apply elem_of_cons in Hs as [-> | Hs].
    + rewrite Hrest by done. unfold d1. rewrite lookup_insert_ne by done.
      apply lookup_delete_eq.
    + apply elem_of_app in Hs as [Hs | Hs]; [by apply Hgone |].
      apply elem_of_cons in Hs as [-> | Hs]; [done | by apply elem_of_nil in Hs].
  - intros x Hx. rewrite Hel in Hx.
    apply not_elem_of_cons in Hx as [Hxt Hx].
    apply not_elem_of_app in Hx as [Hxe Hxn].
    apply not_elem_of_cons in Hxn as [Hxn _].
    unfold d3. rewrite lookup_delete_ne, lookup_insert_ne by done.
    rewrite Hrest by done. by apply Hsame1.
Qed.

Lemma merge_onto_the_latest_trace_loses_the_traces_witness :
  ∃ d',
    _merge_trc (teardown (Some "b.trc") 2 three_traces)
      = (Raised FileNotFoundError,
         with_disk (teardown (Some "b.trc") 2 three_traces) d') ∧
    d' !! "a.trc" = None ∧ d' !! "b.trc" = None.
Proof.
  destruct (merge_onto_the_latest_trace_loses_the_traces
              (teardown (Some "b.trc") 2 three_traces) "b.trc" "a.trc" [])
    as (d' & Hrun & Hgone & _).
  - reflexivity.
  - vm_compute. reflexivity.
  - intros s Hs. apply list_elem_of_In in Hs. vm_compute in Hs.
    destruct Hs as [<- | [<- | []]]; eexists;
      (split; [vm_compute; reflexivity | vm_compute; reflexivity]).
  - exists d'. split; [exact Hrun |].
    split; apply Hgone; apply list_elem_of_In; vm_compute; tauto.
Defined.

End TeardownFacts.
